(** * OpenAPI-to-MCP tool generation: a model of the server and its properties

    The repository turns the operations of an OpenAPI document into MCP
    tools.  Its current entry point is [src/index.ts] (the [v3] document);
    three earlier variants of the entry point are kept next to it: a
    swagger-client proxy that sanitises tool names, a multi-tag proxy, and
    the [v2] generator, which still removes path arguments from the body.

    Conventions of the model:
    - a JavaScript string is a [string]; one [ascii] stands for one UTF-16
      code unit, so the model covers the strings whose code units are
      below 256;
    - a JavaScript number is a [number]: the text that [String(n)] gives
      for it, together with [Number.isInteger(n)]; that is all the program
      ever asks of a number;
    - a JavaScript object is an association list in property order (array
      indices first and ascending, then the other names as they were
      added), with [obj_set] and [obj_delete] for assignment and [delete];
      the names of arguments, parameters and body fields are taken not to
      be names that every object inherits from [Object.prototype];
    - [components.schemas], which is looked up by names taken from the
      document, is a [gmap] of its own properties, read with [getMember],
      which also finds the inherited names; the tool registry is a [gmap];
    - the invocation handler runs in a small monad that threads the
      observable world (random identifiers drawn, clock readings taken,
      requests sent) and an exception. *)

From Stdlib Require Import NArith Ascii String Lia.
From stdpp Require Import base decidable option list strings gmap.

Local Open Scope string_scope.
Local Open Scope list_scope.

(** ** JavaScript strings *)

Module JS.

Definition code (c : ascii) : N := N_of_ascii c.

Definition inRange (lo hi : N) (c : ascii) : bool :=
  ((lo <=? code c) && (code c <=? hi))%N.

Definition isLower : ascii -> bool := inRange 97 122.
Definition isUpper : ascii -> bool := inRange 65 90.
Definition isDigit : ascii -> bool := inRange 48 57.

Fixpoint oneOf (cs : string) (c : ascii) : bool :=
  match cs with
  | EmptyString => false
  | String d cs' => Ascii.eqb c d || oneOf cs' c
  end.

(** [s.replace(/[class]/g, repl)] for a replacement without [$]: every code
    unit in the class gives way to [repl]. *)
Fixpoint replaceClass (cls : ascii -> bool) (repl : string) (s : string) : string :=
  match s with
  | EmptyString => EmptyString
  | String c s' =>
      if cls c then repl +:+ replaceClass cls repl s'
      else String c (replaceClass cls repl s')
  end.

(** [s.substring(0, n)] *)
Definition substring0 (n : nat) (s : string) : string := String.substring 0 n s.

(** [s.startsWith(p)] *)
Definition startsWith (p s : string) : bool := String.prefix p s.

(** [s.includes(needle)] *)
Fixpoint includes (needle s : string) : bool :=
  String.prefix needle s ||
  match s with
  | EmptyString => false
  | String _ s' => includes needle s'
  end.

(** [s.slice(n)] for [0 <= n] *)
Fixpoint drop (n : nat) (s : string) : string :=
  match n, s with
  | O, _ => s
  | S n', EmptyString => EmptyString
  | S n', String _ s' => drop n' s'
  end.

(** The replacement text of [String.prototype.replace] (GetSubstitution,
    without capture groups): [$$] is a dollar sign, [$&] the match, [$`]
    the text before it, [$'] the text after it; any other [$] is literal. *)
Fixpoint getSubstitution (matched before after repl : string) : string :=
  match repl with
  | String "$" (String "$" r) => String "$" (getSubstitution matched before after r)
  | String "$" (String "&" r) => matched +:+ getSubstitution matched before after r
  | String "$" (String "`" r) => before +:+ getSubstitution matched before after r
  | String "$" (String "'" r) => after +:+ getSubstitution matched before after r
  | String c r => String c (getSubstitution matched before after r)
  | EmptyString => EmptyString
  end.

(** [s.replace(needle, repl)] with a string pattern: the first occurrence
    only.  [before] is the text already scanned. *)
Fixpoint replaceFrom (before needle repl s : string) : string :=
  if String.prefix needle s then
    let after := drop (String.length needle) s in
    before +:+ getSubstitution needle before after repl +:+ after
  else
    match s with
    | EmptyString => before
    | String c s' => replaceFrom (before +:+ String c EmptyString) needle repl s'
    end.

Definition replace (needle repl s : string) : string :=
  replaceFrom EmptyString needle repl s.

Definition hexDigit (n : N) : ascii :=
  ascii_of_N (if (n <? 10)%N then 48 + n else 55 + n).

(** [%XX] for one byte *)
Definition pct (b : N) : string :=
  String "%" (String (hexDigit (b / 16)) (String (hexDigit (b mod 16)) EmptyString)).

(** The characters [encodeURIComponent] leaves alone. *)
Definition uriUnreserved (c : ascii) : bool :=
  isLower c || isUpper c || isDigit c || oneOf "-_.!~*'()" c.

(** One code unit under [encodeURIComponent]: kept, or its UTF-8 bytes
    percent-escaped; a code unit below 128 is one byte, one below 256 two. *)
Definition encodeUnit (c : ascii) : string :=
  if uriUnreserved c then String c EmptyString
  else if (code c <? 128)%N then pct (code c)
  else pct (192 + code c / 64) +:+ pct (128 + code c mod 64).

(** [encodeURIComponent(s)] *)
Fixpoint encodeURIComponent (s : string) : string :=
  match s with
  | EmptyString => EmptyString
  | String c s' => encodeUnit c +:+ encodeURIComponent s'
  end.

(** Decimal digits of a natural number, most significant first. *)
Fixpoint digitsFuel (fuel : nat) (n : N) (acc : string) : string :=
  match fuel with
  | O => acc
  | S fuel' =>
      let acc' := String (ascii_of_N (48 + n mod 10)) acc in
      if (n <? 10)%N then acc' else digitsFuel fuel' (n / 10)%N acc'
  end.

Definition decimal (n : N) : string := digitsFuel (S (N.to_nat (N.log2 n))) n EmptyString.

(** [s.toUpperCase()] on the ASCII letters; [method] is only ever one of five
    lower-case names. *)
Fixpoint toUpperCase (s : string) : string :=
  match s with
  | EmptyString => EmptyString
  | String c s' =>
      String (if isLower c then ascii_of_N (code c - 32) else c) (toUpperCase s')
  end.

(** [s.split(sep)] for a separator of one code unit; [cur] is the segment
    being read.  The result is never empty. *)
Fixpoint splitFrom (sep : ascii) (cur : string) (s : string) : list string :=
  match s with
  | EmptyString => [cur]
  | String c s' =>
      if Ascii.eqb c sep then cur :: splitFrom sep EmptyString s'
      else splitFrom sep (cur +:+ String c EmptyString) s'
  end.

Definition split (sep : ascii) (s : string) : list string := splitFrom sep EmptyString s.

(** [items.join(sep)] on strings *)
Fixpoint join (sep : string) (items : list string) : string :=
  match items with
  | [] => EmptyString
  | [x] => x
  | x :: rest => x +:+ sep +:+ join sep rest
  end.

(** A string is truthy when it is not empty; [a || b] on an optional string. *)
Definition orElse (a : option string) (b : string) : string :=
  match a with
  | Some (String c s) => String c s
  | _ => b
  end.

Definition truthy (a : option string) : option string :=
  match a with
  | Some (String c s) => Some (String c s)
  | _ => None
  end.

(** ** Values and objects *)

(** A number, by what the program can observe of it: [String(n)] and
    [Number.isInteger(n)].  [NaN] is the number that prints as ["NaN"]. *)
Record number : Type := {
  numberText : string;       (* String(n) *)
  numberIsInteger : bool;    (* Number.isInteger(n) *)
}.

(** [Number.isNaN(n)] *)
Definition numberIsNaN (n : number) : bool := String.eqb (numberText n) "NaN".

#[warnings="-register-all"]
Inductive value : Type :=
  | VUndefined
  | VNull
  | VBool (b : bool)
  | VNum (n : number)
  | VStr (s : string)
  | VArr (items : list value)
  | VObj (props : list (string * value)).

(** An object: its own properties in property order, keys pairwise
    distinct.  Property order is the order of [Object.keys]: the array
    indices in ascending order, then the other names in the order in which
    they were added. *)
Definition object (A : Type) : Type := list (string * A).

Definition keys {A} (o : object A) : list string := map fst o.

(** [o[k]]; [None] when [k] is not a property of [o] *)
Fixpoint obj_get {A} (k : string) (o : object A) : option A :=
  match o with
  | [] => None
  | (k', v) :: o' => if String.eqb k k' then Some v else obj_get k o'
  end.

(** The number that a string of decimal digits writes. *)
Fixpoint digitsValue (acc : N) (s : string) : option N :=
  match s with
  | EmptyString => Some acc
  | String c s' =>
      if isDigit c then digitsValue (10 * acc + (code c - 48))%N s' else None
  end.

(** The array index that a property name writes, if it writes one: decimal
    digits without a leading zero, of a number below [2^32 - 1]. *)
Definition arrayIndex (k : string) : option N :=
  match k with
  | EmptyString => None
  | String "0" EmptyString => Some 0%N
  | String "0" _ => None
  | _ =>
      match digitsValue 0 k with
      | Some n => if (n <? 4294967295)%N then Some n else None
      | None => None
      end
  end.

(** Whether a new property of index [n] comes before an existing one of
    index [m] ([None] for a name that is not an array index). *)
Definition comesBefore (n m : option N) : bool :=
  match n, m with
  | Some a, Some b => (a <? b)%N
  | Some _, None => true
  | None, _ => false
  end.

(** [o[k] = v] when [k] is a property of [o]: it keeps its place. *)
Fixpoint obj_replace {A} (k : string) (v : A) (o : object A) : object A :=
  match o with
  | [] => []
  | (k', v') :: o' =>
      if String.eqb k k' then (k, v) :: o' else (k', v') :: obj_replace k v o'
  end.

(** [o[k] = v] when [k] is not a property of [o]: an array index goes to
    its place among the indices, any other name goes last. *)
Fixpoint obj_insert {A} (k : string) (v : A) (o : object A) : object A :=
  match o with
  | [] => [(k, v)]
  | (k', v') :: o' =>
      if comesBefore (arrayIndex k) (arrayIndex k')
      then (k, v) :: (k', v') :: o'
      else (k', v') :: obj_insert k v o'
  end.

(** [o[k] = v] *)
Definition obj_set {A} (k : string) (v : A) (o : object A) : object A :=
  if existsb (String.eqb k) (keys o) then obj_replace k v o else obj_insert k v o.

(** [delete o[k]] *)
Fixpoint obj_delete {A} (k : string) (o : object A) : object A :=
  match o with
  | [] => []
  | (k', v') :: o' =>
      if String.eqb k k' then obj_delete k o' else (k', v') :: obj_delete k o'
  end.

(** The names that every plain object inherits from [Object.prototype]. *)
Definition prototypeNames : list string :=
  ["constructor"; "hasOwnProperty"; "isPrototypeOf"; "propertyIsEnumerable";
   "toLocaleString"; "toString"; "valueOf"; "__proto__";
   "__defineGetter__"; "__defineSetter__"; "__lookupGetter__"; "__lookupSetter__"].

(** What [o[name]] finds in a plain object whose own properties are [o]: a
    property of its own, a member inherited from [Object.prototype] (a
    function, or the prototype itself), or nothing, which is [undefined]. *)
Inductive member (A : Type) : Type :=
  | Own (a : A)
  | Inherited
  | Missing.
Arguments Own {A} a.
Arguments Inherited {A}.
Arguments Missing {A}.

Definition getMember {A} (o : gmap string A) (name : string) : member A :=
  match o !! name with
  | Some a => Own a
  | None =>
      if existsb (String.eqb name) prototypeNames then Inherited else Missing
  end.

(** [typeof v === "object"] *)
Definition isObjectType (v : value) : bool :=
  match v with
  | VNull | VArr _ | VObj _ => true
  | _ => false
  end.

(** [String(v)] *)
Fixpoint toString (v : value) : string :=
  match v with
  | VUndefined => "undefined"
  | VNull => "null"
  | VBool true => "true"
  | VBool false => "false"
  | VNum n => numberText n
  | VStr s => s
  | VArr items =>
      join ","
        (map (fun item =>
                match item with
                | VUndefined | VNull => EmptyString
                | _ => toString item
                end) items)
  | VObj _ => "[object Object]"
  end.

(** The message of the TypeError raised on reading property [p] of
    [undefined]. *)
Definition typeErrorReading (p : string) : string :=
  "Cannot read properties of undefined (reading '" +:+ p +:+ "')".

(** ** Exceptions *)

(** A thrown [Error]; the handler only ever reads its [message]. *)
Record Exn : Type := { message : string }.

Inductive outcome (A : Type) : Type :=
  | Returned (a : A)
  | Thrown (e : Exn).
Arguments Returned {A} a.
Arguments Thrown {A} e.

#[global] Instance outcome_ret : MRet outcome := fun A a => Returned a.

#[global] Instance outcome_bind : MBind outcome := fun A B k m =>
  match m with
  | Returned a => k a
  | Thrown e => Thrown e
  end.

(** A loop body that may throw, run over a list from the left. *)
Fixpoint ofold {A B} (f : B -> A -> outcome B) (l : list A) (acc : B) : outcome B :=
  match l with
  | [] => Returned acc
  | x :: l' => acc' ← f acc x; ofold f l' acc'
  end.

(** ** The Fetch API *)

Record Request : Type := {
  url : string;
  method : string;
  headers : object string;
  body : option string;
}.

(** What awaiting [fetch(url, init)] and then [res.text()] gives: a rejection
    with an error message, or a status and the text of the body. *)
Inductive FetchOutcome : Type :=
  | Rejected (msg : string)
  | Response (status : N) (text : string).

(** [res.ok] *)
Definition ok (status : N) : bool := ((200 <=? status) && (status <=? 299))%N.

End JS.

Import JS.

(** ** The validators of zod that the generator uses *)

Module Zod.

(** The anchored patterns of the generator: a sequence of [\d] and literal
    characters between [^] and [$]. *)
Inductive atom : Type :=
  | Digit
  | Lit (c : ascii).

Fixpoint matches (r : list atom) (s : string) : bool :=
  match r, s with
  | [], EmptyString => true
  | Digit :: r', String c s' => isDigit c && matches r' s'
  | Lit d :: r', String c s' => Ascii.eqb c d && matches r' s'
  | _, _ => false
  end.

Inductive check : Type :=
  | CkUuid                      (* .uuid() *)
  | CkDatetimeOffset            (* .datetime({ offset: true }) *)
  | CkRegex (r : list atom).    (* .regex(/^...$/) *)

Inductive schema : Type :=
  | ZString (checks : list check)
  | ZNumber (int : bool)
  | ZBoolean
  | ZEnum (values : list string)
  | ZLiteral (lit : string)
  | ZUnion (a b : schema)
  | ZOptional (inner : schema).

(** One entry of a ZodError. *)
Record issue : Type := { issue_path : string; issue_received : value }.

(** What the model takes from outside the repository: the string checks
    and error text of zod, the JSON functions of the runtime, and the
    behaviour of the world during an invocation. *)
Class Host : Type := {
  zod_uuid : string -> bool;
  zod_datetime_offset : string -> bool;
  zod_message : list issue -> string;
  JSON_parse : string -> option value;
  JSON_stringify : value -> string;
  JSON_pretty : value -> string;
  randomUUID_at : nat -> string;     (* the n-th crypto.randomUUID() *)
  toISOString_at : nat -> string;    (* the n-th new Date().toISOString() *)
  respond : nat -> Request -> FetchOutcome;   (* the answer to the n-th request *)
}.

Section Validation.
Context `{Host}.

Definition check_ok (s : string) (c : check) : bool :=
  match c with
  | CkUuid => zod_uuid s
  | CkDatetimeOffset => zod_datetime_offset s
  | CkRegex r => matches r s
  end.

(** [t.safeParse(v).success]; none of these validators changes the value.
    [z.number()] takes every number but [NaN], and [.int()] asks for
    [Number.isInteger]. *)
Fixpoint accepts (t : schema) (v : value) : bool :=
  match t with
  | ZString checks =>
      match v with VStr s => forallb (check_ok s) checks | _ => false end
  | ZNumber int =>
      match v with
      | VNum n => negb (numberIsNaN n) && (negb int || numberIsInteger n)
      | _ => false
      end
  | ZBoolean =>
      match v with VBool _ => true | _ => false end
  | ZEnum values =>
      match v with VStr s => existsb (String.eqb s) values | _ => false end
  | ZLiteral lit =>
      match v with VStr s => String.eqb s lit | _ => false end
  | ZUnion a b => accepts a v || accepts b v
  | ZOptional inner =>
      match v with VUndefined => true | _ => accepts inner v end
  end.

(** [z.object(shape)] on an object: every key of the shape is checked
    against [data[key]]; a key of the shape is copied to the result when it
    is a property of [data]; every other property of [data] is stripped. *)
Fixpoint parseShape (shape : object schema) (data : object value)
  : list issue * object value :=
  match shape with
  | [] => ([], [])
  | (k, t) :: shape' =>
      let '(issues, out) := parseShape shape' data in
      let v := default VUndefined (obj_get k data) in
      if accepts t v then
        (issues, match obj_get k data with Some v' => (k, v') :: out | None => out end)
      else
        ({| issue_path := k; issue_received := v |} :: issues, out)
  end.

(** [z.object(shape).parse(data)] *)
Definition parse (shape : object schema) (data : object value) : outcome (object value) :=
  match parseShape shape data with
  | ([], out) => Returned out
  | (issues, _) => Thrown {| message := zod_message issues |}
  end.

End Validation.

End Zod.

Import Zod.

(** ** The world of an invocation *)

Module Run.

(** What an invocation can observe and change outside itself: how many
    random identifiers have been drawn, how many times the clock has been
    read, and the requests sent so far. *)
Record World : Type := {
  drawn : nat;
  clockReads : nat;
  sent : list Request;
}.

Definition M (A : Type) : Type := World -> outcome A * World.

#[global] Instance M_ret : MRet M := fun A a w => (Returned a, w).

#[global] Instance M_bind : MBind M := fun A B k m w =>
  match m w with
  | (Returned a, w') => k a w'
  | (Thrown e, w') => (Thrown e, w')
  end.

Definition throw {A} (e : Exn) : M A := fun w => (Thrown e, w).

(** A computation that may throw but does not touch the world. *)
Definition lift {A} (m : outcome A) : M A := fun w => (m, w).

(** [try { m } catch (error) { h error }] *)
Definition tryCatch {A} (m : M A) (h : Exn -> M A) : M A := fun w =>
  match m w with
  | (Returned a, w') => (Returned a, w')
  | (Thrown e, w') => h e w'
  end.

(** The world after a request has been handed to [fetch]. *)
Definition afterRequest (w : World) (req : Request) : World :=
  {| drawn := drawn w; clockReads := clockReads w; sent := sent w ++ [req] |}.

Section Effects.
Context `{Host}.

(** [crypto.randomUUID()] *)
Definition randomUUID : M string := fun w =>
  (Returned (randomUUID_at (drawn w)),
   {| drawn := S (drawn w); clockReads := clockReads w; sent := sent w |}).

(** [new Date().toISOString()] *)
Definition nowISOString : M string := fun w =>
  (Returned (toISOString_at (clockReads w)),
   {| drawn := drawn w; clockReads := S (clockReads w); sent := sent w |}).

(** [await fetch(url, init)] followed by [await res.text()] *)
Definition fetchText (req : Request) : M (N * string) := fun w =>
  match respond (length (sent w)) req with
  | Rejected msg => (Thrown {| message := msg |}, afterRequest w req)
  | Response status text => (Returned (status, text), afterRequest w req)
  end.

End Effects.

End Run.

Import Run.

(** ** The generator of [src/index.ts] *)

Module Index.

Inductive Location : Type := InPath | InQuery | InHeader.

(** [PathParameter]; [schema.type] and [schema.format] are flattened. *)
Record PathParameter : Type := {
  name : string;
  location : Location;          (* in *)
  required : bool;
  schemaType : string;          (* schema.type *)
  schemaFormat : option string; (* schema.format *)
}.

(** [OpenAPIPropertySchema]; [default] and [nullable] are never read. *)
Record OpenAPIPropertySchema : Type := {
  propType : option string;     (* type *)
  propFormat : option string;   (* format *)
  propRef : option string;      (* $ref *)
  propEnum : option (list string);  (* enum *)
}.

(** [OpenAPISchemaObject] *)
Record OpenAPISchemaObject : Type := {
  objType : option string;
  objRequired : option (list string);
  objProperties : option (object OpenAPIPropertySchema);
  objEnum : option (list string);
}.

(** [requestBody]: all the generator reads of it is whether it is there and
    [content?.["application/json"]?.schema?.$ref]. *)
Record RequestBody : Type := { jsonSchemaRef : option string }.

(** An entry of [responses]: whether [content?.["application/json"]] is
    there. *)
Record ResponseObject : Type := { jsonContent : bool }.

Record Operation : Type := {
  operationId : option string;
  parameters : option (list PathParameter);
  requestBody : option RequestBody;
  responses : option (object ResponseObject);
}.

Definition isLocation (a b : Location) : bool :=
  match a, b with
  | InPath, InPath | InQuery, InQuery | InHeader, InHeader => true
  | _, _ => false
  end.

(** [getZodSchemaForParameter] *)
Definition getZodSchemaForParameter (param : PathParameter) : schema :=
  let schema :=
    if String.eqb (schemaType param) "integer" then ZNumber true
    else if String.eqb (schemaType param) "number" then ZNumber false
    else ZString [] in
  if required param then schema else ZOptional schema.

(** The name a [$ref] points to: [ref.split("/").slice(1)], then its last
    element; when there is none the lookup key is ["undefined"]. *)
Definition schemaNameOf (ref : string) : string :=
  let refPath := tail (split "/" ref) in
  default "undefined" (last refPath).

Definition sentinelGuid : string := "{{$guid}}".
Definition sentinelDatetime : string := "{{$datetime iso8601}}".

Definition dateRegex : list atom :=
  [Digit; Digit; Digit; Digit; Lit "-"; Digit; Digit; Lit "-"; Digit; Digit].
Definition timeRegex : list atom :=
  [Digit; Digit; Lit ":"; Digit; Digit; Lit ":"; Digit; Digit].

Definition isType (t : option string) (name : string) : bool :=
  match t with Some s => String.eqb s name | None => false end.

(** Lines 75 to 99 of [resolveSchemaRef]: the validator of a property by
    its [type] and [format]. *)
Definition schemaOfType (prop : OpenAPIPropertySchema) : schema :=
  if isType (propType prop) "integer" then ZNumber true
  else if isType (propType prop) "string" then
    if isType (propFormat prop) "uuid" then
      ZUnion (ZString [CkUuid]) (ZLiteral sentinelGuid)
    else if isType (propFormat prop) "date-time" || isType (propFormat prop) "datetime" then
      ZUnion (ZString [CkDatetimeOffset]) (ZLiteral sentinelDatetime)
    else if isType (propFormat prop) "date" then ZString [CkRegex dateRegex]
    else if isType (propFormat prop) "time" then ZString [CkRegex timeRegex]
    else ZString []
  else if isType (propType prop) "number" then ZNumber false
  else if isType (propType prop) "boolean" then ZBoolean
  else ZString [].

(** [resolveSchemaRef]; reading [enum] of [undefined] throws, and an
    inherited member has no [enum]. *)
Definition resolveSchemaRef (ref : option string) (prop : OpenAPIPropertySchema)
    (schemas : gmap string OpenAPISchemaObject) : outcome schema :=
  referencedEnum ←
    match truthy ref with
    | Some r =>
        match getMember schemas (schemaNameOf r) with
        | Own referencedSchema => Returned (objEnum referencedSchema)
        | Inherited => Returned None
        | Missing => Thrown {| message := typeErrorReading "enum" |}
        end
    | None => Returned None
    end;
  match referencedEnum with
  | Some values => Returned (ZEnum values)
  | None =>
      match propEnum prop with
      | Some values => Returned (ZEnum values)
      | None => Returned (schemaOfType prop)
      end
  end.

(** [toolName] of [createToolFromEndpoint] *)
Definition toolName (path method : string) (operation : Operation) : string :=
  orElse (operationId operation) (method +:+ replaceClass (oneOf "/{}/") "_" path).

Definition parametersOf (operation : Operation) : list PathParameter :=
  default [] (parameters operation).

(** The first loop of [createToolFromEndpoint]: a validator for each
    parameter located in the path. *)
Definition pathParamSchema (operation : Operation) : object schema :=
  fold_left (fun paramSchema param =>
               if isLocation (location param) InPath
               then obj_set (name param) (getZodSchemaForParameter param) paramSchema
               else paramSchema)
            (parametersOf operation) [].

Definition includesField (required : option (list string)) (field : string) : bool :=
  match required with
  | Some fields => existsb (String.eqb field) fields
  | None => false
  end.

(** The second part: a validator for each property of the referenced body
    schema.  Reading [properties] of [undefined] throws, and an inherited
    member has no [properties]. *)
Definition paramSchemaOf (operation : Operation)
    (schemas : gmap string OpenAPISchemaObject) : outcome (object schema) :=
  match requestBody operation ≫= fun rb => truthy (jsonSchemaRef rb) with
  | Some ref =>
      match getMember schemas (schemaNameOf ref) with
      | Missing => Thrown {| message := typeErrorReading "properties" |}
      | Inherited => Returned (pathParamSchema operation)
      | Own referencedSchema =>
          match objProperties referencedSchema with
          | Some properties =>
              ofold (fun paramSchema '(field, prop) =>
                       zodSchema ← resolveSchemaRef (propRef prop) prop schemas;
                       Returned
                         (obj_set field
                            (if includesField (objRequired referencedSchema) field
                             then zodSchema else ZOptional zodSchema)
                            paramSchema))
                    properties (pathParamSchema operation)
          | None => Returned (pathParamSchema operation)
          end
      end
  | None => Returned (pathParamSchema operation)
  end.

(** *** The handler of a generated tool *)

(** [{ content: [{ type: "text", text }] }] *)
Record CallToolResult : Type := { text : string }.

Fixpoint mfold {A B} (f : B -> A -> M B) (l : list A) (acc : B) : M B :=
  match l with
  | [] => mret acc
  | x :: l' => acc' ← f acc x; mfold f l' acc'
  end.

(** The residual arguments of the body: [{ ...validatedParams }] with
    [ClientNumber] moved to [clientNumber]. *)
Definition bodyParamsOf (validatedParams : object value) : object value :=
  match obj_get "ClientNumber" validatedParams with
  | Some VUndefined | None => validatedParams
  | Some v => obj_delete "ClientNumber" (obj_set "clientNumber" v validatedParams)
  end.

(** The prefix correction of the Hawksoft endpoints. *)
Definition integrationPath (path : string) : string :=
  if negb (startsWith "/integrations" path) && includes "/hawksoft/" path
  then "/integrations" +:+ path
  else path.

Definition segmentOf (key : string) : string := "{" +:+ key +:+ "}".

(** The loop that replaces path parameters. *)
Definition replacePathParameter (path : string) (finalPath : string)
    (entry : string * value) : string :=
  let '(key, value) := entry in
  if includes (segmentOf key) path
  then replace (segmentOf key) (encodeURIComponent (toString value)) finalPath
  else finalPath.

Definition finalPathOf (path : string) (validatedParams : object value) : string :=
  fold_left (replacePathParameter path) validatedParams (integrationPath path).

(** The headers; reading [content] of a ["200"] response that is not there
    throws, and so does reading ["200"] of [responses] when there are
    none. *)
Definition headersOf (operation : Operation) (organizationId finalPath : string)
  : outcome (object string) :=
  match responses operation with
  | None => Thrown {| message := typeErrorReading "200" |}
  | Some declared =>
      match obj_get "200" declared with
      | None => Thrown {| message := typeErrorReading "content" |}
      | Some success =>
          let headers0 :=
            [("Content-Type", "application/json");
             ("Accept", if jsonContent success then "application/json" else "text/plain")] in
          let headers1 :=
            fold_left (fun headers param =>
                         if isLocation (location param) InHeader && required param
                            && String.eqb (name param) "X-Org-Id"
                         then obj_set (name param) organizationId headers
                         else headers)
                      (parametersOf operation) headers0 in
          Returned
            (if includes "/hawksoft/" finalPath
             then obj_set "X-Org-Id" organizationId headers1
             else headers1)
      end
  end.

Definition newline : string := String "010" EmptyString.

(** [body || `HTTP error ${res.status}`] *)
Definition statusMessage (status : N) (body : string) : string :=
  match body with
  | EmptyString => "HTTP error " +:+ decimal status
  | _ => body
  end.

Section Handler.
Context `{Host}.

(** The body of the loop over [Object.entries(processedParams)]. *)
Definition substituteEntry (processedParams : object value) (entry : string * value)
  : M (object value) :=
  let '(key, value) := entry in
  match value with
  | VStr s =>
      if String.eqb s sentinelGuid then
        fresh ← randomUUID; mret (obj_set key (VStr fresh) processedParams)
      else if String.eqb s sentinelDatetime then
        now ← nowISOString; mret (obj_set key (VStr now) processedParams)
      else mret processedParams
  | _ => mret processedParams
  end.

(** [processedParams] once the loop has run on [{ ...params }]. *)
Definition substitutePlaceholders (params : object value) : M (object value) :=
  mfold substituteEntry params params.

(** The text of a successful response. *)
Definition responseText (body : string) : string :=
  match JSON_parse body with
  | None => body
  | Some (VArr items) =>
      join (newline +:+ newline)
        (map (fun item => if isObjectType item then JSON_pretty item else toString item)
             items)
  | Some responseContent =>
      if isObjectType responseContent then JSON_pretty responseContent
      else toString responseContent
  end.

Definition requestOf (path method : string) (operation : Operation)
    (baseUrl : string) (headers : object string) (validatedParams : object value)
  : Request :=
  {| url := baseUrl +:+ finalPathOf path validatedParams;
     JS.method := toUpperCase method;
     JS.headers := headers;
     body := match requestBody operation with
             | Some _ => Some (JSON_stringify (VObj (bodyParamsOf validatedParams)))
             | None => None
             end |}.

(** The [try] block from the validation on; [console.log] is left out. *)
Definition callEndpoint (path method : string) (operation : Operation)
    (baseUrl organizationId : string) (paramSchema : object schema)
    (processedParams : object value) : M CallToolResult :=
  validatedParams ← lift (parse paramSchema processedParams);
  headers ← lift (headersOf operation organizationId (finalPathOf path validatedParams));
  res ← fetchText (requestOf path method operation baseUrl headers validatedParams);
  let '(status, body) := res in
  if negb (ok status) then throw {| message := statusMessage status body |}
  else mret {| text := responseText body |}.

(** The whole [try] block: placeholders first, then the rest. *)
Definition attempt (path method : string) (operation : Operation)
    (baseUrl organizationId : string) (paramSchema : object schema)
    (params : object value) : M CallToolResult :=
  processedParams ← substitutePlaceholders params;
  callEndpoint path method operation baseUrl organizationId paramSchema processedParams.

(** The text of the [catch] block. *)
Definition errorText (path method : string) (operation : Operation) (msg : string) : string :=
  "Error in " +:+ toolName path method operation +:+ ": " +:+ msg.

(** The callback passed to [server.tool]. *)
Definition handler (path method : string) (operation : Operation)
    (baseUrl organizationId : string) (paramSchema : object schema)
    (params : object value) : M CallToolResult :=
  tryCatch (attempt path method operation baseUrl organizationId paramSchema params)
    (fun error => mret {| text := errorText path method operation (message error) |}).

End Handler.

(** *** Registration *)

(** What a registered callback closes over.  The calculator is registered
    by [init] as well; its arithmetic is not part of the generator. *)
Inductive Invoker : Type :=
  | Endpoint (path method : string) (operation : Operation) (baseUrl organizationId : string)
  | Calculator.

Record ToolDefinition : Type := {
  inputSchema : object schema;
  invoker : Invoker;
}.

(** Modelled from the spec: [McpServer.tool], the registry of the MCP SDK,
    is not part of the sources; section 4.4 of the specification has
    [register] insert or overwrite the entry keyed by the name. *)
Definition register (name : string) (inputSchema : object schema) (invoker : Invoker)
    (registry : gmap string ToolDefinition) : gmap string ToolDefinition :=
  <[name := {| inputSchema := inputSchema; invoker := invoker |}]> registry.

(** [createToolFromEndpoint] *)
Definition createToolFromEndpoint (schemas : gmap string OpenAPISchemaObject)
    (path method : string) (operation : Operation) (baseUrl organizationId : string)
    (registry : gmap string ToolDefinition) : outcome (gmap string ToolDefinition) :=
  paramSchema ← paramSchemaOf operation schemas;
  Returned (register (toolName path method operation) paramSchema
              (Endpoint path method operation baseUrl organizationId) registry).

Record Document : Type := {
  paths : object (object Operation);
  schemas : gmap string OpenAPISchemaObject;   (* components.schemas *)
}.

Definition isHttpMethod (method : string) : bool :=
  existsb (String.eqb method) ["get"; "post"; "put"; "delete"; "patch"].

Definition baseUrl : string := "http://localhost:9999".
Definition organizationId : string := "8232f2d1-91f2-4d17-9a7e-756dd5dc7544".

Definition calculatorSchema : object schema :=
  [("operation", ZEnum ["add"; "subtract"; "multiply"; "divide"]);
   ("a", ZNumber false); ("b", ZNumber false)].

(** The loop of [init] over the paths and their methods. *)
Definition registerEndpoints (doc : Document) (registry : gmap string ToolDefinition)
  : outcome (gmap string ToolDefinition) :=
  ofold (fun registry '(path, pathItem) =>
           ofold (fun registry '(method, operation) =>
                    if isHttpMethod method
                    then createToolFromEndpoint (schemas doc) path method operation
                           baseUrl organizationId registry
                    else Returned registry)
                 pathItem registry)
        (paths doc) registry.

(** [init] *)
Definition init (doc : Document) : outcome (gmap string ToolDefinition) :=
  registry ← registerEndpoints doc ∅;
  Returned (register "calculate" calculatorSchema Calculator registry).

End Index.

(** ** The swagger-client proxy (an earlier entry point) *)

Module SwaggerProxy.

(** [/[^a-zA-Z0-9_-]/] *)
Definition invalidNameChar (c : ascii) : bool :=
  negb (isLower c || isUpper c || isDigit c || oneOf "_-" c).

(** [.replace(/[^a-zA-Z0-9_-]/g, "_").substring(0, 64)] *)
Definition sanitize (toolName : string) : string :=
  substring0 64 (replaceClass invalidNameChar "_" toolName).

(** Lines 32 to 36: the tool name, from what [operation.operationId] gives
    and the keys [tagName] and [opId]. *)
Definition toolName (tagName opId : string) (operationId : option string) : string :=
  sanitize (orElse operationId (tagName +:+ "_" +:+ opId)).

(** [operation] is [client.apis[tagName][opId]], the function of
    swagger-client that line 55 calls; it has no property [operationId]. *)
Definition executorOperationId : option string := None.

(** The name under which the loop registers [client.apis[tagName][opId]]. *)
Definition registeredName (tagName opId : string) : string :=
  toolName tagName opId executorOperationId.

End SwaggerProxy.

(** ** The generator for the [v2] document (an earlier entry point) *)

Module V2.

(** The body of the request: [{ ...params }] without the keys that were
    used in the path. *)
Definition bodyParamsOf (path : string) (params : object value) : object value :=
  fold_left (fun bodyParams key =>
               if includes (Index.segmentOf key) path
               then obj_delete key bodyParams
               else bodyParams)
            (keys params) params.

End V2.

(** ** A concrete host

    The theorems below hold for every [Host].  This one, small enough to
    compute with, is used to run the model on examples: its zod checks are
    the patterns of zod 3, its JSON functions cover scalars and flat
    objects, and its world answers by the path of the request. *)

Module Sample.

Definition isHex (c : ascii) : bool :=
  isDigit c || inRange 97 102 c || inRange 65 70 c.

Fixpoint shaped (classes : list (ascii -> bool)) (s : string) : bool :=
  match classes, s with
  | [], EmptyString => true
  | cls :: classes', String c s' => cls c && shaped classes' s'
  | _, _ => false
  end.

Definition isChar (d : ascii) (c : ascii) : bool := Ascii.eqb c d.

(** Eight, four, four, four and twelve hexadecimal digits. *)
Definition uuidShape : list (ascii -> bool) :=
  replicate 8 isHex ++ [isChar "-"] ++ replicate 4 isHex ++ [isChar "-"] ++
  replicate 4 isHex ++ [isChar "-"] ++ replicate 4 isHex ++ [isChar "-"] ++
  replicate 12 isHex.

Definition secondsShape : list (ascii -> bool) :=
  [isDigit; isDigit; isDigit; isDigit; isChar "-"; isDigit; isDigit; isChar "-"; isDigit; isDigit;
   isChar "T"; isDigit; isDigit; isChar ":"; isDigit; isDigit; isChar ":"; isDigit; isDigit].

Fixpoint dropDigits (s : string) : string :=
  match s with
  | String c s' => if isDigit c then dropDigits s' else s
  | EmptyString => s
  end.

(** [Z], [+hh:mm] or [+hhmm] *)
Definition isOffset (s : string) : bool :=
  String.eqb s "Z"
  || shaped [oneOf "+-"; isDigit; isDigit; isChar ":"; isDigit; isDigit] s
  || shaped [oneOf "+-"; isDigit; isDigit; isDigit; isDigit] s.

(** A date, [T], a time to the second, an optional fraction, an offset. *)
Definition datetimeOffset (s : string) : bool :=
  shaped secondsShape (substring0 19 s) &&
  match drop 19 s with
  | String "." (String c rest) => isDigit c && isOffset (dropDigits rest)
  | rest => isOffset rest
  end.

Definition quote (s : string) : string := String "034" (s +:+ String "034" EmptyString).

(** JSON text of scalars and of objects of scalars; strings are taken to
    need no escapes. *)
Definition stringifyScalar (v : value) : string :=
  match v with
  | VStr s => quote s
  | VNum n =>
      if existsb (String.eqb (numberText n)) ["NaN"; "Infinity"; "-Infinity"]
      then "null" else numberText n
  | VBool b => toString (VBool b)
  | _ => "null"
  end.

Definition stringify (v : value) : string :=
  match v with
  | VObj props =>
      "{" +:+ join ","
                (map (fun '(k, x) => quote k +:+ ":" +:+ stringifyScalar x)
                     (List.filter (fun '(k, x) => match x with VUndefined => false | _ => true end)
                                  props))
          +:+ "}"
  | _ => stringifyScalar v
  end.

(** The JSON literals are parsed; any other text counts as not JSON. *)
Definition parseLiteral (s : string) : option value :=
  if String.eqb s "null" then Some VNull
  else if String.eqb s "true" then Some (VBool true)
  else if String.eqb s "false" then Some (VBool false)
  else None.

Definition pad (width : nat) (s : string) : string :=
  string_of_list_ascii (replicate (width - String.length s) "0"%char) +:+ s.

(** Answers by the path: a rejected connection under [/down], an empty 404
    under [/missing], a 500 with a body under [/broken], and otherwise a 200
    with the plain text [pong]. *)
Definition network (n : nat) (req : Request) : FetchOutcome :=
  if includes "/down" (url req) then Rejected "fetch failed"
  else if includes "/missing" (url req) then Response 404 ""
  else if includes "/broken" (url req) then Response 500 "upstream exploded"
  else Response 200 "pong".

Definition host : Host := {|
  zod_uuid := shaped uuidShape;
  zod_datetime_offset := datetimeOffset;
  zod_message issues := "Invalid input: " +:+ join ", " (map issue_path issues);
  JSON_parse := parseLiteral;
  JSON_stringify := stringify;
  JSON_pretty := stringify;
  randomUUID_at n := "00000000-0000-4000-8000-" +:+ pad 12 (decimal (N.of_nat n));
  toISOString_at n := "2025-01-01T00:00:00." +:+ pad 3 (decimal (N.of_nat (n mod 1000))) +:+ "Z";
  respond := network;
|}.

Definition world0 : World := {| drawn := 0; clockReads := 0; sent := [] |}.

(** The integer that the decimal digits write (a few digits, so that they
    are also what [String] gives). *)
Definition int (digits : string) : number :=
  {| numberText := digits; numberIsInteger := true |}.

(** One and a half. *)
Definition oneAndAHalf : number := {| numberText := "1.5"; numberIsInteger := false |}.

(** [GET /items/{id}] with operation identifier [getItem]. *)
Definition getItem : Index.Operation := {|
  Index.operationId := Some "getItem";
  Index.parameters :=
    Some [ {| Index.name := "id"; Index.location := Index.InPath; Index.required := true;
              Index.schemaType := "string"; Index.schemaFormat := None |};
           {| Index.name := "verbose"; Index.location := Index.InQuery; Index.required := false;
              Index.schemaType := "string"; Index.schemaFormat := None |} ];
  Index.requestBody := None;
  Index.responses := Some [("200", {| Index.jsonContent := true |})];
|}.

(** The schema [Order]: [id] (uuid, required), [placed] (date-time),
    [note] (string). *)
Definition orderSchema : Index.OpenAPISchemaObject := {|
  Index.objType := Some "object";
  Index.objRequired := Some ["id"];
  Index.objProperties :=
    Some [("id", {| Index.propType := Some "string"; Index.propFormat := Some "uuid";
                    Index.propRef := None; Index.propEnum := None |});
          ("placed", {| Index.propType := Some "string"; Index.propFormat := Some "date-time";
                        Index.propRef := None; Index.propEnum := None |});
          ("note", {| Index.propType := Some "string"; Index.propFormat := None;
                      Index.propRef := None; Index.propEnum := None |})];
  Index.objEnum := None;
|}.

Definition components : gmap string Index.OpenAPISchemaObject :=
  {[ "Order" := orderSchema ]}.

(** [PUT /shops/{shop}/orders] with a body of schema [Order]. *)
Definition putOrder : Index.Operation := {|
  Index.operationId := Some "putOrder";
  Index.parameters :=
    Some [ {| Index.name := "shop"; Index.location := Index.InPath; Index.required := true;
              Index.schemaType := "string"; Index.schemaFormat := None |} ];
  Index.requestBody := Some {| Index.jsonSchemaRef := Some "#/components/schemas/Order" |};
  Index.responses := Some [("200", {| Index.jsonContent := true |})];
|}.

(** [DELETE /items/{id}], which declares a 204 response only. *)
Definition deleteItem : Index.Operation := {|
  Index.operationId := Some "deleteItem";
  Index.parameters :=
    Some [ {| Index.name := "id"; Index.location := Index.InPath; Index.required := true;
              Index.schemaType := "string"; Index.schemaFormat := None |} ];
  Index.requestBody := None;
  Index.responses := Some [("204", {| Index.jsonContent := false |})];
|}.

End Sample.

(** ** Shapes named by the specification *)

Module Spec.

(** A string of exactly [n] decimal digits. *)
Definition digits (n : nat) (s : string) : Prop :=
  String.length s = n /\ Forall (fun c => isDigit c = true) (list_ascii_of_string s).

(** [YYYY-MM-DD] *)
Definition DateShape (s : string) : Prop :=
  exists y m d, s = y +:+ "-" +:+ m +:+ "-" +:+ d /\ digits 4 y /\ digits 2 m /\ digits 2 d.

(** [HH:MM:SS] *)
Definition TimeShape (s : string) : Prop :=
  exists h m sec, s = h +:+ ":" +:+ m +:+ ":" +:+ sec /\ digits 2 h /\ digits 2 m /\ digits 2 sec.

(** A format that [resolveSchemaRef] does not single out. *)
Definition plainFormat (format : option string) : Prop :=
  forall f, format = Some f -> ~ In f ["uuid"; "date-time"; "datetime"; "date"; "time"].

(** The number of GUID sentinels among the entries before key [k]: how
    many identifiers the loop has drawn when it reaches [k]. *)
Fixpoint drawsBefore (k : string) (entries : object value) : nat :=
  match entries with
  | [] => 0
  | (k', v) :: rest =>
      if String.eqb k k' then 0
      else (match v with
            | VStr s => if String.eqb s Index.sentinelGuid then 1 else 0
            | _ => 0
            end) + drawsBefore k rest
  end.

(** Likewise the clock readings taken before key [k]. *)
Fixpoint readsBefore (k : string) (entries : object value) : nat :=
  match entries with
  | [] => 0
  | (k', v) :: rest =>
      if String.eqb k k' then 0
      else (match v with
            | VStr s => if String.eqb s Index.sentinelGuid then 0
                        else if String.eqb s Index.sentinelDatetime then 1 else 0
            | _ => 0
            end) + readsBefore k rest
  end.

Section Generator.
Context `{Host}.

(** The first [n] identifiers drawn are pairwise different. *)
Definition freshBelow (n : nat) : Prop :=
  forall i j, i < j -> j < n -> randomUUID_at i <> randomUUID_at j.

(** The first [n] identifiers drawn pass zod's UUID check. *)
Definition validBelow (n : nat) : Prop :=
  forall i, i < n -> zod_uuid (randomUUID_at i) = true.

End Generator.

(** A value that the placeholder loop replaces. *)
Definition isPlaceholder (v : value) : bool :=
  match v with
  | VStr s => String.eqb s Index.sentinelGuid || String.eqb s Index.sentinelDatetime
  | _ => false
  end.

(** Two objects with the same properties except, possibly, [q]. *)
Definition agreeOff {A} (q : string) (o o' : object A) : Prop :=
  forall k, k <> q -> obj_get k o = obj_get k o'.

(** Entries that are the same, or that both carry key [q] with values the
    placeholder loop leaves alone. *)
Definition sameButAt (q : string) (e e' : string * value) : Prop :=
  e = e' \/ (fst e = q /\ fst e' = q
             /\ isPlaceholder (snd e) = false /\ isPlaceholder (snd e') = false).

(** The names of the properties of the body schema of an operation. *)
Definition bodyProperties (operation : Index.Operation)
    (schemas : gmap string Index.OpenAPISchemaObject) : list string :=
  match Index.requestBody operation ≫= fun rb => truthy (Index.jsonSchemaRef rb) with
  | Some ref =>
      match schemas !! Index.schemaNameOf ref ≫= Index.objProperties with
      | Some properties => keys properties
      | None => []
      end
  | None => []
  end.

(** The operation with its [query] parameters erased. *)
Definition withoutQueryParameters (operation : Index.Operation) : Index.Operation :=
  {| Index.operationId := Index.operationId operation;
     Index.parameters :=
       option_map (List.filter (fun p => negb (Index.isLocation (Index.location p) Index.InQuery)))
                  (Index.parameters operation);
     Index.requestBody := Index.requestBody operation;
     Index.responses := Index.responses operation |}.

(** A path template read as literal text and [{name}] holes. *)
Inductive segment : Type :=
  | Text (s : string)
  | Hole (name : string).

Fixpoint render (t : list segment) : string :=
  match t with
  | [] => EmptyString
  | Text s :: t' => s +:+ render t'
  | Hole x :: t' => Index.segmentOf x +:+ render t'
  end.

(** The character [d] does not occur in the string. *)
Fixpoint avoids (d : ascii) (s : string) : bool :=
  match s with
  | EmptyString => true
  | String c s' => negb (Ascii.eqb c d) && avoids d s'
  end.

(** No [{], [}] or [$] in the string. *)
Fixpoint plain (s : string) : bool :=
  match s with
  | EmptyString => true
  | String c s' => negb (oneOf "{}$" c) && plain s'
  end.

(** A name that can stand between braces. *)
Definition braceFree (s : string) : bool := avoids "{" s && avoids "}" s.

Definition segmentOk (seg : segment) : bool :=
  match seg with
  | Text s => avoids "{" s
  | Hole x => braceFree x
  end.

(** The template is well formed: a [{] only ever opens a hole, and the
    names of the holes have no brace. *)
Definition wellFormed (t : list segment) : bool := forallb segmentOk t.

Definition isHole (x : string) (seg : segment) : bool :=
  match seg with
  | Hole y => String.eqb x y
  | Text _ => false
  end.

(** The template with its first hole [x] filled by [e]. *)
Fixpoint fill (x e : string) (t : list segment) : list segment :=
  match t with
  | [] => []
  | seg :: t' => if isHole x seg then Text e :: t' else seg :: fill x e t'
  end.

(** One turn of the loop that replaces path parameters, on the template. *)
Definition fillStep (path : string) (t : list segment) (entry : string * value)
  : list segment :=
  if includes (Index.segmentOf (fst entry)) path
  then fill (fst entry) (encodeURIComponent (toString (snd entry))) t
  else t.

(** A segment left as it was, or a hole filled with the encoded argument of
    its name. *)
Definition filledFrom (validatedParams : object value) (seg seg' : segment) : Prop :=
  seg' = seg
  \/ exists k v, seg = Hole k /\ obj_get k validatedParams = Some v
                 /\ seg' = Text (encodeURIComponent (toString v)).

(** What [integrationPath] puts in front of the path. *)
Definition integrationPrefix (path : string) : string :=
  if negb (startsWith "/integrations" path) && includes "/hawksoft/" path
  then "/integrations" else EmptyString.

(** The endpoints of a document in the order in which [init] meets them. *)
Definition endpointsOf (doc : Index.Document) : list (string * string * Index.Operation) :=
  flat_map (fun '(path, pathItem) =>
              flat_map (fun '(method, operation) =>
                          if Index.isHttpMethod method then [(path, method, operation)] else [])
                       pathItem)
           (Index.paths doc).

(** The last endpoint of the list whose tool name is [name]. *)
Fixpoint lastNamed (name : string) (endpoints : list (string * string * Index.Operation))
  : option (string * string * Index.Operation) :=
  match endpoints with
  | [] => None
  | (path, method, operation) :: rest =>
      match lastNamed name rest with
      | Some later => Some later
      | None =>
          if String.eqb (Index.toolName path method operation) name
          then Some (path, method, operation) else None
      end
  end.

End Spec.

(** ** The multi-tag proxy (an earlier entry point) *)

Module MultiTag.

(** [\s] on code units below 256: tab to carriage return, space, no-break
    space. *)
Definition isSpace (c : ascii) : bool :=
  inRange 9 13 c || (code c =? 32)%N || (code c =? 160)%N.

(** [s.replace(/[class]+/g, repl)] for a replacement without [$]: every
    maximal run of the class gives way to one [repl].  [inRun] tells that the
    code unit before was in the class. *)
Fixpoint replaceRuns (cls : ascii -> bool) (repl : string) (inRun : bool) (s : string)
  : string :=
  match s with
  | EmptyString => EmptyString
  | String c s' =>
      if cls c then
        if inRun then replaceRuns cls repl true s'
        else repl +:+ replaceRuns cls repl true s'
      else String c (replaceRuns cls repl false s')
  end.

(** [`${tag}_${operationId}`.replace(/\s+/g, "_")], for the [operationId]
    that the loop finds in the document once [Swagger({ spec })] has gone
    over it. *)
Definition toolName (tag operationId : string) : string :=
  replaceRuns isSpace "_" false (tag +:+ "_" +:+ operationId).

End MultiTag.

(** ** Further notions used to state properties *)

Module Facts.

Definition chars (s : string) : list ascii := list_ascii_of_string s.

(** The alphabet of [encodeURIComponent]: the unreserved characters, among
    them the hexadecimal digits, and [%]. *)
Definition uriSafe (c : ascii) : bool :=
  uriUnreserved c || Ascii.eqb c "%".

(** Some parameter is a required header named [X-Org-Id]. *)
Definition declaresOrgId (operation : Index.Operation) : bool :=
  existsb (fun param =>
             Index.isLocation (Index.location param) Index.InHeader
             && Index.required param && String.eqb (Index.name param) "X-Org-Id")
          (Index.parametersOf operation).

Definition verbs : list string := ["GET"; "POST"; "PUT"; "DELETE"; "PATCH"].

(** The types that [resolveSchemaRef] knows. *)
Definition knownTypes : list string := ["integer"; "string"; "number"; "boolean"].

End Facts.

(** * Properties *)

(** ** Strings *)

#[local] Arguments String.append !_ _ / : simpl nomatch.

Section StringFacts.

Lemma append_empty_r (s : string) : s +:+ EmptyString = s.
Proof. induction s as [|c s IH]; simpl; congruence. Qed.

Lemma append_assoc (a b c : string) : (a +:+ b) +:+ c = a +:+ (b +:+ c).
Proof. induction a as [|x a IH]; simpl; congruence. Qed.

Lemma substring0_cons (n : nat) (c : ascii) (s : string) :
  substring0 (S n) (String c s) = String c (substring0 n s).
Proof. reflexivity. Qed.

Lemma substring0_idempotent (n : nat) (s : string) :
  substring0 n (substring0 n s) = substring0 n s.
Proof.
  revert s; induction n as [|n IH]; intros [|c s]; try reflexivity.
  rewrite !substring0_cons. now rewrite IH.
Qed.

Lemma substring0_length (n : nat) (s : string) :
  String.length (substring0 n s) <= n.
Proof.
  revert s; induction n as [|n IH]; intros [|c s]; simpl; try lia.
  specialize (IH s). unfold substring0 in IH. lia.
Qed.

(** Replacing a class by one character acts character by character. *)
Lemma replaceClass_char (cls : ascii -> bool) (u c : ascii) (s : string) :
  replaceClass cls (String u EmptyString) (String c s)
  = String (if cls c then u else c) (replaceClass cls (String u EmptyString) s).
Proof. simpl. now destruct (cls c). Qed.

Lemma replaceClass_substring0 (cls : ascii -> bool) (u : ascii) (n : nat) (s : string) :
  replaceClass cls (String u EmptyString) (substring0 n s)
  = substring0 n (replaceClass cls (String u EmptyString) s).
Proof.
  revert s; induction n as [|n IH]; intros [|c s]; try reflexivity.
  - rewrite replaceClass_char. reflexivity.
  - rewrite replaceClass_char, !substring0_cons, replaceClass_char. now rewrite IH.
Qed.

Lemma replaceClass_idempotent (cls : ascii -> bool) (u : ascii) (s : string) :
  cls u = false ->
  replaceClass cls (String u EmptyString) (replaceClass cls (String u EmptyString) s)
  = replaceClass cls (String u EmptyString) s.
Proof.
  intros Hu. induction s as [|c s IH]; [reflexivity|].
  rewrite !replaceClass_char, IH.
  destruct (cls c) eqn:Hc; [now rewrite Hu | now rewrite Hc].
Qed.

End StringFacts.

(** ** Tool names *)

(** A sanitised name matches [^[a-zA-Z0-9_-]{0,64}$]. *)
Lemma sanitize_pattern (s : string) :
  String.length (SwaggerProxy.sanitize s) <= 64
  /\ forall c, In c (list_ascii_of_string (SwaggerProxy.sanitize s)) ->
               SwaggerProxy.invalidNameChar c = false.
Proof.
  split; [apply substring0_length|].
  unfold SwaggerProxy.sanitize. rewrite <- replaceClass_substring0.
  generalize (substring0 64 s) as t. clear s.
  induction t as [|d t IH]; [intros c []|].
  intros c. rewrite replaceClass_char. simpl. intros [<-|Hin]; [|now apply IH].
  destruct (SwaggerProxy.invalidNameChar d) eqn:Hd; [reflexivity | exact Hd].
Qed.

(** C8: the tool-name sanitiser of the swagger-client proxy (every
    character outside [A-Za-z0-9_-] becomes [_], then the name is cut to 64
    characters) is idempotent: sanitising a sanitised name changes
    nothing. *)
Theorem C8_sanitize_idempotent (s : string) :
  SwaggerProxy.sanitize (SwaggerProxy.sanitize s) = SwaggerProxy.sanitize s.
Proof.
  unfold SwaggerProxy.sanitize.
  rewrite replaceClass_substring0, substring0_idempotent.
  now rewrite replaceClass_idempotent.
Qed.

Example sanitize_sample :
  SwaggerProxy.sanitize "get item/by id" = "get_item_by_id".
Proof. reflexivity. Qed.

(** C2, as stated, fails on [src/index.ts]: the operation identifier
    [get item] becomes the tool name unchanged, while its sanitised form is
    [get_item]. *)
Lemma C2_identifier_not_sanitized :
  Index.toolName "/items" "get"
    {| Index.operationId := Some "get item"; Index.parameters := None;
       Index.requestBody := None; Index.responses := None |}
  <> SwaggerProxy.sanitize "get item".
Proof. discriminate. Qed.

(** C2, amended: for an operation with a non-empty identifier,
    [createToolFromEndpoint] of [src/index.ts] uses the identifier as it
    is, neither sanitised nor cut.  The replacement of every character
    outside [A-Za-z0-9_-] by [_] and the cut to 64 characters belong to the
    swagger-client proxy, which applies them to [tagName_opId]: the
    function it reads [operationId] from has none. *)
Theorem C2_tool_name_of_identifier (id : string) :
  id <> EmptyString ->
  (forall path method operation,
     Index.operationId operation = Some id ->
     Index.toolName path method operation = id)
  /\ (forall tagName opId,
        SwaggerProxy.registeredName tagName opId
        = substring0 64
            (replaceClass SwaggerProxy.invalidNameChar "_" (tagName +:+ "_" +:+ opId))).
Proof.
  intros Hid. split.
  - intros path method operation Hop. unfold Index.toolName. rewrite Hop.
    destruct id as [|c id]; [congruence | reflexivity].
  - intros tagName opId.
    unfold SwaggerProxy.registeredName, SwaggerProxy.toolName, SwaggerProxy.executorOperationId.
    reflexivity.
Qed.

Lemma C2_tool_name_of_identifier_witness :
  Index.toolName "/items/{id}" "get" Sample.getItem = "getItem"
  /\ SwaggerProxy.registeredName "items" "get item" = "items_get_item".
Proof.
  destruct (C2_tool_name_of_identifier "getItem" ltac:(discriminate)) as [Hindex Hproxy].
  split.
  - apply Hindex. reflexivity.
  - rewrite Hproxy. reflexivity.
Defined.

(** ** Objects *)

Section ObjectFacts.
Context {A : Type}.
Implicit Types (o : object A) (k : string) (v : A).

Lemma obj_get_Some_keys k v o : obj_get k o = Some v -> In k (keys o).
Proof.
  induction o as [|[k0 v0] o IH]; simpl; [discriminate|].
  destruct (String.eqb_spec k k0) as [->|]; [now left | right; now apply IH].
Qed.

Lemma obj_get_None_keys k o : obj_get k o = None <-> ~ In k (keys o).
Proof.
  induction o as [|[k0 v0] o IH]; simpl; [tauto|].
  destruct (String.eqb_spec k k0) as [->|Hne].
  - split; [discriminate | intros Hn; exfalso; apply Hn; now left].
  - rewrite IH. split; [intros Hn [Heq|Hin]; congruence | tauto].
Qed.

Lemma existsb_keys k o : existsb (String.eqb k) (keys o) = true <-> In k (keys o).
Proof.
  rewrite existsb_exists. split.
  - intros [k' [Hin Heq]]. apply String.eqb_eq in Heq. now subst k'.
  - intros Hin. exists k. split; [exact Hin | apply String.eqb_refl].
Qed.

Lemma existsb_keys_false k o : existsb (String.eqb k) (keys o) = false <-> ~ In k (keys o).
Proof. rewrite <- existsb_keys. now destruct (existsb _ _). Qed.

Lemma obj_get_replace k' k v o :
  In k (keys o) ->
  obj_get k' (obj_replace k v o) = if String.eqb k' k then Some v else obj_get k' o.
Proof.
  induction o as [|[k0 v0] o IH]; simpl; [tauto|].
  intros Hin. destruct (String.eqb_spec k k0) as [->|Hk]; simpl.
  - now destruct (String.eqb k' k0).
  - rewrite IH by (destruct Hin; congruence).
    destruct (String.eqb_spec k' k0) as [->|]; [|reflexivity].
    destruct (String.eqb_spec k0 k); congruence.
Qed.

Lemma obj_get_insert k' k v o :
  ~ In k (keys o) ->
  obj_get k' (obj_insert k v o) = if String.eqb k' k then Some v else obj_get k' o.
Proof.
  induction o as [|[k0 v0] o IH]; simpl.
  - now destruct (String.eqb k' k).
  - intros Hout. destruct (comesBefore _ _); simpl; [reflexivity|].
    rewrite IH by tauto.
    destruct (String.eqb_spec k' k0) as [->|]; [|reflexivity].
    destruct (String.eqb_spec k0 k); [subst; tauto | reflexivity].
Qed.

Lemma obj_get_set k' k v o :
  obj_get k' (obj_set k v o) = if String.eqb k' k then Some v else obj_get k' o.
Proof.
  unfold obj_set. destruct (existsb (String.eqb k) (keys o)) eqn:Hk.
  - apply obj_get_replace. now apply existsb_keys.
  - apply obj_get_insert. now apply existsb_keys_false.
Qed.

Lemma keys_replace k v o : keys (obj_replace k v o) = keys o.
Proof.
  induction o as [|[k0 v0] o IH]; simpl; [reflexivity|].
  destruct (String.eqb_spec k k0) as [->|]; simpl; [reflexivity | now rewrite IH].
Qed.

(** A new key is added to the keys, at the place of its index. *)
Lemma keys_insert k v o : Permutation (keys (obj_insert k v o)) (k :: keys o).
Proof.
  induction o as [|[k0 v0] o IH]; simpl; [reflexivity|].
  destruct (comesBefore _ _); simpl; [reflexivity|].
  rewrite IH. apply perm_swap.
Qed.

(** A name that is not an array index goes last. *)
Lemma obj_insert_name k v o : arrayIndex k = None -> obj_insert k v o = o ++ [(k, v)].
Proof.
  intros Hk. induction o as [|[k0 v0] o IH]; simpl; [reflexivity|].
  rewrite Hk. simpl. now rewrite IH.
Qed.

Lemma keys_set_present k v o : In k (keys o) -> keys (obj_set k v o) = keys o.
Proof.
  intros Hin. unfold obj_set. apply existsb_keys in Hin. rewrite Hin. apply keys_replace.
Qed.

Lemma obj_set_NoDup k v o : NoDup (keys o) -> NoDup (keys (obj_set k v o)).
Proof.
  intros Hnd. unfold obj_set. destruct (existsb (String.eqb k) (keys o)) eqn:Hk.
  - now rewrite keys_replace.
  - apply existsb_keys_false in Hk.
    rewrite keys_insert. apply NoDup_cons. split; [|exact Hnd].
    now rewrite list_elem_of_In.
Qed.

Lemma obj_replace_twice k v o : obj_replace k v (obj_replace k v o) = obj_replace k v o.
Proof.
  induction o as [|[k0 v0] o IH]; simpl; [reflexivity|].
  destruct (String.eqb k k0) eqn:Hk; simpl.
  - now rewrite String.eqb_refl.
  - now rewrite Hk, IH.
Qed.

Lemma obj_replace_insert k v o :
  ~ In k (keys o) -> obj_replace k v (obj_insert k v o) = obj_insert k v o.
Proof.
  induction o as [|[k0 v0] o IH]; simpl; intros Hout.
  - now rewrite String.eqb_refl.
  - destruct (comesBefore _ _); simpl.
    + now rewrite String.eqb_refl.
    + destruct (String.eqb_spec k k0) as [->|]; [tauto|]. rewrite IH; tauto.
Qed.

Lemma obj_set_twice k v o : obj_set k v (obj_set k v o) = obj_set k v o.
Proof.
  assert (Hin : existsb (String.eqb k) (keys (obj_set k v o)) = true).
  { apply existsb_keys. apply obj_get_Some_keys with v.
    rewrite obj_get_set. now rewrite String.eqb_refl. }
  unfold obj_set at 1. rewrite Hin. unfold obj_set.
  destruct (existsb (String.eqb k) (keys o)) eqn:Hk.
  - apply obj_replace_twice.
  - apply obj_replace_insert. now apply existsb_keys_false.
Qed.

Lemma obj_get_delete k' k o :
  obj_get k' (obj_delete k o) = if String.eqb k' k then None else obj_get k' o.
Proof.
  induction o as [|[k0 v0] o IH]; simpl.
  - now destruct (String.eqb k' k).
  - destruct (String.eqb_spec k k0) as [->|Hk]; simpl.
    + rewrite IH. now destruct (String.eqb k' k0).
    + rewrite IH. destruct (String.eqb_spec k' k0) as [->|]; [|reflexivity].
      destruct (String.eqb_spec k0 k); congruence.
Qed.

Lemma obj_delete_filter k o :
  obj_delete k o = List.filter (fun e => negb (String.eqb k (fst e))) o.
Proof.
  induction o as [|[k0 v0] o IH]; simpl; [reflexivity|].
  destruct (String.eqb k k0); simpl; now rewrite IH.
Qed.

Lemma keys_set_inv k' k v o : In k' (keys (obj_set k v o)) -> k' = k \/ In k' (keys o).
Proof.
  unfold obj_set. destruct (existsb (String.eqb k) (keys o)).
  - rewrite keys_replace. now right.
  - intros Hin. apply (Permutation_in _ (keys_insert k v o)) in Hin.
    destruct Hin as [<-|Hin]; [now left | now right].
Qed.

End ObjectFacts.

(** Array indices come first, in ascending order; [01] is a name. *)
Example property_order :
  keys (obj_set "b" 0 (obj_set "2" 0 (obj_set "a" 0 (obj_set "10" 0 (obj_set "01" 0 [])))))
  = ["2"; "10"; "01"; "a"; "b"].
Proof. reflexivity. Qed.

(** ** The body of the request *)

(** The loop of the [v2] generator deletes exactly the keys that occur as a
    segment of the path. *)
Lemma v2_delete_loop (path : string) (ks : list string) (bodyParams : object value) :
  fold_left (fun bodyParams key =>
               if includes (Index.segmentOf key) path
               then obj_delete key bodyParams else bodyParams) ks bodyParams
  = List.filter (fun e => negb (existsb (fun key => String.eqb key (fst e)
                                           && includes (Index.segmentOf key) path) ks))
                bodyParams.
Proof.
  revert bodyParams; induction ks as [|k ks IH]; intros bodyParams; simpl.
  - induction bodyParams as [|e b IHb]; simpl; congruence.
  - rewrite IH. destruct (includes (Index.segmentOf k) path) eqn:Hinc.
    + rewrite obj_delete_filter. clear.
      induction bodyParams as [|e b IHb]; simpl; [reflexivity|].
      rewrite Bool.andb_true_r.
      destruct (String.eqb k (fst e)); simpl; [exact IHb|].
      destruct (existsb _ ks); simpl; congruence.
    + apply List.filter_ext. intros e. now rewrite Bool.andb_false_r.
Qed.

Lemma v2_body_filter (path : string) (params : object value) :
  V2.bodyParamsOf path params
  = List.filter (fun e => negb (includes (Index.segmentOf (fst e)) path)) params.
Proof.
  unfold V2.bodyParamsOf. rewrite v2_delete_loop.
  apply List.filter_ext_in. intros [k v] Hin. simpl. f_equal.
  destruct (includes (Index.segmentOf k) path) eqn:Hinc.
  - apply existsb_exists. exists k. split.
    + unfold keys. apply in_map_iff. now exists (k, v).
    + now rewrite String.eqb_refl.
  - apply Bool.not_true_is_false. rewrite existsb_exists.
    intros [k' [_ Hk']]. apply andb_prop in Hk' as [Heq Hinc'].
    apply String.eqb_eq in Heq. subst k'. congruence.
Qed.

(** C4, as stated, fails on [src/index.ts]: for [PUT /shops/{shop}/orders]
    the argument [shop] is substituted into the path and is still in the
    body. *)
Lemma C4_path_argument_in_body :
  includes (Index.segmentOf "shop") "/shops/{shop}/orders" = true
  /\ Index.bodyParamsOf [("shop", VStr "s1"); ("note", VStr "n")]
     <> List.filter (fun e => negb (includes (Index.segmentOf (fst e)) "/shops/{shop}/orders"))
          [("shop", VStr "s1"); ("note", VStr "n")].
Proof. split; [reflexivity | discriminate]. Qed.

(** C4, amended: for an operation of [src/index.ts] that declares a request
    body, the body is the JSON text of all validated arguments, those
    substituted into the path included; on a Hawksoft endpoint a defined
    [ClientNumber] goes under the name [clientNumber] instead; without a
    defined [ClientNumber] the body is the validated arguments as they are.
    In the [v2] generator the body holds exactly the arguments whose names
    are no [{name}] segment of the path. *)
Theorem C4_request_body `{Host} (path method baseUrl : string)
    (operation : Index.Operation) (headers : object string)
    (validatedParams : object value) :
  is_Some (Index.requestBody operation) ->
  let bodyParams := Index.bodyParamsOf validatedParams in
  body (Index.requestOf path method operation baseUrl headers validatedParams)
    = Some (JSON_stringify (VObj bodyParams))
  /\ (forall k, k <> "ClientNumber" -> k <> "clientNumber" ->
        obj_get k bodyParams = obj_get k validatedParams)
  /\ (includes "/hawksoft/" path = true ->
      forall v, obj_get "ClientNumber" validatedParams = Some v -> v <> VUndefined ->
        obj_get "clientNumber" bodyParams = Some v
        /\ obj_get "ClientNumber" bodyParams = None)
  /\ (obj_get "ClientNumber" validatedParams = None
      \/ obj_get "ClientNumber" validatedParams = Some VUndefined ->
      bodyParams = validatedParams)
  /\ (forall params : object value,
        V2.bodyParamsOf path params
        = List.filter (fun e => negb (includes (Index.segmentOf (fst e)) path)) params).
Proof.
  intros [rb Hrb] bodyParams. subst bodyParams.
  split; [|split; [|split; [|split]]].
  - unfold Index.requestOf. simpl. now rewrite Hrb.
  - intros k Hk1 Hk2. unfold Index.bodyParamsOf.
    destruct (obj_get "ClientNumber" validatedParams) as [[]|] eqn:Hc; try reflexivity;
      rewrite obj_get_delete, obj_get_set;
      (destruct (String.eqb_spec k "ClientNumber"); [congruence|]);
      (destruct (String.eqb_spec k "clientNumber"); [congruence|]); reflexivity.
  - intros _ v Hv Hdef. unfold Index.bodyParamsOf. rewrite Hv.
    destruct v; try congruence; now rewrite !obj_get_delete, obj_get_set.
  - intros [Hc|Hc]; unfold Index.bodyParamsOf; now rewrite Hc.
  - apply v2_body_filter.
Qed.

Lemma C4_request_body_witness :
  let validated := [("id", VStr "c1"); ("ClientNumber", VNum (Sample.int "7"))] in
  body (Index.requestOf (H := Sample.host) "/hawksoft/clients/{id}" "put" Sample.putOrder
          Index.baseUrl [] validated)
    = Some (JSON_stringify (Host := Sample.host)
              (VObj [("id", VStr "c1"); ("clientNumber", VNum (Sample.int "7"))]))
  /\ obj_get "clientNumber" (Index.bodyParamsOf validated) = Some (VNum (Sample.int "7"))
  /\ V2.bodyParamsOf "/hawksoft/clients/{id}" validated
     = [("ClientNumber", VNum (Sample.int "7"))].
Proof.
  intros validated.
  destruct (C4_request_body (H := Sample.host) "/hawksoft/clients/{id}" "put" Index.baseUrl
              Sample.putOrder [] validated ltac:(eexists; reflexivity))
    as (Hbody & _ & Hrename & _ & Hv2).
  split; [|split].
  - rewrite Hbody. reflexivity.
  - apply (Hrename eq_refl (VNum (Sample.int "7")) eq_refl). discriminate.
  - rewrite Hv2. reflexivity.
Defined.

(** ** Validators of string properties *)

Lemma matches_nil (s : string) : matches [] s = true <-> s = EmptyString.
Proof. destruct s; simpl; split; congruence. Qed.

Lemma matches_app (r1 r2 : list atom) (s : string) :
  matches (r1 ++ r2) s = true
  <-> exists a b, s = a +:+ b /\ matches r1 a = true /\ matches r2 b = true.
Proof.
  revert s; induction r1 as [|x r1 IH]; intros s.
  - change ([] ++ r2) with r2. split.
    + intros Hm. exists EmptyString, s. repeat split; assumption.
    + intros (a & b & -> & Ha & Hb). apply matches_nil in Ha. now subst a.
  - split.
    + destruct s as [|c s]; [destruct x; discriminate|].
      intros Hm. assert (Hx : matches [x] (String c EmptyString) = true
                              /\ matches (r1 ++ r2) s = true).
      { destruct x; simpl in *; apply andb_prop in Hm as [-> Hm]; now split. }
      destruct Hx as [Hx Hrest]. apply IH in Hrest as (a & b & -> & Ha & Hb).
      exists (String c a), b. repeat split; [|exact Hb].
      destruct x; simpl in *; rewrite Bool.andb_true_r in Hx; now rewrite Hx.
    + intros (a & b & -> & Ha & Hb).
      destruct a as [|c a]; [destruct x; discriminate|].
      assert (Htail : matches (r1 ++ r2) (a +:+ b) = true).
      { apply IH. exists a, b. repeat split; [|exact Hb].
        destruct x; simpl in Ha; now apply andb_prop in Ha. }
      destruct x; simpl in *; apply andb_prop in Ha as [-> _]; exact Htail.
Qed.

Lemma matches_digits (n : nat) (s : string) :
  matches (replicate n Digit) s = true <-> Spec.digits n s.
Proof.
  unfold Spec.digits. revert s; induction n as [|n IH]; intros [|c s]; simpl.
  - split; [now split; [|constructor] | reflexivity].
  - split; [discriminate | intros [? _]; discriminate].
  - split; [discriminate | intros [? _]; discriminate].
  - rewrite Bool.andb_true_iff, IH. split.
    + intros [Hc [Hlen Hall]]. split; [now rewrite Hlen | now constructor].
    + intros [Hlen Hall]. inversion Hall; subst. repeat split; [assumption|lia|assumption].
Qed.

Lemma matches_lit (c : ascii) (s : string) :
  matches [Lit c] s = true <-> s = String c EmptyString.
Proof.
  destruct s as [|d s]; [split; discriminate|].
  change (matches [Lit c] (String d s)) with (Ascii.eqb d c && matches [] s).
  rewrite Bool.andb_true_iff, matches_nil. split.
  - intros [Hd ->]. apply Ascii.eqb_eq in Hd. now subst.
  - intros [= -> ->]. split; [apply Ascii.eqb_refl | reflexivity].
Qed.

Lemma dateRegex_shape (s : string) :
  matches Index.dateRegex s = true <-> Spec.DateShape s.
Proof.
  change Index.dateRegex
    with (replicate 4 Digit ++ [Lit "-"%char] ++ replicate 2 Digit ++ [Lit "-"%char]
          ++ replicate 2 Digit).
  unfold Spec.DateShape. split.
  - intros Hm.
    apply matches_app in Hm as (y & r1 & -> & Hy & Hm).
    apply matches_app in Hm as (d1 & r2 & -> & Hd1 & Hm).
    apply matches_app in Hm as (m & r3 & -> & Hm' & Hm).
    apply matches_app in Hm as (d2 & d & -> & Hd2 & Hd).
    apply matches_lit in Hd1, Hd2. subst d1 d2.
    exists y, m, d. now rewrite <- !matches_digits.
  - intros (y & m & d & -> & Hy & Hm & Hd).
    apply matches_app. exists y, ("-" +:+ m +:+ "-" +:+ d).
    repeat split; [now apply matches_digits|].
    apply matches_app. exists "-", (m +:+ "-" +:+ d). repeat split.
    apply matches_app. exists m, ("-" +:+ d).
    repeat split; [now apply matches_digits|].
    apply matches_app. exists "-", d. repeat split. now apply matches_digits.
Qed.

Lemma timeRegex_shape (s : string) :
  matches Index.timeRegex s = true <-> Spec.TimeShape s.
Proof.
  change Index.timeRegex
    with (replicate 2 Digit ++ [Lit ":"%char] ++ replicate 2 Digit ++ [Lit ":"%char]
          ++ replicate 2 Digit).
  unfold Spec.TimeShape. split.
  - intros Hm.
    apply matches_app in Hm as (h & r1 & -> & Hh & Hm).
    apply matches_app in Hm as (d1 & r2 & -> & Hd1 & Hm).
    apply matches_app in Hm as (m & r3 & -> & Hm' & Hm).
    apply matches_app in Hm as (d2 & sec & -> & Hd2 & Hsec).
    apply matches_lit in Hd1, Hd2. subst d1 d2.
    exists h, m, sec. now rewrite <- !matches_digits.
  - intros (h & m & sec & -> & Hh & Hm & Hsec).
    apply matches_app. exists h, (":" +:+ m +:+ ":" +:+ sec).
    repeat split; [now apply matches_digits|].
    apply matches_app. exists ":", (m +:+ ":" +:+ sec). repeat split.
    apply matches_app. exists m, (":" +:+ sec).
    repeat split; [now apply matches_digits|].
    apply matches_app. exists ":", sec. repeat split. now apply matches_digits.
Qed.

Example date_accepts_any_digits :
  matches Index.dateRegex "9999-99-99" = true /\ matches Index.dateRegex "2025-1-01" = false.
Proof. split; reflexivity. Qed.

Lemma getMember_own {A} (o : gmap string A) (name : string) (a : A) :
  o !! name = Some a -> getMember o name = Own a.
Proof. intros Ho. unfold getMember. now rewrite Ho. Qed.

Lemma getMember_missing {A} (o : gmap string A) (name : string) :
  getMember o name = Missing <-> o !! name = None /\ ~ In name prototypeNames.
Proof.
  unfold getMember. destruct (o !! name) as [a|].
  - split; [discriminate | now intros [[=] _]].
  - destruct (existsb (String.eqb name) prototypeNames) eqn:Hp.
    + split; [discriminate|]. intros [_ Hout]. exfalso. apply Hout.
      apply existsb_exists in Hp as (x & Hin & Heq). apply String.eqb_eq in Heq. now subst x.
    + split; [|reflexivity]. intros _. split; [reflexivity|]. intros Hin.
      apply Bool.not_true_iff_false in Hp. apply Hp. apply existsb_exists.
      exists name. split; [exact Hin | apply String.eqb_refl].
Qed.

Lemma getMember_inherited {A} (o : gmap string A) (name : string) :
  getMember o name = Inherited <-> o !! name = None /\ In name prototypeNames.
Proof.
  unfold getMember. destruct (o !! name) as [a|].
  - split; [discriminate | now intros [[=] _]].
  - destruct (existsb (String.eqb name) prototypeNames) eqn:Hp.
    + split; [|reflexivity]. intros _. split; [reflexivity|].
      apply existsb_exists in Hp as (x & Hin & Heq). apply String.eqb_eq in Heq. now subst x.
    + split; [discriminate|]. intros [_ Hin]. exfalso.
      apply Bool.not_true_iff_false in Hp. apply Hp. apply existsb_exists.
      exists name. split; [exact Hin | apply String.eqb_refl].
Qed.

Section StringValidators.
Context `{Host}.

Lemma accepts_plain_string (v : value) :
  accepts (ZString []) v = true <-> exists s, v = VStr s.
Proof. destruct v; simpl; split; try discriminate; eauto; intros [? [=]]. Qed.

Lemma accepts_checked_string (c : check) (v : value) :
  accepts (ZString [c]) v = true <-> exists s, v = VStr s /\ check_ok s c = true.
Proof.
  destruct v; simpl; split; try discriminate; try (intros (? & [=] & _); fail).
  - rewrite Bool.andb_true_r. eauto.
  - intros (? & [= <-] & ->). reflexivity.
Qed.

Lemma accepts_string_or_literal (c : check) (lit : string) (v : value) :
  accepts (ZUnion (ZString [c]) (ZLiteral lit)) v = true
  <-> exists s, v = VStr s /\ (check_ok s c = true \/ s = lit).
Proof.
  change (accepts (ZUnion (ZString [c]) (ZLiteral lit)) v)
    with (accepts (ZString [c]) v || accepts (ZLiteral lit) v).
  rewrite Bool.orb_true_iff, accepts_checked_string. split.
  - intros [(s & -> & Hc)|Hl]; [eauto|].
    destruct v; simpl in Hl; try discriminate. apply String.eqb_eq in Hl. eauto.
  - intros (s & -> & [Hc| ->]); [left; eauto | right; simpl; apply String.eqb_refl].
Qed.

End StringValidators.

(** C7, as stated, fails: the format [datetime], which the claim counts
    among the other formats that admit any string, gets the validator of
    [date-time], and that one rejects [hello]. *)
Lemma C7_datetime_alias_is_checked :
  exists t,
    Index.resolveSchemaRef None
      {| Index.propType := Some "string"; Index.propFormat := Some "datetime";
         Index.propRef := None; Index.propEnum := None |} ∅ = Returned t
    /\ accepts (H := Sample.host) t (VStr "hello") = false.
Proof. eexists. split; reflexivity. Qed.

(** C7, amended: for a string-typed property that is not an enumeration
    (it has no [enum], and its reference, if it has one, is found among
    the components and leads to no [enum]), the validator accepts exactly:
    for format [uuid], the strings zod takes for a UUID and the GUID
    sentinel; for format [date-time] and for format [datetime], the strings
    zod takes for a datetime with offset and the datetime sentinel; for
    format [date], the strings of shape YYYY-MM-DD; for format [time], the
    strings of shape HH:MM:SS; for any other or no format, every string. *)
Theorem C7_string_validators `{Host} (prop : Index.OpenAPIPropertySchema)
    (schemas : gmap string Index.OpenAPISchemaObject) :
  Index.propType prop = Some "string" ->
  Index.propEnum prop = None ->
  (truthy (Index.propRef prop) = None
   \/ exists ref,
        truthy (Index.propRef prop) = Some ref
        /\ (getMember schemas (Index.schemaNameOf ref) = Inherited
            \/ exists referenced,
                 schemas !! Index.schemaNameOf ref = Some referenced
                 /\ Index.objEnum referenced = None)) ->
  exists t,
    Index.resolveSchemaRef (Index.propRef prop) prop schemas = Returned t
    /\ (Index.propFormat prop = Some "uuid" ->
        forall v, accepts t v = true
                  <-> exists s, v = VStr s /\ (zod_uuid s = true \/ s = "{{$guid}}"))
    /\ (Index.propFormat prop = Some "date-time" \/ Index.propFormat prop = Some "datetime" ->
        forall v, accepts t v = true
                  <-> exists s, v = VStr s
                                /\ (zod_datetime_offset s = true \/ s = "{{$datetime iso8601}}"))
    /\ (Index.propFormat prop = Some "date" ->
        forall v, accepts t v = true <-> exists s, v = VStr s /\ Spec.DateShape s)
    /\ (Index.propFormat prop = Some "time" ->
        forall v, accepts t v = true <-> exists s, v = VStr s /\ Spec.TimeShape s)
    /\ (Spec.plainFormat (Index.propFormat prop) ->
        forall v, accepts t v = true <-> exists s, v = VStr s).
Proof.
  intros Htype Henum Href.
  exists (Index.schemaOfType prop). split.
  { unfold Index.resolveSchemaRef.
    destruct Href as [Href|(ref & Href & [Hinh|(referenced & Hschema & Hnone)])];
      rewrite Href.
    - simpl. now rewrite Henum.
    - rewrite Hinh. simpl. now rewrite Henum.
    - rewrite (getMember_own _ _ _ Hschema). simpl. now rewrite Hnone, Henum. }
  split; [|split; [|split; [|split]]].
  - intros Hf v.
    replace (Index.schemaOfType prop) with (ZUnion (ZString [CkUuid]) (ZLiteral "{{$guid}}"))
      by (unfold Index.schemaOfType; now rewrite Htype, Hf).
    apply (accepts_string_or_literal CkUuid).
  - intros Hf v.
    replace (Index.schemaOfType prop)
      with (ZUnion (ZString [CkDatetimeOffset]) (ZLiteral "{{$datetime iso8601}}"))
      by (unfold Index.schemaOfType; rewrite Htype; now destruct Hf as [-> | ->]).
    apply (accepts_string_or_literal CkDatetimeOffset).
  - intros Hf v.
    replace (Index.schemaOfType prop) with (ZString [CkRegex Index.dateRegex])
      by (unfold Index.schemaOfType; now rewrite Htype, Hf).
    rewrite accepts_checked_string. unfold check_ok. now setoid_rewrite dateRegex_shape.
  - intros Hf v.
    replace (Index.schemaOfType prop) with (ZString [CkRegex Index.timeRegex])
      by (unfold Index.schemaOfType; now rewrite Htype, Hf).
    rewrite accepts_checked_string. unfold check_ok. now setoid_rewrite timeRegex_shape.
  - intros Hplain v.
    assert (Hno : forall f, In f ["uuid"; "date-time"; "datetime"; "date"; "time"] ->
                            Index.isType (Index.propFormat prop) f = false).
    { intros f Hin. unfold Index.isType.
      destruct (Index.propFormat prop) as [g|] eqn:Hg; [|reflexivity].
      apply String.eqb_neq. intros ->. now apply (Hplain f). }
    replace (Index.schemaOfType prop) with (ZString [])
      by (unfold Index.schemaOfType; rewrite Htype, !Hno by (simpl; tauto); reflexivity).
    apply accepts_plain_string.
Qed.

Lemma C7_string_validators_witness :
  exists t,
    Index.resolveSchemaRef (Some "#/components/schemas/Order")
      {| Index.propType := Some "string"; Index.propFormat := Some "uuid";
         Index.propRef := Some "#/components/schemas/Order"; Index.propEnum := None |}
      Sample.components = Returned t
    /\ accepts (H := Sample.host) t (VStr "{{$guid}}") = true
    /\ accepts (H := Sample.host) t (VStr "8232f2d1-91f2-4d17-9a7e-756dd5dc7544") = true
    /\ accepts (H := Sample.host) t (VStr "hello") = false.
Proof.
  destruct (C7_string_validators (H := Sample.host)
              {| Index.propType := Some "string"; Index.propFormat := Some "uuid";
                 Index.propRef := Some "#/components/schemas/Order";
                 Index.propEnum := None |} Sample.components
              eq_refl eq_refl) as (t & Ht & Huuid & _).
  { right. exists "#/components/schemas/Order". split; [reflexivity|].
    right. exists Sample.orderSchema. split; reflexivity. }
  exists t. split; [exact Ht|]. split; [|split].
  - apply (Huuid eq_refl). eexists. split; [reflexivity|]. right. reflexivity.
  - apply (Huuid eq_refl). eexists. split; [reflexivity|]. left. reflexivity.
  - apply Bool.not_true_is_false. intros Hacc.
    apply (Huuid eq_refl) in Hacc as (s & [= <-] & [Hu|Hs]); discriminate.
Defined.

(** ** The registry *)

Lemma no_entry_of_absent_key {V} (l : list (string * V)) (k : string) :
  ~ In k (map fst l) -> List.filter (fun e => String.eqb (fst e) k) l = [].
Proof.
  induction l as [|[k0 v0] l IH]; simpl; [reflexivity|].
  intros Hfresh. destruct (String.eqb_spec k0 k) as [->|]; [tauto|].
  apply IH. tauto.
Qed.

Lemma one_entry_per_key {V} (l : list (string * V)) (k : string) (v : V) :
  NoDup l.*1 -> In (k, v) l ->
  length (List.filter (fun e => String.eqb (fst e) k) l) = 1.
Proof.
  induction l as [|[k0 v0] l IH]; simpl; [tauto|].
  intros Hnd Hin. apply NoDup_cons in Hnd as [Hfresh Hnd].
  destruct (String.eqb_spec k0 k) as [->|Hne].
  - simpl. rewrite no_entry_of_absent_key; [reflexivity|].
    intros Hk. apply Hfresh. now apply list_elem_of_In.
  - destruct Hin as [[=]|Hin]; [congruence | now apply IH].
Qed.

Lemma createTool_registers (schemas : gmap string Index.OpenAPISchemaObject)
    (path method : string) (operation : Index.Operation) (baseUrl organizationId : string)
    (registry registry' : gmap string Index.ToolDefinition) :
  Index.createToolFromEndpoint schemas path method operation baseUrl organizationId registry
    = Returned registry' ->
  exists paramSchema,
    Index.paramSchemaOf operation schemas = Returned paramSchema
    /\ registry' = <[Index.toolName path method operation :=
                      {| Index.inputSchema := paramSchema;
                         Index.invoker := Index.Endpoint path method operation
                                            baseUrl organizationId |}]> registry.
Proof.
  unfold Index.createToolFromEndpoint, Index.register.
  destruct (Index.paramSchemaOf operation schemas) as [paramSchema|e]; simpl.
  - intros [= <-]. now exists paramSchema.
  - discriminate.
Qed.

(** C1: when two operations have the same derived tool name, registering
    one and then the other leaves exactly one entry under that name, the
    entry of the operation registered last; no name of the registry occurs
    twice. *)
Theorem C1_later_registration_wins (schemas : gmap string Index.OpenAPISchemaObject)
    (baseUrl organizationId : string)
    (path1 method1 : string) (operation1 : Index.Operation)
    (path2 method2 : string) (operation2 : Index.Operation)
    (registry registry1 registry2 : gmap string Index.ToolDefinition) :
  Index.toolName path1 method1 operation1 = Index.toolName path2 method2 operation2 ->
  Index.createToolFromEndpoint schemas path1 method1 operation1 baseUrl organizationId registry
    = Returned registry1 ->
  Index.createToolFromEndpoint schemas path2 method2 operation2 baseUrl organizationId registry1
    = Returned registry2 ->
  let name := Index.toolName path1 method1 operation1 in
  (exists paramSchema2,
      Index.paramSchemaOf operation2 schemas = Returned paramSchema2
      /\ registry2 !! name
         = Some {| Index.inputSchema := paramSchema2;
                   Index.invoker := Index.Endpoint path2 method2 operation2
                                      baseUrl organizationId |})
  /\ length (List.filter (fun e => String.eqb (fst e) name) (map_to_list registry2)) = 1
  /\ NoDup (map_to_list registry2).*1
  /\ dom registry2 = dom registry1.
Proof.
  intros Hname Hfirst Hsecond name.
  apply createTool_registers in Hfirst as (paramSchema1 & _ & ->).
  apply createTool_registers in Hsecond as (paramSchema2 & Hschema2 & ->).
  rewrite <- Hname. fold name.
  assert (Hlookup : forall t1 t2 : Index.ToolDefinition,
             <[name := t2]> (<[name := t1]> registry) !! name = Some t2)
    by (intros; apply lookup_insert_eq).
  split; [|split; [|split]].
  - exists paramSchema2. split; [exact Hschema2 | apply Hlookup].
  - eapply one_entry_per_key; [apply NoDup_fst_map_to_list|].
    apply list_elem_of_In, elem_of_map_to_list, Hlookup.
  - apply NoDup_fst_map_to_list.
  - rewrite !dom_insert_L, (assoc_L (∪)). now rewrite union_idemp_L.
Qed.

Lemma C1_later_registration_wins_witness :
  let again : Index.Operation :=
    {| Index.operationId := Some "getItem"; Index.parameters := None;
       Index.requestBody := None; Index.responses := None |} in
  exists registry1 registry2,
    Index.createToolFromEndpoint Sample.components "/items/{id}" "get" Sample.getItem
      Index.baseUrl Index.organizationId ∅ = Returned registry1
    /\ Index.createToolFromEndpoint Sample.components "/v2/items" "post" again
         Index.baseUrl Index.organizationId registry1 = Returned registry2
    /\ Index.invoker <$> registry2 !! "getItem"
       = Some (Index.Endpoint "/v2/items" "post" again Index.baseUrl Index.organizationId)
    /\ length (List.filter (fun e => String.eqb (fst e) "getItem") (map_to_list registry2)) = 1.
Proof.
  intros again. eexists. eexists.
  split; [reflexivity|]. split; [reflexivity|].
  destruct (C1_later_registration_wins Sample.components Index.baseUrl Index.organizationId
              "/items/{id}" "get" Sample.getItem "/v2/items" "post" again
              ∅ _ _ eq_refl eq_refl eq_refl) as ((ps & Hps & Hlookup) & Hone & _ & _).
  split; [|exact Hone].
  exact (f_equal (fmap Index.invoker) Hlookup).
Defined.

(** ** The registry after [init] *)

Lemma ofold_app {A B} (f : B -> A -> outcome B) (l1 l2 : list A) (acc : B) :
  ofold f (l1 ++ l2) acc = ofold f l1 acc ≫= ofold f l2.
Proof.
  revert acc; induction l1 as [|a l1 IH]; intros acc; [reflexivity|].
  simpl. destruct (f acc a) as [acc'|e]; simpl; [apply IH | reflexivity].
Qed.

(** The two nested loops of [init] are one loop over the endpoints. *)
Lemma registerEndpoints_flat (doc : Index.Document) (registry : gmap string Index.ToolDefinition) :
  Index.registerEndpoints doc registry
  = ofold (fun registry '(path, method, operation) =>
             Index.createToolFromEndpoint (Index.schemas doc) path method operation
               Index.baseUrl Index.organizationId registry)
          (Spec.endpointsOf doc) registry.
Proof.
  unfold Index.registerEndpoints, Spec.endpointsOf.
  generalize (Index.paths doc) as items. intros items.
  revert registry; induction items as [|[path pathItem] items IH]; intros registry;
    [reflexivity|].
  cbn [ofold flat_map]. rewrite ofold_app.
  assert (Hinner : forall registry,
             ofold (fun registry '(method, operation) =>
                      if Index.isHttpMethod method
                      then Index.createToolFromEndpoint (Index.schemas doc) path method operation
                             Index.baseUrl Index.organizationId registry
                      else Returned registry) pathItem registry
             = ofold (fun registry '(path, method, operation) =>
                        Index.createToolFromEndpoint (Index.schemas doc) path method operation
                          Index.baseUrl Index.organizationId registry)
                     (flat_map (fun '(method, operation) =>
                                  if Index.isHttpMethod method
                                  then [(path, method, operation)] else []) pathItem)
                     registry).
  { clear. induction pathItem as [|[method operation] pathItem IHp]; intros registry;
      [reflexivity|].
    cbn [ofold flat_map]. destruct (Index.isHttpMethod method); simpl.
    - destruct (Index.createToolFromEndpoint _ _ _ _ _ _ _) as [registry'|e]; simpl;
        [apply IHp | reflexivity].
    - apply IHp. }
  rewrite Hinner.
  destruct (ofold _ (flat_map _ pathItem) registry) as [registry'|e]; simpl;
    [apply IH | reflexivity].
Qed.

(** After the loop, a name is bound to the last endpoint that derives it,
    and to what it was bound before when no endpoint derives it. *)
Lemma registered_last (schemas : gmap string Index.OpenAPISchemaObject)
    (endpoints : list (string * string * Index.Operation)) (name : string) :
  forall registry registry' : gmap string Index.ToolDefinition,
    ofold (fun registry '(path, method, operation) =>
             Index.createToolFromEndpoint schemas path method operation
               Index.baseUrl Index.organizationId registry) endpoints registry
      = Returned registry' ->
    match Spec.lastNamed name endpoints with
    | Some (path, method, operation) =>
        exists paramSchema,
          Index.paramSchemaOf operation schemas = Returned paramSchema
          /\ registry' !! name
             = Some {| Index.inputSchema := paramSchema;
                       Index.invoker := Index.Endpoint path method operation
                                          Index.baseUrl Index.organizationId |}
    | None => registry' !! name = registry !! name
    end.
Proof.
  induction endpoints as [|[[path method] operation] rest IH]; intros registry registry'.
  - simpl. now intros [= ->].
  - cbn [ofold Spec.lastNamed].
    destruct (Index.createToolFromEndpoint _ _ _ _ _ _ registry) as [registry1|e] eqn:Hone;
      [|discriminate].
    simpl. intros Hrest. specialize (IH _ _ Hrest).
    destruct (Spec.lastNamed name rest) as [[[p m] o]|]; [exact IH|].
    apply createTool_registers in Hone as (paramSchema & Hschema & ->).
    destruct (String.eqb_spec (Index.toolName path method operation) name) as [<-|Hne].
    + exists paramSchema. split; [exact Hschema|]. rewrite IH. apply lookup_insert_eq.
    + rewrite IH. now apply lookup_insert_ne.
Qed.

(** The registry that [init] builds: [calculate] is the calculator, and
    every other name belongs to the last endpoint of the document that
    derives it. *)
Lemma init_registry (doc : Index.Document) (registry : gmap string Index.ToolDefinition) :
  Index.init doc = Returned registry ->
  registry !! "calculate"
    = Some {| Index.inputSchema := Index.calculatorSchema; Index.invoker := Index.Calculator |}
  /\ forall name, name <> "calculate" ->
       match Spec.lastNamed name (Spec.endpointsOf doc) with
       | Some (path, method, operation) =>
           exists paramSchema,
             Index.paramSchemaOf operation (Index.schemas doc) = Returned paramSchema
             /\ registry !! name
                = Some {| Index.inputSchema := paramSchema;
                          Index.invoker := Index.Endpoint path method operation
                                             Index.baseUrl Index.organizationId |}
       | None => registry !! name = None
       end.
Proof.
  unfold Index.init. rewrite registerEndpoints_flat.
  destruct (ofold _ (Spec.endpointsOf doc) ∅) as [registry0|e] eqn:Hloop; [|discriminate].
  simpl. intros [= <-]. unfold Index.register. split; [apply lookup_insert_eq|].
  intros name Hname.
  pose proof (registered_last _ _ name _ _ Hloop) as Hlast.
  destruct (Spec.lastNamed name (Spec.endpointsOf doc)) as [[[p m] o]|].
  - destruct Hlast as (paramSchema & Hschema & Hlookup).
    exists paramSchema. split; [exact Hschema|].
    rewrite lookup_insert_ne by congruence. exact Hlookup.
  - rewrite lookup_insert_ne by congruence. rewrite Hlast. apply lookup_empty.
Qed.

(** ** The handler *)

Section HandlerFacts.
Context `{Host}.

Lemma bind_run {A B} (m : M A) (k : A -> M B) (w : World) :
  (m ≫= k) w = match m w with
               | (Returned a, w') => k a w'
               | (Thrown e, w') => (Thrown e, w')
               end.
Proof. reflexivity. Qed.

(** The [try] block from the validation on, case by case. *)
Lemma callEndpoint_run (path method : string) (operation : Index.Operation)
    (baseUrl organizationId : string) (paramSchema : object schema)
    (processedParams : object value) (w : World) :
  Index.callEndpoint path method operation baseUrl organizationId paramSchema processedParams w
  = match parse paramSchema processedParams with
    | Thrown e => (Thrown e, w)
    | Returned validatedParams =>
        match Index.headersOf operation organizationId
                (Index.finalPathOf path validatedParams) with
        | Thrown e => (Thrown e, w)
        | Returned headers =>
            let req := Index.requestOf path method operation baseUrl headers validatedParams in
            match respond (length (sent w)) req with
            | Rejected msg => (Thrown {| message := msg |}, afterRequest w req)
            | Response status body =>
                if ok status
                then (Returned {| Index.text := Index.responseText body |}, afterRequest w req)
                else (Thrown {| message := Index.statusMessage status body |}, afterRequest w req)
            end
        end
    end.
Proof.
  unfold Index.callEndpoint. rewrite bind_run. unfold lift at 1.
  destruct (parse paramSchema processedParams) as [validatedParams|e]; [|reflexivity].
  rewrite bind_run. unfold lift at 1.
  destruct (Index.headersOf _ _ _) as [headers|e]; [|reflexivity].
  rewrite bind_run. unfold fetchText at 1. cbv zeta.
  destruct (respond _ _) as [msg|status body]; [reflexivity|].
  unfold afterRequest. now destruct (ok status).
Qed.

(** The loop over the entries never throws and sends nothing. *)
Lemma substituteEntry_returns (processedParams : object value) (entry : string * value)
    (w : World) :
  exists processed' w',
    Index.substituteEntry processedParams entry w = (Returned processed', w')
    /\ sent w' = sent w.
Proof.
  destruct entry as [key value]. unfold Index.substituteEntry.
  destruct value; try (eexists; eexists; split; reflexivity).
  destruct (String.eqb s Index.sentinelGuid); [eexists; eexists; split; reflexivity|].
  destruct (String.eqb s Index.sentinelDatetime); eexists; eexists; split; reflexivity.
Qed.

Lemma substituteLoop_returns (entries : list (string * value)) (processedParams : object value)
    (w : World) :
  exists processed' w',
    Index.mfold Index.substituteEntry entries processedParams w = (Returned processed', w')
    /\ sent w' = sent w.
Proof.
  revert processedParams w; induction entries as [|entry entries IH]; intros processedParams w.
  - exists processedParams, w. now split.
  - destruct (substituteEntry_returns processedParams entry w) as (p1 & w1 & Hstep & Hsent1).
    destruct (IH p1 w1) as (p2 & w2 & Hrest & Hsent2).
    exists p2, w2. split; [|congruence].
    simpl. rewrite bind_run, Hstep. exact Hrest.
Qed.

Lemma substitutePlaceholders_returns (params : object value) (w : World) :
  exists processedParams w',
    Index.substitutePlaceholders params w = (Returned processedParams, w')
    /\ sent w' = sent w.
Proof. apply substituteLoop_returns. Qed.

(** The handler, once the placeholders are substituted. *)
Lemma handler_run (path method : string) (operation : Index.Operation)
    (baseUrl organizationId : string) (paramSchema : object schema)
    (params processedParams : object value) (w w1 : World) :
  Index.substitutePlaceholders params w = (Returned processedParams, w1) ->
  Index.handler path method operation baseUrl organizationId paramSchema params w
  = match Index.callEndpoint path method operation baseUrl organizationId paramSchema
            processedParams w1 with
    | (Returned result, w') => (Returned result, w')
    | (Thrown error, w') =>
        (Returned {| Index.text := Index.errorText path method operation (message error) |}, w')
    end.
Proof.
  intros Hsub. unfold Index.handler, tryCatch, Index.attempt.
  rewrite bind_run, Hsub. reflexivity.
Qed.

End HandlerFacts.

(** Two answers to the same request are the same answer. *)
Ltac answered Hknown Hother :=
  rewrite Hknown in Hother;
  first [ discriminate
        | injection Hother as <-; reflexivity
        | injection Hother as <- <-; intros; congruence ].

Lemma sent_grows_not (l : list Request) (req : Request) : l <> l ++ [req].
Proof.
  intros Heq. apply (f_equal (@length Request)) in Heq.
  rewrite length_app in Heq. simpl in Heq. lia.
Qed.

(** C3: every invocation returns a text result and throws nothing.  When
    the validation fails, when the HTTP call fails and when the response
    status is not 2xx, the text is [Error in <tool name>: <message>]; a
    result that is not of that form comes from a 2xx response. *)
Theorem C3_failures_become_text `{Host} (path method : string)
    (operation : Index.Operation) (baseUrl organizationId : string)
    (paramSchema : object schema) (params : object value) (w : World) :
  exists result w',
    Index.handler path method operation baseUrl organizationId paramSchema params w
      = (Returned result, w')
    /\ (forall processedParams w1 e,
          Index.substitutePlaceholders params w = (Returned processedParams, w1) ->
          parse paramSchema processedParams = Thrown e ->
          Index.text result = "Error in " +:+ Index.toolName path method operation +:+ ": "
                              +:+ message e
          /\ sent w' = sent w)
    /\ (forall req msg,
          sent w' = sent w ++ [req] -> respond (length (sent w)) req = Rejected msg ->
          Index.text result = "Error in " +:+ Index.toolName path method operation +:+ ": "
                              +:+ msg)
    /\ (forall req status body,
          sent w' = sent w ++ [req] ->
          respond (length (sent w)) req = Response status body ->
          ok status = false ->
          Index.text result = "Error in " +:+ Index.toolName path method operation +:+ ": "
                              +:+ match body with
                                  | EmptyString => "HTTP error " +:+ decimal status
                                  | _ => body
                                  end)
    /\ ((exists msg, Index.text result
                     = "Error in " +:+ Index.toolName path method operation +:+ ": " +:+ msg)
        \/ (exists req status body,
               sent w' = sent w ++ [req]
               /\ respond (length (sent w)) req = Response status body
               /\ ok status = true
               /\ Index.text result = Index.responseText body)).
Proof.
  destruct (substitutePlaceholders_returns params w) as (processed & w1 & Hsub & Hsent1).
  rewrite (handler_run _ _ _ _ _ _ _ _ _ _ Hsub), callEndpoint_run.
  fold (Index.errorText path method operation).
  destruct (parse paramSchema processed) as [validated|e] eqn:Hparse.
  2:{ eexists; eexists; split; [reflexivity|]. simpl. rewrite Hsent1.
      split; [|split; [|split; [|left; eauto]]].
      - intros p' w1' e' Hsub' Hparse'. rewrite Hsub in Hsub'. injection Hsub' as <- <-.
        rewrite Hparse in Hparse'. injection Hparse' as <-. now split.
      - intros req msg Hgrow. now apply sent_grows_not in Hgrow.
      - intros req status body Hgrow. now apply sent_grows_not in Hgrow. }
  destruct (Index.headersOf _ _ _) as [headers|e] eqn:Hheaders.
  2:{ eexists; eexists; split; [reflexivity|]. simpl. rewrite Hsent1.
      split; [|split; [|split; [|left; eauto]]].
      - intros p' w1' e' Hsub' Hparse'. rewrite Hsub in Hsub'. injection Hsub' as <- <-.
        rewrite Hparse in Hparse'. discriminate.
      - intros req msg Hgrow. now apply sent_grows_not in Hgrow.
      - intros req status body Hgrow. now apply sent_grows_not in Hgrow. }
  cbv zeta. rewrite Hsent1.
  set (req0 := Index.requestOf path method operation baseUrl headers validated).
  assert (Hsame : forall req, sent w1 ++ [req0] = sent w ++ [req] -> req = req0).
  { intros req Heq. rewrite Hsent1 in Heq. now apply app_inj_tail in Heq as [_ ->]. }
  destruct (respond (length (sent w)) req0) as [msg|status body] eqn:Hrespond.
  - eexists; eexists; split; [reflexivity|]. simpl.
    split; [|split; [|split; [|left; eauto]]].
    + intros p' w1' e' Hsub' Hparse'. rewrite Hsub in Hsub'. injection Hsub' as <- <-.
      rewrite Hparse in Hparse'. discriminate.
    + intros req msg' Hgrow Hrej. apply Hsame in Hgrow. subst req.
      answered Hrespond Hrej.
    + intros req status body Hgrow Hresp. apply Hsame in Hgrow. subst req.
      answered Hrespond Hresp.
  - destruct (ok status) eqn:Hok.
    + eexists; eexists; split; [reflexivity|]. simpl.
      split; [|split; [|split]].
      * intros p' w1' e' Hsub' Hparse'. rewrite Hsub in Hsub'. injection Hsub' as <- <-.
        rewrite Hparse in Hparse'. discriminate.
      * intros req msg' Hgrow Hrej. apply Hsame in Hgrow. subst req.
      answered Hrespond Hrej.
      * intros req status' body' Hgrow Hresp. apply Hsame in Hgrow. subst req.
      answered Hrespond Hresp.
      * right. exists req0, status, body. rewrite Hsent1. now repeat split.
    + eexists; eexists; split; [reflexivity|]. simpl.
      split; [|split; [|split; [|left; eauto]]].
      * intros p' w1' e' Hsub' Hparse'. rewrite Hsub in Hsub'. injection Hsub' as <- <-.
        rewrite Hparse in Hparse'. discriminate.
      * intros req msg' Hgrow Hrej. apply Hsame in Hgrow. subst req.
      answered Hrespond Hrej.
      * intros req status' body' Hgrow Hresp _. apply Hsame in Hgrow. subst req.
        rewrite Hrespond in Hresp. injection Hresp as <- <-. reflexivity.
Qed.

Example handler_on_404 :
  fst (Index.handler (H := Sample.host) "/missing/{id}" "get" Sample.getItem
         Index.baseUrl Index.organizationId [("id", ZString [])] [("id", VStr "a b")]
         Sample.world0)
  = Returned {| Index.text := "Error in getItem: HTTP error 404" |}.
Proof. reflexivity. Qed.

Example handler_on_500 :
  fst (Index.handler (H := Sample.host) "/broken/{id}" "get" Sample.getItem
         Index.baseUrl Index.organizationId [("id", ZString [])] [("id", VStr "7")]
         Sample.world0)
  = Returned {| Index.text := "Error in getItem: upstream exploded" |}.
Proof. reflexivity. Qed.

Example handler_on_bad_argument :
  Index.handler (H := Sample.host) "/items/{id}" "get" Sample.getItem
    Index.baseUrl Index.organizationId [("id", ZString [])] [("id", VNum (Sample.int "4"))] Sample.world0
  = (Returned {| Index.text := "Error in getItem: Invalid input: id" |}, Sample.world0).
Proof. reflexivity. Qed.

(** C10: when the declared responses of an operation have no ["200"]
    entry, every invocation of its tool ends in the error text and sends no
    request; once the arguments are valid, the error is the TypeError of
    reading [content] of the missing entry. *)
Theorem C10_no_200_response_no_request `{Host} (path method : string)
    (operation : Index.Operation) (declared : object Index.ResponseObject)
    (baseUrl organizationId : string)
    (paramSchema : object schema) (params : object value) (w : World) :
  Index.responses operation = Some declared ->
  obj_get "200" declared = None ->
  exists msg w',
    Index.handler path method operation baseUrl organizationId paramSchema params w
      = (Returned {| Index.text := "Error in " +:+ Index.toolName path method operation
                                   +:+ ": " +:+ msg |}, w')
    /\ sent w' = sent w
    /\ (forall processedParams w1 validatedParams,
          Index.substitutePlaceholders params w = (Returned processedParams, w1) ->
          parse paramSchema processedParams = Returned validatedParams ->
          msg = "Cannot read properties of undefined (reading 'content')").
Proof.
  intros Hresponses Hno200.
  destruct (substitutePlaceholders_returns params w) as (processed & w1 & Hsub & Hsent1).
  rewrite (handler_run _ _ _ _ _ _ _ _ _ _ Hsub), callEndpoint_run.
  destruct (parse paramSchema processed) as [validated|e] eqn:Hparse.
  - unfold Index.headersOf. rewrite Hresponses, Hno200.
    eexists; eexists; split; [reflexivity|]. split; [exact Hsent1|].
    intros p' w1' v' Hsub' _. reflexivity.
  - eexists; eexists; split; [reflexivity|]. split; [exact Hsent1|].
    intros p' w1' v' Hsub' Hparse'. rewrite Hsub in Hsub'. injection Hsub' as <- <-.
    rewrite Hparse in Hparse'. discriminate.
Qed.

Lemma C10_no_200_response_no_request_witness :
  exists msg w',
    Index.handler (H := Sample.host) "/items/{id}" "delete" Sample.deleteItem
      Index.baseUrl Index.organizationId [("id", ZString [])] [("id", VStr "4")] Sample.world0
    = (Returned {| Index.text := "Error in deleteItem: " +:+ msg |}, w')
    /\ sent w' = [].
Proof.
  destruct (C10_no_200_response_no_request (H := Sample.host) "/items/{id}" "delete"
              Sample.deleteItem [("204", {| Index.jsonContent := false |})]
              Index.baseUrl Index.organizationId [("id", ZString [])] [("id", VStr "4")]
              Sample.world0 eq_refl eq_refl) as (msg & w' & Hrun & Hsent & _).
  exists msg, w'. split; [exact Hrun | exact Hsent].
Defined.

Example handler_without_200 :
  Index.handler (H := Sample.host) "/items/{id}" "delete" Sample.deleteItem
    Index.baseUrl Index.organizationId [("id", ZString [])] [("id", VStr "4")] Sample.world0
  = (Returned {| Index.text :=
        "Error in deleteItem: Cannot read properties of undefined (reading 'content')" |},
     Sample.world0).
Proof. reflexivity. Qed.

(** ** Placeholders *)

Lemma draws_differ (k1 k2 : string) (entries : object value) :
  k1 <> k2 ->
  obj_get k1 entries = Some (VStr Index.sentinelGuid) ->
  obj_get k2 entries = Some (VStr Index.sentinelGuid) ->
  Spec.drawsBefore k1 entries <> Spec.drawsBefore k2 entries.
Proof.
  intros Hne. induction entries as [|[k0 v0] entries IH]; simpl; [discriminate|].
  destruct (String.eqb_spec k1 k0) as [->|H1], (String.eqb_spec k2 k0) as [->|H2];
    try congruence.
  - intros [= ->] _. simpl. lia.
  - intros _ [= ->]. simpl. lia.
  - intros G1 G2. specialize (IH G1 G2). lia.
Qed.

Lemma mfold_cons {A B} (f : B -> A -> M B) (x : A) (l : list A) (acc : B) (w : World) :
  Index.mfold f (x :: l) acc w
  = match f acc x w with
    | (Returned acc', w') => Index.mfold f l acc' w'
    | (Thrown e, w') => (Thrown e, w')
    end.
Proof. reflexivity. Qed.

Section Placeholders.
Context `{Host}.

(** What the loop over the entries leaves in [processedParams]. *)
Lemma substituteLoop_spec (entries : list (string * value)) :
  NoDup (keys entries) ->
  forall (processedParams : object value) (w : World),
    (forall k, In k (keys entries) -> In k (keys processedParams)) ->
    exists processed' w',
      Index.mfold Index.substituteEntry entries processedParams w = (Returned processed', w')
      /\ keys processed' = keys processedParams
      /\ sent w' = sent w /\ drawn w <= drawn w' /\ clockReads w <= clockReads w'
      /\ (forall k, ~ In k (keys entries) -> obj_get k processed' = obj_get k processedParams)
      /\ (forall k, obj_get k entries = Some (VStr Index.sentinelGuid) ->
            drawn w + Spec.drawsBefore k entries < drawn w'
            /\ obj_get k processed'
               = Some (VStr (randomUUID_at (drawn w + Spec.drawsBefore k entries))))
      /\ (forall k, obj_get k entries = Some (VStr Index.sentinelDatetime) ->
            clockReads w + Spec.readsBefore k entries < clockReads w'
            /\ obj_get k processed'
               = Some (VStr (toISOString_at (clockReads w + Spec.readsBefore k entries))))
      /\ (forall k v, obj_get k entries = Some v -> Spec.isPlaceholder v = false ->
            obj_get k processed' = obj_get k processedParams).
Proof.
  induction entries as [|[k0 v0] entries IH]; intros Hnd processedParams w Hkeys.
  - exists processedParams, w. simpl. repeat split; try lia; try discriminate; auto.
  - apply NoDup_cons in Hnd as [Hfresh Hnd]. rewrite list_elem_of_In in Hfresh.
    assert (Hk0 : In k0 (keys processedParams)) by (apply Hkeys; now left).
    assert (Hstep : exists p1 w1,
               Index.substituteEntry processedParams (k0, v0) w = (Returned p1, w1)
               /\ keys p1 = keys processedParams /\ sent w1 = sent w
               /\ (forall k, k <> k0 -> obj_get k p1 = obj_get k processedParams)
               /\ match v0 with
                  | VStr s =>
                      if String.eqb s Index.sentinelGuid then
                        drawn w1 = S (drawn w) /\ clockReads w1 = clockReads w
                        /\ obj_get k0 p1 = Some (VStr (randomUUID_at (drawn w)))
                      else if String.eqb s Index.sentinelDatetime then
                        drawn w1 = drawn w /\ clockReads w1 = S (clockReads w)
                        /\ obj_get k0 p1 = Some (VStr (toISOString_at (clockReads w)))
                      else w1 = w /\ p1 = processedParams
                  | _ => w1 = w /\ p1 = processedParams
                  end).
    { unfold Index.substituteEntry.
      destruct v0; try (exists processedParams, w; repeat split; reflexivity).
      destruct (String.eqb s Index.sentinelGuid);
        [|destruct (String.eqb s Index.sentinelDatetime)].
      - eexists; eexists; split; [reflexivity|]. simpl.
        rewrite keys_set_present by assumption. repeat split.
        + intros k Hk. rewrite obj_get_set. now apply String.eqb_neq in Hk as ->.
        + rewrite obj_get_set. now rewrite String.eqb_refl.
      - eexists; eexists; split; [reflexivity|]. simpl.
        rewrite keys_set_present by assumption. repeat split.
        + intros k Hk. rewrite obj_get_set. now apply String.eqb_neq in Hk as ->.
        + rewrite obj_get_set. now rewrite String.eqb_refl.
      - exists processedParams, w. repeat split; reflexivity. }
    destruct Hstep as (p1 & w1 & Hrun1 & Hkeys1 & Hsent1 & Hother1 & Hhead).
    destruct (IH Hnd p1 w1) as
      (p2 & w2 & Hrun2 & Hkeys2 & Hsent2 & Hdrawn2 & Hclock2 & Hrest & Hguid & Hdate & Hplain).
    { intros k Hk. rewrite Hkeys1. apply Hkeys. now right. }
    assert (Hmono : drawn w <= drawn w1 /\ clockReads w <= clockReads w1).
    { destruct v0; try (destruct Hhead as [-> _]; lia).
      destruct (String.eqb s Index.sentinelGuid);
        [|destruct (String.eqb s Index.sentinelDatetime)];
        destruct Hhead as (? & ?); subst; lia. }
    exists p2, w2.
    split; [rewrite mfold_cons, Hrun1; exact Hrun2|].
    split; [congruence|]. split; [congruence|]. split; [lia|]. split; [lia|].
    split; [|split; [|split]].
    + intros k Hk. simpl in Hk. rewrite Hrest by tauto. apply Hother1. intros ->. tauto.
    + intros k. simpl. destruct (String.eqb_spec k k0) as [->|Hne].
      * intros [= ->]. simpl in Hhead. destruct Hhead as (Hd & _ & Hget).
        rewrite Nat.add_0_r, Hrest by assumption. split; [lia | exact Hget].
      * intros Hget. destruct (Hguid k Hget) as [Hlt Hval].
        assert (Hd : drawn w1 = drawn w
                     + match v0 with
                       | VStr s => if String.eqb s Index.sentinelGuid then 1 else 0
                       | _ => 0
                       end).
        { destruct v0; try (destruct Hhead as [-> _]; lia).
          destruct (String.eqb s Index.sentinelGuid);
            [|destruct (String.eqb s Index.sentinelDatetime)];
            destruct Hhead as (? & ?); subst; lia. }
        rewrite Hd in Hlt, Hval. rewrite Nat.add_assoc. now split.
    + intros k. simpl. destruct (String.eqb_spec k k0) as [->|Hne].
      * intros [= ->]. simpl in Hhead. destruct Hhead as (_ & Hc & Hget).
        rewrite Nat.add_0_r, Hrest by assumption. split; [lia | exact Hget].
      * intros Hget. destruct (Hdate k Hget) as [Hlt Hval].
        assert (Hc : clockReads w1 = clockReads w
                     + match v0 with
                       | VStr s => if String.eqb s Index.sentinelGuid then 0
                                   else if String.eqb s Index.sentinelDatetime then 1 else 0
                       | _ => 0
                       end).
        { destruct v0; try (destruct Hhead as [-> _]; lia).
          destruct (String.eqb s Index.sentinelGuid);
            [|destruct (String.eqb s Index.sentinelDatetime)];
            destruct Hhead as (? & ?); subst; lia. }
        rewrite Hc in Hlt, Hval. rewrite Nat.add_assoc. now split.
    + intros k v. simpl. destruct (String.eqb_spec k k0) as [->|Hne].
      * intros [= ->] Hv. rewrite Hrest by assumption.
        unfold Spec.isPlaceholder in Hv. destruct v; try (now destruct Hhead as [_ ->]).
        apply Bool.orb_false_elim in Hv as [Hg Hd]. rewrite Hg, Hd in Hhead.
        now destruct Hhead as [_ ->].
      * intros Hget Hv. rewrite (Hplain k v Hget Hv). now apply Hother1.
Qed.

End Placeholders.

Lemma isPlaceholder_false (v : value) :
  v <> VStr Index.sentinelGuid -> v <> VStr Index.sentinelDatetime ->
  Spec.isPlaceholder v = false.
Proof.
  intros Hg Hd. destruct v; try reflexivity. simpl.
  apply Bool.orb_false_intro; apply String.eqb_neq; congruence.
Qed.

(** C6: the handler first replaces, among the arguments, every string
    equal to the GUID sentinel by an identifier newly drawn from
    [crypto.randomUUID] and every string equal to the datetime sentinel by
    the [toISOString] of a reading of the clock taken during the
    invocation, leaves every other value as it is, and only then validates
    the result.  No draw is used twice: as long as the generator does not
    repeat itself, two sentinel arguments get different identifiers, within
    one invocation and across two invocations; the identifiers are valid
    whenever those of the generator are. *)
Theorem C6_placeholders_resolved `{Host} (params : object value) (w : World) :
  NoDup (keys params) ->
  exists processedParams w',
    Index.substitutePlaceholders params w = (Returned processedParams, w')
    /\ (forall path method operation baseUrl organizationId paramSchema,
          Index.handler path method operation baseUrl organizationId paramSchema params w
          = tryCatch
              (Index.callEndpoint path method operation baseUrl organizationId paramSchema
                 processedParams)
              (fun error =>
                 mret {| Index.text := Index.errorText path method operation (message error) |})
              w')
    /\ keys processedParams = keys params
    /\ (forall k, obj_get k params = Some (VStr "{{$guid}}") ->
          exists i, drawn w <= i < drawn w'
                    /\ obj_get k processedParams = Some (VStr (randomUUID_at i))
                    /\ (Spec.validBelow (drawn w') -> zod_uuid (randomUUID_at i) = true))
    /\ (forall k1 k2, k1 <> k2 ->
          obj_get k1 params = Some (VStr "{{$guid}}") ->
          obj_get k2 params = Some (VStr "{{$guid}}") ->
          Spec.freshBelow (drawn w') ->
          obj_get k1 processedParams <> obj_get k2 processedParams)
    /\ (forall params2 w2 processedParams2 w2',
          NoDup (keys params2) -> drawn w' <= drawn w2 ->
          Index.substitutePlaceholders params2 w2 = (Returned processedParams2, w2') ->
          Spec.freshBelow (drawn w2') ->
          forall k1 k2,
            obj_get k1 params = Some (VStr "{{$guid}}") ->
            obj_get k2 params2 = Some (VStr "{{$guid}}") ->
            obj_get k1 processedParams <> obj_get k2 processedParams2)
    /\ (forall k, obj_get k params = Some (VStr "{{$datetime iso8601}}") ->
          exists j, clockReads w <= j < clockReads w'
                    /\ obj_get k processedParams = Some (VStr (toISOString_at j)))
    /\ (forall k v, obj_get k params = Some v ->
          v <> VStr "{{$guid}}" -> v <> VStr "{{$datetime iso8601}}" ->
          obj_get k processedParams = Some v).
Proof.
  intros Hnd.
  destruct (substituteLoop_spec params Hnd params w (fun k Hk => Hk)) as
    (P & w' & Hrun & Hkeys & Hsent & Hdrawn & Hclock & _ & Hguid & Hdate & Hplain).
  exists P, w'. split; [exact Hrun|].
  split; [|split; [exact Hkeys|split; [|split; [|split; [|split]]]]].
  - intros. unfold Index.handler, Index.attempt, tryCatch.
    rewrite bind_run. unfold Index.substitutePlaceholders. now rewrite Hrun.
  - intros k Hk. destruct (Hguid k Hk) as [Hlt Hval].
    exists (drawn w + Spec.drawsBefore k params).
    split; [lia|]. split; [exact Hval|]. intros Hvalid. now apply Hvalid.
  - intros k1 k2 Hne Hk1 Hk2 Hfresh.
    destruct (Hguid k1 Hk1) as [Hlt1 ->], (Hguid k2 Hk2) as [Hlt2 ->].
    pose proof (draws_differ k1 k2 params Hne Hk1 Hk2) as Hdiff.
    intros [= Heq]. revert Heq.
    destruct (Nat.lt_total (Spec.drawsBefore k1 params) (Spec.drawsBefore k2 params))
      as [Hlt|[Heq|Hgt]]; [|congruence|].
    + apply Hfresh; lia.
    + intros Heq. symmetry in Heq. revert Heq. apply Hfresh; lia.
  - intros params2 w2 P2 w2' Hnd2 Hlater Hrun2 Hfresh k1 k2 Hk1 Hk2.
    destruct (substituteLoop_spec params2 Hnd2 params2 w2 (fun k Hk => Hk)) as
      (P2' & w2'' & Hrun2' & _ & _ & _ & _ & _ & Hguid2 & _).
    unfold Index.substitutePlaceholders in Hrun2. rewrite Hrun2 in Hrun2'.
    injection Hrun2' as <- <-.
    destruct (Hguid k1 Hk1) as [Hlt1 ->], (Hguid2 k2 Hk2) as [Hlt2 ->].
    intros [= Heq]. revert Heq. apply Hfresh; lia.
  - intros k Hk. destruct (Hdate k Hk) as [Hlt Hval].
    exists (clockReads w + Spec.readsBefore k params). split; [lia | exact Hval].
  - intros k v Hk Hg Hd. rewrite (Hplain k v Hk); [exact Hk|].
    now apply isPlaceholder_false.
Qed.

Lemma C6_placeholders_resolved_witness :
  let params := [("id", VStr "{{$guid}}"); ("placed", VStr "{{$datetime iso8601}}");
                 ("note", VStr "{{guid}}")] in
  exists processedParams w' i j,
    Index.substitutePlaceholders (H := Sample.host) params Sample.world0
      = (Returned processedParams, w')
    /\ obj_get "id" processedParams = Some (VStr (randomUUID_at (Host := Sample.host) i))
    /\ obj_get "placed" processedParams = Some (VStr (toISOString_at (Host := Sample.host) j))
    /\ obj_get "note" processedParams = Some (VStr "{{guid}}").
Proof.
  intros params.
  assert (Hnd : NoDup (keys params)).
  { apply (bool_decide_unpack _). vm_compute. exact I. }
  destruct (C6_placeholders_resolved (H := Sample.host) params Sample.world0 Hnd)
    as (P & w' & Hrun & _ & _ & Hguid & _ & _ & Hdate & Hplain).
  destruct (Hguid "id" eq_refl) as (i & _ & Hi & _).
  destruct (Hdate "placed" eq_refl) as (j & _ & Hj).
  exists P, w', i, j. split; [exact Hrun|]. split; [exact Hi|]. split; [exact Hj|].
  apply Hplain; [reflexivity | discriminate | discriminate].
Defined.

Example placeholders_sample :
  fst (Index.substitutePlaceholders (H := Sample.host)
         [("id", VStr "{{$guid}}"); ("n", VNum (Sample.int "3")); ("other", VStr "{{$guid}}");
          ("placed", VStr "{{$datetime iso8601}}")]
         Sample.world0)
  = Returned [("id", VStr "00000000-0000-4000-8000-000000000000"); ("n", VNum (Sample.int "3"));
              ("other", VStr "00000000-0000-4000-8000-000000000001");
              ("placed", VStr "2025-01-01T00:00:00.000Z")].
Proof. reflexivity. Qed.

(** ** Query parameters *)

Lemma fold_left_filter_skip {A B} (f : B -> A -> B) (keep : A -> bool) (l : list A) (acc : B) :
  (forall b a, keep a = false -> f b a = b) ->
  fold_left f (List.filter keep l) acc = fold_left f l acc.
Proof.
  intros Hskip. revert acc; induction l as [|a l IH]; intros acc; simpl; [reflexivity|].
  destruct (keep a) eqn:Hk; simpl; [apply IH|]. rewrite Hskip by assumption. apply IH.
Qed.

Lemma not_query_location (l : Index.Location) :
  negb (Index.isLocation l Index.InQuery) = false ->
  Index.isLocation l Index.InPath = false /\ Index.isLocation l Index.InHeader = false.
Proof. destruct l; simpl; intros; try discriminate; now split. Qed.

Lemma pathParamSchema_without_query (operation : Index.Operation) :
  Index.pathParamSchema (Spec.withoutQueryParameters operation)
  = Index.pathParamSchema operation.
Proof.
  unfold Index.pathParamSchema, Index.parametersOf, Spec.withoutQueryParameters. simpl.
  destruct (Index.parameters operation) as [ps|]; simpl; [|reflexivity].
  apply fold_left_filter_skip. intros b a Ha.
  now apply not_query_location in Ha as [-> _].
Qed.

Lemma headersOf_without_query (operation : Index.Operation) (organizationId finalPath : string) :
  Index.headersOf (Spec.withoutQueryParameters operation) organizationId finalPath
  = Index.headersOf operation organizationId finalPath.
Proof.
  unfold Index.headersOf, Index.parametersOf, Spec.withoutQueryParameters. simpl.
  destruct (Index.responses operation) as [declared|]; [|reflexivity].
  destruct (obj_get "200" declared) as [success|]; [|reflexivity].
  destruct (Index.parameters operation) as [ps|]; simpl; [|reflexivity].
  rewrite fold_left_filter_skip; [reflexivity|]. intros b a Ha.
  now apply not_query_location in Ha as [_ ->].
Qed.

(** Validators come from parameters located in the path only. *)
Lemma pathParamSchema_keys (operation : Index.Operation) (k : string) :
  In k (keys (Index.pathParamSchema operation)) ->
  exists p, In p (Index.parametersOf operation)
            /\ Index.name p = k /\ Index.location p = Index.InPath.
Proof.
  unfold Index.pathParamSchema.
  assert (Hgen : forall ps acc,
             In k (keys (fold_left (fun paramSchema param =>
                                      if Index.isLocation (Index.location param) Index.InPath
                                      then obj_set (Index.name param)
                                             (Index.getZodSchemaForParameter param) paramSchema
                                      else paramSchema) ps acc)) ->
             In k (keys acc)
             \/ exists p, In p ps /\ Index.name p = k /\ Index.location p = Index.InPath).
  { induction ps as [|p ps IH]; intros acc; simpl; [tauto|].
    intros Hin. apply IH in Hin as [Hin|(p' & Hp' & Hname & Hloc)].
    - destruct (Index.location p) eqn:Hloc; simpl in Hin; try tauto.
      apply keys_set_inv in Hin as [->|Hin]; [|tauto].
      right. exists p. auto.
    - right. exists p'. auto. }
  intros Hin. apply Hgen in Hin as [[]|Hp]. exact Hp.
Qed.

(** A validator belongs to a parameter located in the path or to a
    property of the body schema. *)
Lemma paramSchemaOf_keys (operation : Index.Operation)
    (schemas : gmap string Index.OpenAPISchemaObject) (paramSchema : object schema)
    (k : string) :
  Index.paramSchemaOf operation schemas = Returned paramSchema ->
  In k (keys paramSchema) ->
  (exists p, In p (Index.parametersOf operation)
             /\ Index.name p = k /\ Index.location p = Index.InPath)
  \/ In k (Spec.bodyProperties operation schemas).
Proof.
  unfold Index.paramSchemaOf, Spec.bodyProperties.
  destruct (Index.requestBody operation ≫= _) as [ref|];
    [|intros [= <-] Hin; left; now apply pathParamSchema_keys].
  unfold getMember.
  destruct (schemas !! Index.schemaNameOf ref) as [referenced|];
    [|destruct (existsb _ prototypeNames);
      [intros [= <-] Hin; left; now apply pathParamSchema_keys | discriminate]].
  simpl. destruct (Index.objProperties referenced) as [properties|];
    [|intros [= <-] Hin; left; now apply pathParamSchema_keys].
  generalize (Index.pathParamSchema operation) (pathParamSchema_keys operation k).
  induction properties as [|[field prop] properties IH]; intros acc Hacc.
  - simpl. intros [= <-] Hin. left. now apply Hacc.
  - cbn [ofold].
    destruct (Index.resolveSchemaRef (Index.propRef prop) prop schemas) as [zodSchema|e];
      [|discriminate].
    simpl. intros Hrest Hin.
    destruct (String.eqb_spec k field) as [->|Hne]; [right; now left|].
    destruct (IH _ (fun Hk => match keys_set_inv _ _ _ _ Hk with
                              | or_introl Heq => False_ind _ (Hne Heq)
                              | or_intror Hk' => Hacc Hk'
                              end) Hrest Hin) as [Hp|Hb]; [now left | right; now right].
Qed.

Section Stripping.
Context `{Host}.

(** The parser reads the data at the keys of the shape only. *)
Lemma parseShape_agree (q : string) (shape : object schema) (data data' : object value) :
  ~ In q (keys shape) -> Spec.agreeOff q data data' ->
  parseShape shape data = parseShape shape data'.
Proof.
  intros Hq Hagree. induction shape as [|[k t] shape IH]; simpl; [reflexivity|].
  simpl in Hq. rewrite IH by tauto.
  rewrite (Hagree k) by (intros ->; tauto). reflexivity.
Qed.

Lemma parse_agree (q : string) (shape : object schema) (data data' : object value) :
  ~ In q (keys shape) -> Spec.agreeOff q data data' ->
  parse shape data = parse shape data'.
Proof. intros Hq Hagree. unfold parse. now rewrite (parseShape_agree q shape data data'). Qed.

(** What the parser returns has keys of the shape only. *)
Lemma parseShape_keys (shape : object schema) (data : object value) (k : string) :
  In k (keys (snd (parseShape shape data))) -> In k (keys shape).
Proof.
  induction shape as [|[k0 t] shape IH]; simpl; [tauto|].
  destruct (parseShape shape data) as [issues out] eqn:Hrest. simpl in IH.
  destruct (accepts t _); simpl; [|tauto].
  destruct (obj_get k0 data); simpl; tauto.
Qed.

Lemma parse_keys (shape : object schema) (data validated : object value) (k : string) :
  parse shape data = Returned validated -> In k (keys validated) -> In k (keys shape).
Proof.
  unfold parse. intros Hparse Hin. apply (parseShape_keys shape data).
  destruct (parseShape shape data) as [[|i issues] out]; [|discriminate].
  now injection Hparse as <-.
Qed.

Lemma substituteEntry_plain (processedParams : object value) (k : string) (v : value) :
  Spec.isPlaceholder v = false ->
  Index.substituteEntry processedParams (k, v) = mret processedParams.
Proof.
  unfold Index.substituteEntry, Spec.isPlaceholder. destruct v; try reflexivity.
  intros Hv. apply Bool.orb_false_elim in Hv as [-> ->]. reflexivity.
Qed.

Lemma agreeOff_set {A} (q k : string) (v : A) (o o' : object A) :
  Spec.agreeOff q o o' -> Spec.agreeOff q (obj_set k v o) (obj_set k v o').
Proof. intros Hagree k' Hk'. rewrite !obj_get_set. destruct (String.eqb k' k); auto. Qed.

Lemma substituteLoop_agree (q : string) (entries entries' : list (string * value)) :
  Forall2 (Spec.sameButAt q) entries entries' ->
  forall (acc acc' : object value) (w : World),
    Spec.agreeOff q acc acc' ->
    exists processed processed' w',
      Index.mfold Index.substituteEntry entries acc w = (Returned processed, w')
      /\ Index.mfold Index.substituteEntry entries' acc' w = (Returned processed', w')
      /\ Spec.agreeOff q processed processed'.
Proof.
  induction 1 as [|e e' entries entries' Hsame Hrest IH]; intros acc acc' w Hagree.
  - exists acc, acc', w. now repeat split.
  - rewrite !mfold_cons.
    destruct Hsame as [<-|(Hq & Hq' & Hplain & Hplain')].
    + destruct e as [k v]. unfold Index.substituteEntry at 1 3.
      destruct v; try (apply IH; exact Hagree).
      destruct (String.eqb s Index.sentinelGuid);
        [|destruct (String.eqb s Index.sentinelDatetime)]; simpl;
        apply IH; try exact Hagree; now apply agreeOff_set.
    + destruct e as [k v], e' as [k' v']. simpl in Hplain, Hplain'.
      rewrite !substituteEntry_plain by assumption. now apply IH.
Qed.

Lemma set_sameButAt (q : string) (v v' : value) (params : object value) :
  Spec.isPlaceholder v = false -> Spec.isPlaceholder v' = false ->
  Forall2 (Spec.sameButAt q) (obj_set q v params) (obj_set q v' params).
Proof.
  intros Hv Hv'.
  assert (Hsame : forall entries : object value, Forall2 (Spec.sameButAt q) entries entries).
  { induction entries; constructor; [now left | assumption]. }
  assert (Hat : Spec.sameButAt q (q, v) (q, v')) by (right; simpl; auto).
  unfold obj_set. destruct (existsb (String.eqb q) (keys params)).
  - induction params as [|[k x] params IH]; simpl; [constructor|].
    destruct (String.eqb q k); constructor; auto. now left.
  - induction params as [|[k x] params IH]; simpl; [constructor; auto|].
    destruct (comesBefore _ _); constructor; auto. now left.
Qed.

End Stripping.

(** C9: a parameter located in the query contributes nothing to the tool.
    Erasing the query parameters of an operation changes neither its
    validators nor what its handler does; every validator belongs to a
    parameter located in the path or to a property of the body schema; and
    a name without a validator never reaches the validated arguments, so
    that the result and the requests sent do not depend on the value passed
    under it. *)
Theorem C9_query_parameters_contribute_nothing `{Host} (path method : string)
    (operation : Index.Operation) (baseUrl organizationId : string)
    (schemas : gmap string Index.OpenAPISchemaObject) :
  Index.paramSchemaOf (Spec.withoutQueryParameters operation) schemas
    = Index.paramSchemaOf operation schemas
  /\ (forall paramSchema params w,
        Index.handler path method (Spec.withoutQueryParameters operation)
          baseUrl organizationId paramSchema params w
        = Index.handler path method operation baseUrl organizationId paramSchema params w)
  /\ (forall paramSchema k,
        Index.paramSchemaOf operation schemas = Returned paramSchema ->
        In k (keys paramSchema) ->
        (exists p, In p (Index.parametersOf operation)
                   /\ Index.name p = k /\ Index.location p = Index.InPath)
        \/ In k (Spec.bodyProperties operation schemas))
  /\ (forall paramSchema q, ~ In q (keys paramSchema) ->
        (forall data validatedParams,
            parse paramSchema data = Returned validatedParams ->
            obj_get q validatedParams = None)
        /\ (forall data data',
              Spec.agreeOff q data data' -> parse paramSchema data = parse paramSchema data')
        /\ (forall params v v' w,
              Spec.isPlaceholder v = false -> Spec.isPlaceholder v' = false ->
              Index.handler path method operation baseUrl organizationId paramSchema
                (obj_set q v params) w
              = Index.handler path method operation baseUrl organizationId paramSchema
                  (obj_set q v' params) w)).
Proof.
  split; [|split; [|split]].
  - unfold Index.paramSchemaOf. rewrite pathParamSchema_without_query. reflexivity.
  - intros paramSchema params w.
    destruct (substitutePlaceholders_returns params w) as (P & w1 & Hsub & _).
    rewrite !(handler_run _ _ _ _ _ _ _ _ _ _ Hsub), !callEndpoint_run.
    destruct (parse paramSchema P) as [validated|e]; [|reflexivity].
    rewrite headersOf_without_query. reflexivity.
  - intros paramSchema k. apply paramSchemaOf_keys.
  - intros paramSchema q Hq. split; [|split].
    + intros data validated Hparse. apply obj_get_None_keys. intros Hin.
      apply Hq. eapply parse_keys; eassumption.
    + intros data data' Hagree. now apply (parse_agree q).
    + intros params v v' w Hv Hv'.
      assert (Hagree : Spec.agreeOff q (obj_set q v params) (obj_set q v' params)).
      { intros k Hk. rewrite !obj_get_set. now apply String.eqb_neq in Hk as ->. }
      destruct (substituteLoop_agree q _ _ (set_sameButAt q v v' params Hv Hv') _ _ w Hagree)
        as (P & P' & w' & Hrun & Hrun' & HagreeP).
      rewrite (handler_run _ _ _ _ _ _ _ _ _ _ Hrun), (handler_run _ _ _ _ _ _ _ _ _ _ Hrun').
      rewrite !callEndpoint_run. now rewrite (parse_agree q paramSchema P P').
Qed.

Example query_argument_is_dropped :
  Index.paramSchemaOf Sample.getItem Sample.components = Returned [("id", ZString [])]
  /\ snd (Index.handler (H := Sample.host) "/items/{id}" "get" Sample.getItem
            Index.baseUrl Index.organizationId [("id", ZString [])]
            [("id", VStr "42"); ("verbose", VStr "yes")] Sample.world0)
     = {| drawn := 0; clockReads := 0;
          sent := [ {| url := "http://localhost:9999/items/42"; method := "GET";
                       headers := [("Content-Type", "application/json");
                                   ("Accept", "application/json")];
                       body := None |} ] |}.
Proof. split; reflexivity. Qed.

(** ** Path templates *)

Section Substrings.

Lemma prefix_cons (a b : ascii) (s1 s2 : string) :
  String.prefix (String a s1) (String b s2) = Ascii.eqb a b && String.prefix s1 s2.
Proof.
  simpl. destruct (ascii_dec a b) as [->|Hne].
  - now rewrite Ascii.eqb_refl.
  - now apply Ascii.eqb_neq in Hne as ->.
Qed.

Lemma prefix_app (n r : string) : String.prefix n (n +:+ r) = true.
Proof.
  induction n as [|c n IH]; [now destruct r|].
  change (String c n +:+ r) with (String c (n +:+ r)).
  now rewrite prefix_cons, Ascii.eqb_refl.
Qed.

Lemma drop_app (n r : string) : drop (String.length n) (n +:+ r) = r.
Proof. induction n as [|c n IH]; [now destruct r | exact IH]. Qed.

Lemma plain_app (a b : string) : Spec.plain (a +:+ b) = Spec.plain a && Spec.plain b.
Proof.
  induction a as [|c a IH]; [reflexivity|].
  change (String c a +:+ b) with (String c (a +:+ b)). simpl.
  now rewrite IH, Bool.andb_assoc.
Qed.

Lemma avoids_app (d : ascii) (a b : string) :
  Spec.avoids d (a +:+ b) = Spec.avoids d a && Spec.avoids d b.
Proof.
  induction a as [|c a IH]; [reflexivity|].
  change (String c a +:+ b) with (String c (a +:+ b)). simpl.
  now rewrite IH, Bool.andb_assoc.
Qed.

Lemma plain_avoids (s : string) :
  Spec.plain s = true ->
  Spec.avoids "{" s = true /\ Spec.avoids "}" s = true /\ Spec.avoids "$" s = true.
Proof.
  induction s as [|c s IH]; [now repeat split|].
  simpl. intros Hp. apply andb_prop in Hp as [Hc Hs].
  destruct (IH Hs) as (-> & -> & ->).
  apply Bool.negb_true_iff in Hc.
  apply Bool.orb_false_elim in Hc as [-> Hc].
  apply Bool.orb_false_elim in Hc as [-> Hc].
  apply Bool.orb_false_elim in Hc as [-> _].
  now repeat split.
Qed.

(** A replacement text without [$] stands for itself. *)
Lemma getSubstitution_plain (matched before after repl : string) :
  Spec.avoids "$" repl = true -> getSubstitution matched before after repl = repl.
Proof.
  induction repl as [|c repl IH]; [reflexivity|].
  simpl Spec.avoids. intros Hp. apply andb_prop in Hp as [Hc Hp].
  specialize (IH Hp).
  destruct c as [[] [] [] [] [] [] [] []]; try discriminate Hc; simpl; now rewrite IH.
Qed.

Lemma replaceFrom_unfold (before needle repl s : string) :
  replaceFrom before needle repl s
  = if String.prefix needle s then
      before +:+ getSubstitution needle before (drop (String.length needle) s) repl
      +:+ drop (String.length needle) s
    else match s with
         | EmptyString => before
         | String c s' => replaceFrom (before +:+ String c EmptyString) needle repl s'
         end.
Proof. destruct s; reflexivity. Qed.

Lemma replaceFrom_miss (before needle repl : string) (c : ascii) (s : string) :
  String.prefix needle (String c s) = false ->
  replaceFrom before needle repl (String c s)
  = replaceFrom (before +:+ String c EmptyString) needle repl s.
Proof. intros Hp. rewrite replaceFrom_unfold. now rewrite Hp. Qed.

Lemma replaceFrom_hit (before needle repl rest : string) :
  Spec.avoids "$" repl = true ->
  replaceFrom before needle repl (needle +:+ rest) = before +:+ repl +:+ rest.
Proof.
  intros Hrepl. rewrite replaceFrom_unfold, prefix_app.
  now rewrite drop_app, getSubstitution_plain.
Qed.

(** Text without [{] cannot start a match of a [{name}] segment. *)
Lemma replaceFrom_skip (before k repl s rest : string) :
  Spec.avoids "{" s = true ->
  replaceFrom before (Index.segmentOf k) repl (s +:+ rest)
  = replaceFrom (before +:+ s) (Index.segmentOf k) repl rest.
Proof.
  revert before; induction s as [|c s IH]; intros before Hs.
  - now rewrite append_empty_r.
  - simpl in Hs. apply andb_prop in Hs as [Hc Hs].
    change (String c s +:+ rest) with (String c (s +:+ rest)).
    rewrite replaceFrom_miss.
    + rewrite IH by assumption. now rewrite append_assoc.
    + unfold Index.segmentOf. change ("{" +:+ k +:+ "}") with (String "{" (k +:+ "}")).
      rewrite prefix_cons. apply Bool.negb_true_iff in Hc.
      rewrite Ascii.eqb_sym. now rewrite Hc.
Qed.

Lemma includes_cons (needle : string) (c : ascii) (s : string) :
  includes needle (String c s) = String.prefix needle (String c s) || includes needle s.
Proof. reflexivity. Qed.

Lemma includes_skip (k s rest : string) :
  Spec.avoids "{" s = true ->
  includes (Index.segmentOf k) (s +:+ rest) = includes (Index.segmentOf k) rest.
Proof.
  induction s as [|c s IH]; intros Hs; [reflexivity|].
  simpl in Hs. apply andb_prop in Hs as [Hc Hs].
  change (String c s +:+ rest) with (String c (s +:+ rest)).
  rewrite includes_cons, IH by assumption.
  unfold Index.segmentOf. change ("{" +:+ k +:+ "}") with (String "{" (k +:+ "}")).
  rewrite prefix_cons. apply Bool.negb_true_iff in Hc.
  rewrite Ascii.eqb_sym, Hc. reflexivity.
Qed.

Lemma includes_prefix (needle s : string) :
  String.prefix needle s = true -> includes needle s = true.
Proof.
  intros Hp.
  assert (Hunfold : includes needle s
                    = String.prefix needle s
                      || match s with
                         | EmptyString => false
                         | String _ s' => includes needle s'
                         end) by now destruct s.
  now rewrite Hunfold, Hp.
Qed.

Lemma includes_hit (needle rest : string) : includes needle (needle +:+ rest) = true.
Proof. apply includes_prefix, prefix_app. Qed.

(** Two names without [}] that agree up to the closing brace are equal. *)
Lemma closing_brace_prefix (k x rest : string) :
  Spec.avoids "}" k = true -> Spec.avoids "}" x = true ->
  String.prefix (k +:+ "}") (x +:+ "}" +:+ rest) = true -> k = x.
Proof.
  revert x; induction k as [|c k IH]; intros [|d x] Hk Hx; simpl in Hk, Hx.
  - reflexivity.
  - change (String.prefix (String "}" EmptyString) (String d (x +:+ "}" +:+ rest)) = true -> "" = String d x).
    rewrite prefix_cons. apply andb_prop in Hx as [Hd _].
    apply Bool.negb_true_iff in Hd. rewrite Ascii.eqb_sym, Hd. discriminate.
  - change (String.prefix (String c (k +:+ "}")) (String "}" rest) = true -> String c k = "").
    rewrite prefix_cons. apply andb_prop in Hk as [Hc _].
    apply Bool.negb_true_iff in Hc. rewrite Hc. discriminate.
  - change (String.prefix (String c (k +:+ "}")) (String d (x +:+ "}" +:+ rest)) = true
            -> String c k = String d x).
    rewrite prefix_cons. intros Hp. apply andb_prop in Hp as [Hcd Hp].
    apply Ascii.eqb_eq in Hcd. subst d.
    apply andb_prop in Hk as [_ Hk]. apply andb_prop in Hx as [_ Hx].
    f_equal. now apply IH.
Qed.

Lemma prefix_other_segment (k x rest : string) :
  Spec.avoids "}" k = true -> Spec.avoids "}" x = true -> k <> x ->
  String.prefix (Index.segmentOf k) (Index.segmentOf x +:+ rest) = false.
Proof.
  intros Hk Hx Hne. apply Bool.not_true_is_false. intros Hp. apply Hne.
  unfold Index.segmentOf in Hp.
  change (("{" +:+ x +:+ "}") +:+ rest) with (String "{" ((x +:+ "}") +:+ rest)) in Hp.
  change ("{" +:+ k +:+ "}") with (String "{" (k +:+ "}")) in Hp.
  rewrite prefix_cons in Hp. simpl in Hp. rewrite append_assoc in Hp.
  now apply (closing_brace_prefix k x rest).
Qed.

(** Every code unit is encoded into plain text. *)
Lemma encodeUnit_plain (c : ascii) : Spec.plain (encodeUnit c) = true.
Proof. destruct c as [[] [] [] [] [] [] [] []]; vm_compute; reflexivity. Qed.

Lemma encodeURIComponent_plain (s : string) : Spec.plain (encodeURIComponent s) = true.
Proof.
  induction s as [|c s IH]; [reflexivity|].
  simpl. now rewrite plain_app, encodeUnit_plain, IH.
Qed.

End Substrings.

Section Templates.

Lemma render_app (a b : list Spec.segment) :
  Spec.render (a ++ b) = Spec.render a +:+ Spec.render b.
Proof.
  induction a as [|[s|x] a IH]; [reflexivity| |];
    cbn [Spec.render app]; now rewrite IH, append_assoc.
Qed.

Lemma segmentOf_cons (x rest : string) :
  Index.segmentOf x +:+ rest = String "{" ((x +:+ "}") +:+ rest).
Proof. unfold Index.segmentOf. simpl. now rewrite append_assoc. Qed.

(** On a well-formed template, [replace] fills the first hole of the
    name. *)
Lemma replaceFrom_render (k e : string) (t : list Spec.segment) :
  Spec.wellFormed t = true -> Spec.avoids "}" k = true -> Spec.avoids "$" e = true ->
  forall before,
    replaceFrom before (Index.segmentOf k) e (Spec.render t)
    = before +:+ Spec.render (Spec.fill k e t).
Proof.
  intros Hwf Hk He. induction t as [|[s|x] t IH]; intros before.
  - simpl. now rewrite append_empty_r.
  - simpl in Hwf. apply andb_prop in Hwf as [Hs Hwf].
    cbn [Spec.render Spec.fill Spec.isHole]. rewrite replaceFrom_skip by assumption.
    rewrite IH by assumption. now rewrite append_assoc.
  - simpl in Hwf. apply andb_prop in Hwf as [Hx Hwf].
    apply andb_prop in Hx as [Hxo Hxc].
    cbn [Spec.render Spec.fill Spec.isHole].
    destruct (String.eqb_spec k x) as [->|Hne]; cbn [Spec.render].
    + now rewrite replaceFrom_hit.
    + rewrite replaceFrom_unfold, prefix_other_segment by assumption.
      rewrite segmentOf_cons.
      rewrite replaceFrom_skip by (rewrite avoids_app, Hxo; reflexivity).
      rewrite IH by assumption.
      rewrite segmentOf_cons. simpl. now rewrite !append_assoc.
Qed.

Lemma includes_render (k : string) (t : list Spec.segment) :
  Spec.wellFormed t = true -> Spec.avoids "}" k = true ->
  includes (Index.segmentOf k) (Spec.render t) = existsb (Spec.isHole k) t.
Proof.
  intros Hwf Hk. induction t as [|[s|x] t IH].
  - reflexivity.
  - simpl in Hwf. apply andb_prop in Hwf as [Hs Hwf].
    cbn [Spec.render existsb Spec.isHole orb].
    rewrite includes_skip by assumption. now apply IH.
  - simpl in Hwf. apply andb_prop in Hwf as [Hx Hwf].
    apply andb_prop in Hx as [Hxo Hxc].
    cbn [Spec.render existsb Spec.isHole].
    destruct (String.eqb_spec k x) as [->|Hne]; cbn [orb].
    + now rewrite includes_hit.
    + rewrite segmentOf_cons, includes_cons, <- segmentOf_cons.
      rewrite prefix_other_segment by assumption.
      rewrite includes_skip by (rewrite avoids_app, Hxo; reflexivity).
      now apply IH.
Qed.

Lemma fill_app (k e : string) (a b : list Spec.segment) :
  Spec.fill k e (a ++ b)
  = if existsb (Spec.isHole k) a then Spec.fill k e a ++ b else a ++ Spec.fill k e b.
Proof.
  induction a as [|seg a IH]; simpl; [reflexivity|].
  destruct (Spec.isHole k seg); simpl; [reflexivity|].
  rewrite IH. now destruct (existsb (Spec.isHole k) a).
Qed.

Lemma fill_wellFormed (k e : string) (t : list Spec.segment) :
  Spec.wellFormed t = true -> Spec.avoids "{" e = true ->
  Spec.wellFormed (Spec.fill k e t) = true.
Proof.
  intros Hwf He. induction t as [|seg t IH]; [reflexivity|].
  simpl in Hwf. apply andb_prop in Hwf as [Hseg Hwf]. simpl.
  destruct (Spec.isHole k seg); simpl.
  - now rewrite He, Hwf.
  - now rewrite Hseg, IH.
Qed.

End Templates.

Section FilledTemplates.
Variable validatedParams : object value.

#[local] Abbreviation filled := (Forall2 (Spec.filledFrom validatedParams)).

Lemma filled_refl (t : list Spec.segment) : filled t t.
Proof. induction t; constructor; [now left | assumption]. Qed.

(** Filling leaves no hole that was not there. *)
Lemma filled_no_hole (x : string) (t t' : list Spec.segment) :
  filled t t' -> existsb (Spec.isHole x) t = false -> existsb (Spec.isHole x) t' = false.
Proof.
  induction 1 as [|seg seg' t t' Hseg Hrest IH]; [reflexivity|].
  simpl. intros Hno. apply Bool.orb_false_elim in Hno as [Hhead Htail].
  rewrite (IH Htail), Bool.orb_false_r.
  destruct Hseg as [->|(k & v & -> & _ & ->)]; [exact Hhead | reflexivity].
Qed.

Lemma filled_wellFormed (t t' : list Spec.segment) :
  filled t t' -> Spec.wellFormed t = true -> Spec.wellFormed t' = true.
Proof.
  induction 1 as [|seg seg' t t' Hseg Hrest IH]; [reflexivity|].
  simpl. intros Hwf. apply andb_prop in Hwf as [Hhead Htail].
  rewrite (IH Htail), Bool.andb_true_r.
  destruct Hseg as [->|(k & v & -> & _ & ->)]; [exact Hhead|].
  simpl. now apply plain_avoids, encodeURIComponent_plain.
Qed.

(** Filling one more hole with the argument of its name keeps the
    relation. *)
Lemma filled_fill (k : string) (v : value) (t t' : list Spec.segment) :
  obj_get k validatedParams = Some v ->
  filled t t' ->
  filled t (Spec.fill k (encodeURIComponent (toString v)) t').
Proof.
  intros Hk. induction 1 as [|seg seg' t t' Hseg Hrest IH]; [constructor|].
  simpl. destruct (Spec.isHole k seg') eqn:Hhole.
  - constructor; [|exact Hrest].
    destruct seg' as [s|y]; [discriminate|]. simpl in Hhole.
    apply String.eqb_eq in Hhole. subst y.
    destruct Hseg as [Heq|(k' & v' & _ & _ & [=])].
    right. exists k, v. now repeat split.
  - constructor; assumption.
Qed.

End FilledTemplates.

Section FinalPath.
Variable path : string.

#[local] Abbreviation fillStep := (Spec.fillStep path).

Lemma fillStep_wellFormed (t : list Spec.segment) (entry : string * value) :
  Spec.wellFormed t = true -> Spec.wellFormed (fillStep t entry) = true.
Proof.
  intros Hwf. unfold Spec.fillStep. destruct (includes _ path); [|exact Hwf].
  apply fill_wellFormed; [exact Hwf|]. apply plain_avoids, encodeURIComponent_plain.
Qed.

Lemma replacePathParameters_render (validatedParams : object value) :
  forallb (Spec.avoids "}") (keys validatedParams) = true ->
  forall t, Spec.wellFormed t = true ->
    fold_left (Index.replacePathParameter path) validatedParams (Spec.render t)
    = Spec.render (fold_left fillStep validatedParams t).
Proof.
  induction validatedParams as [|[k v] rest IH]; intros Hkeys t Hwf; [reflexivity|].
  simpl in Hkeys. apply andb_prop in Hkeys as [Hk Hkeys].
  cbn [fold_left]. rewrite <- IH by (try apply fillStep_wellFormed; assumption).
  f_equal. unfold Index.replacePathParameter, Spec.fillStep. cbn [fst snd].
  destruct (includes (Index.segmentOf k) path); [|reflexivity].
  unfold replace. rewrite replaceFrom_render; try assumption; [reflexivity|].
  apply plain_avoids, encodeURIComponent_plain.
Qed.

Variable validatedParams : object value.
Variables (x : string) (vx : value).
Hypothesis Hx : obj_get x validatedParams = Some vx.
Hypothesis Hguard : includes (Index.segmentOf x) path = true.

#[local] Abbreviation filled := (Forall2 (Spec.filledFrom validatedParams)).

(** The loop keeps the shape of a template with one hole [x]: the parts
    before and after it have some holes filled, and [x] itself is filled
    once its entry has been met. *)
Lemma fillLoop_shape (A B : list Spec.segment) :
  existsb (Spec.isHole x) A = false -> existsb (Spec.isHole x) B = false ->
  forall (rest : list (string * value)) (A' B' : list Spec.segment) (m : Spec.segment),
    (forall k v, In (k, v) rest -> obj_get k validatedParams = Some v) ->
    filled A A' -> filled B B' ->
    (m = Spec.Hole x /\ In x (keys rest))
    \/ m = Spec.Text (encodeURIComponent (toString vx)) ->
    exists A'' B'',
      fold_left fillStep rest (A' ++ m :: B')
      = A'' ++ Spec.Text (encodeURIComponent (toString vx)) :: B''
      /\ filled A A'' /\ filled B B''.
Proof.
  intros HnoA HnoB.
  induction rest as [|[k v] rest IH]; intros A' B' m Hrest HA HB Hm.
  - destruct Hm as [[_ []]| ->]. now exists A', B'.
  - cbn [fold_left]. unfold Spec.fillStep at 2. cbn [fst snd].
    assert (Hrest' : forall k' v', In (k', v') rest -> obj_get k' validatedParams = Some v')
      by (intros; apply Hrest; now right).
    assert (Hkv : obj_get k validatedParams = Some v) by (apply Hrest; now left).
    destruct (includes (Index.segmentOf k) path) eqn:Hinc.
    + rewrite fill_app. destruct (existsb (Spec.isHole k) A') eqn:HkA.
      * assert (Hne : k <> x).
        { intros ->. now rewrite (filled_no_hole _ x A A' HA HnoA) in HkA. }
        apply IH; try assumption; [now apply filled_fill|].
        destruct Hm as [[-> [Heq|Hin]]|Hm]; [simpl in Heq; congruence|left; now split|now right].
      * cbn [Spec.fill]. destruct (Spec.isHole k m) eqn:Hkm.
        -- destruct Hm as [[-> _]| ->]; [|discriminate].
           simpl in Hkm. apply String.eqb_eq in Hkm. subst k.
           assert (v = vx) by congruence. subst v.
           apply IH; try assumption. now right.
        -- apply IH; try assumption; [now apply filled_fill|].
           destruct Hm as [[-> [Heq|Hin]]|Hm]; [|left; now split|now right].
           simpl in Heq. subst k. simpl in Hkm. now rewrite String.eqb_refl in Hkm.
    + apply IH; try assumption.
      destruct Hm as [[-> [Heq|Hin]]|Hm]; [|left; now split|now right].
      simpl in Heq. subst k. congruence.
Qed.

End FinalPath.

Lemma entries_are_lookups (o : object value) :
  NoDup (keys o) -> forall k v, In (k, v) o -> obj_get k o = Some v.
Proof.
  induction o as [|[k0 v0] o IH]; intros Hnd k v; [intros []|].
  apply NoDup_cons in Hnd as [Hfresh Hnd]. rewrite list_elem_of_In in Hfresh.
  simpl. intros [[= -> ->]|Hin].
  - now rewrite String.eqb_refl.
  - destruct (String.eqb_spec k k0) as [->|]; [|now apply IH].
    exfalso. apply Hfresh. apply in_map_iff. now exists (k0, v).
Qed.

Lemma integrationPath_prefix (path : string) :
  Index.integrationPath path = Spec.integrationPrefix path +:+ path.
Proof.
  unfold Index.integrationPath, Spec.integrationPrefix.
  now destruct (negb (startsWith "/integrations" path) && includes "/hawksoft/" path).
Qed.

Lemma integrationPrefix_ok (path : string) :
  Spec.avoids "{" (Spec.integrationPrefix path) = true.
Proof.
  unfold Spec.integrationPrefix.
  now destruct (negb (startsWith "/integrations" path) && includes "/hawksoft/" path).
Qed.

(** C5 does not hold of the code when the template names the parameter
    twice: [String.prototype.replace] with a string pattern replaces the
    first occurrence only, so for [/a/{x}/b/{x}] and [x = "1"] the final
    path is [/a/1/b/{x}], in which [{x}] still occurs. *)
Lemma C5_second_occurrence_stays :
  Index.finalPathOf "/a/{x}/b/{x}" [("x", VStr "1")] = "/a/1/b/{x}"
  /\ includes "{x}" (Index.finalPathOf "/a/{x}/b/{x}" [("x", VStr "1")]) = true.
Proof. split; reflexivity. Qed.

Example decimal_404 : JS.decimal 404 = "404" /\ JS.decimal 0 = "0".
Proof. split; reflexivity. Qed.

Example encode_sample : JS.encodeURIComponent "a b/{c}$" = "a%20b%2F%7Bc%7D%24".
Proof. reflexivity. Qed.

Example replace_first_only : JS.replace "{x}" "1" "/a/{x}/b/{x}" = "/a/1/b/{x}".
Proof. reflexivity. Qed.

Example replace_dollar : JS.replace "b" "[$&$$$`$']" "abc" = "a[b$ac]c".
Proof. reflexivity. Qed.

(** * Further properties of the code *)

(** ** The final path *)

Section PathFacts.

Lemma chars_app (a b : string) : Facts.chars (a +:+ b) = Facts.chars a ++ Facts.chars b.
Proof.
  unfold Facts.chars. induction a as [|c a IH]; [reflexivity|].
  change (String c a +:+ b) with (String c (a +:+ b)). simpl. now rewrite IH.
Qed.

Lemma chars_drop (n : nat) (s : string) (c : ascii) :
  In c (Facts.chars (drop n s)) -> In c (Facts.chars s).
Proof.
  revert s; induction n as [|n IH]; intros [|d s]; simpl; try tauto.
  intros Hin. right. now apply IH.
Qed.

(** [replace] brings in no character of its own. *)
Lemma replaceFrom_chars (needle repl : string) (c : ascii) :
  Spec.avoids "$" repl = true ->
  forall s before,
    In c (Facts.chars (replaceFrom before needle repl s)) ->
    In c (Facts.chars before) \/ In c (Facts.chars s) \/ In c (Facts.chars repl).
Proof.
  intros Hrepl. induction s as [|d s IH]; intros before; rewrite replaceFrom_unfold.
  - destruct (String.prefix needle EmptyString).
    + rewrite getSubstitution_plain by assumption. rewrite !chars_app, !in_app_iff.
      intros [?|[?|Hd]]; auto. apply chars_drop in Hd. auto.
    + auto.
  - destruct (String.prefix needle (String d s)).
    + rewrite getSubstitution_plain by assumption. rewrite !chars_app, !in_app_iff.
      intros [?|[?|Hd]]; auto. apply chars_drop in Hd. auto.
    + intros Hin. apply IH in Hin. rewrite chars_app, in_app_iff in Hin. simpl in *.
      destruct Hin as [[?|[?|[]]]|[?|?]]; auto.
Qed.

Lemma encodeUnit_safe (c : ascii) : forallb Facts.uriSafe (Facts.chars (encodeUnit c)) = true.
Proof. destruct c as [[] [] [] [] [] [] [] []]; vm_compute; reflexivity. Qed.

Lemma encodeURIComponent_safe (s : string) (c : ascii) :
  In c (Facts.chars (encodeURIComponent s)) -> Facts.uriSafe c = true.
Proof.
  induction s as [|d s IH]; [intros []|].
  simpl. rewrite chars_app, in_app_iff. intros [Hin|Hin]; [|now apply IH].
  pose proof (encodeUnit_safe d) as Hsafe. rewrite forallb_forall in Hsafe. now apply Hsafe.
Qed.

(** X1: whatever the arguments, every character of the final path is a
    character of the path template (with its prefix correction) or belongs
    to the alphabet of [encodeURIComponent]: an argument cannot bring a [/],
    [?], [#] or [&] into the request path. *)
Theorem X1_final_path_alphabet (path : string) (validatedParams : object value) (c : ascii) :
  In c (Facts.chars (Index.finalPathOf path validatedParams)) ->
  In c (Facts.chars (Index.integrationPath path)) \/ Facts.uriSafe c = true.
Proof.
  assert (Hgen : forall finalPath,
             (forall d, In d (Facts.chars finalPath) ->
                        In d (Facts.chars (Index.integrationPath path))
                        \/ Facts.uriSafe d = true) ->
             forall d, In d (Facts.chars (fold_left (Index.replacePathParameter path)
                                            validatedParams finalPath)) ->
                       In d (Facts.chars (Index.integrationPath path))
                       \/ Facts.uriSafe d = true).
  { induction validatedParams as [|[k v] rest IH]; intros finalPath Hinv; [exact Hinv|].
    cbn [fold_left]. apply IH. intros d.
    unfold Index.replacePathParameter.
    destruct (includes (Index.segmentOf k) path); [|apply Hinv].
    unfold replace. intros Hin.
    apply replaceFrom_chars in Hin;
      [|apply plain_avoids, encodeURIComponent_plain].
    destruct Hin as [[]|[Hin|Hin]]; [now apply Hinv|].
    right. now apply encodeURIComponent_safe in Hin. }
  unfold Index.finalPathOf. apply Hgen. intros d Hd. now left.
Qed.

Lemma X1_final_path_alphabet_witness :
  In "%"%char (Facts.chars (Index.integrationPath "/items/{id}"))
  \/ Facts.uriSafe "%" = true.
Proof.
  apply (X1_final_path_alphabet "/items/{id}" [("id", VStr "a b")] "%").
  vm_compute. tauto.
Defined.

Example final_path_keeps_its_slashes :
  Index.finalPathOf "/items/{id}" [("id", VStr "../admin?x=1#top")]
  = "/items/..%2Fadmin%3Fx%3D1%23top".
Proof. reflexivity. Qed.

Lemma prefix_split (p s : string) :
  String.prefix p s = true -> exists r, s = p +:+ r.
Proof.
  revert s; induction p as [|c p IH]; intros s; [now exists s|].
  destruct s as [|d s]; [discriminate|].
  rewrite prefix_cons. intros Hp. apply andb_prop in Hp as [Hc Hp].
  apply Ascii.eqb_eq in Hc. subst d. destruct (IH s Hp) as [r ->]. now exists r.
Qed.

Lemma replaceFrom_before (needle repl : string) (s before : string) :
  exists t, replaceFrom before needle repl s = before +:+ t.
Proof.
  revert before; induction s as [|d s IH]; intros before; rewrite replaceFrom_unfold.
  - destruct (String.prefix needle EmptyString); eauto.
    exists EmptyString. now rewrite append_empty_r.
  - destruct (String.prefix needle (String d s)); eauto.
    destruct (IH (before +:+ String d EmptyString)) as [t ->].
    exists (String d t). now rewrite append_assoc.
Qed.

Lemma integrationPath_starts (path : string) :
  includes "/hawksoft/" path = true \/ startsWith "/integrations" path = true ->
  startsWith "/integrations" (Index.integrationPath path) = true.
Proof.
  unfold Index.integrationPath.
  destruct (startsWith "/integrations" path) eqn:Hstart; cbn [negb andb]; [now intros _|].
  intros [Hinc|Hfalse]; [|discriminate]. rewrite Hinc. apply prefix_app.
Qed.

(** X2: the prefix correction is idempotent, it puts every path that
    contains [/hawksoft/] under [/integrations], and it leaves every other
    path, and every path under [/integrations] already, as it is. *)
Theorem X2_integration_path (path : string) :
  Index.integrationPath (Index.integrationPath path) = Index.integrationPath path
  /\ (includes "/hawksoft/" path = true ->
      startsWith "/integrations" (Index.integrationPath path) = true)
  /\ (includes "/hawksoft/" path = false \/ startsWith "/integrations" path = true ->
      Index.integrationPath path = path).
Proof.
  assert (Hpre : startsWith "/integrations" ("/integrations" +:+ path) = true)
    by apply prefix_app.
  unfold Index.integrationPath.
  destruct (startsWith "/integrations" path) eqn:Hstart.
  - cbn [negb andb]. rewrite Hstart. cbn [negb andb]. now repeat split.
  - destruct (includes "/hawksoft/" path) eqn:Hinc; cbn [negb andb].
    + rewrite Hpre. cbn [negb andb]. split; [reflexivity|]. split; [now intros _|].
      intros [|]; discriminate.
    + rewrite Hstart, Hinc. cbn [negb andb]. split; [reflexivity|].
      split; [discriminate | reflexivity].
Qed.

(** X3: the final path of an endpoint that contains [/hawksoft/], or that
    is under [/integrations] already, starts with [/integrations] whatever
    the arguments: replacing parameters never touches the prefix. *)
Theorem X3_final_path_keeps_prefix (path : string) (validatedParams : object value) :
  includes "/hawksoft/" path = true \/ startsWith "/integrations" path = true ->
  startsWith "/integrations" (Index.finalPathOf path validatedParams) = true.
Proof.
  intros Hcase.
  assert (Hstart : startsWith "/integrations" (Index.integrationPath path) = true)
    by now apply integrationPath_starts.
  unfold Index.finalPathOf. revert Hstart. generalize (Index.integrationPath path) as finalPath.
  induction validatedParams as [|[k v] rest IH]; intros finalPath Hstart; [exact Hstart|].
  cbn [fold_left]. apply IH. unfold Index.replacePathParameter.
  destruct (includes (Index.segmentOf k) path); [|exact Hstart].
  apply prefix_split in Hstart as [r ->].
  unfold replace. rewrite replaceFrom_skip by reflexivity.
  destruct (replaceFrom_before (Index.segmentOf k) (encodeURIComponent (toString v)) r
              (EmptyString +:+ "/integrations")) as [t ->].
  apply prefix_app.
Qed.

Lemma X3_final_path_keeps_prefix_witness :
  startsWith "/integrations"
    (Index.finalPathOf "/hawksoft/clients/{id}" [("id", VNum (Sample.int "12"))]) = true
  /\ Index.finalPathOf "/hawksoft/clients/{id}" [("id", VNum (Sample.int "12"))]
     = "/integrations/hawksoft/clients/12".
Proof.
  split; [|reflexivity].
  apply X3_final_path_keeps_prefix. left. reflexivity.
Defined.

Lemma includes_without_brace (k path : string) :
  Spec.avoids "{" path = true -> includes (Index.segmentOf k) path = false.
Proof.
  intros Hp. rewrite <- (append_empty_r path). now rewrite includes_skip.
Qed.

(** X4: on a path template without [{] the arguments have no effect: the
    final path is the template with its prefix correction. *)
Theorem X4_path_without_parameters (path : string) (validatedParams : object value) :
  Spec.avoids "{" path = true ->
  Index.finalPathOf path validatedParams = Index.integrationPath path.
Proof.
  intros Hp. unfold Index.finalPathOf. generalize (Index.integrationPath path) as finalPath.
  induction validatedParams as [|[k v] rest IH]; intros finalPath; [reflexivity|].
  cbn [fold_left]. unfold Index.replacePathParameter at 2.
  now rewrite includes_without_brace.
Qed.

Lemma X4_path_without_parameters_witness :
  Index.finalPathOf "/time-check/current-utc" [("id", VStr "{id}"); ("n", VNum (Sample.int "1"))]
  = "/time-check/current-utc".
Proof. now rewrite X4_path_without_parameters. Defined.


End PathFacts.

(** ** Headers and requests *)

(** The loop over the parameters sets [X-Org-Id] or nothing. *)
Lemma header_loop (organizationId : string) (ps : list Index.PathParameter)
    (headers : object string) :
  fold_left (fun headers param =>
               if Index.isLocation (Index.location param) Index.InHeader
                  && Index.required param && String.eqb (Index.name param) "X-Org-Id"
               then obj_set (Index.name param) organizationId headers
               else headers) ps headers
  = if existsb (fun param =>
                  Index.isLocation (Index.location param) Index.InHeader
                  && Index.required param && String.eqb (Index.name param) "X-Org-Id") ps
    then obj_set "X-Org-Id" organizationId headers
    else headers.
Proof.
  revert headers; induction ps as [|p ps IH]; intros headers; [reflexivity|].
  cbn [fold_left existsb]. rewrite IH.
  destruct (Index.isLocation (Index.location p) Index.InHeader && Index.required p
            && String.eqb (Index.name p) "X-Org-Id") eqn:Hp; cbn [orb]; [|reflexivity].
  apply andb_prop in Hp as [_ Hname]. apply String.eqb_eq in Hname. rewrite Hname.
  destruct (existsb _ ps); [apply obj_set_twice | reflexivity].
Qed.

(** X5: the headers of a request are [Content-Type: application/json], an
    [Accept] of [application/json] or [text/plain] by the declared ["200"]
    response, and, exactly when the operation declares a required header
    [X-Org-Id] or the final path contains [/hawksoft/], [X-Org-Id] with the
    configured organization; there is no other header, and none carries an
    argument. *)
Theorem X5_headers (operation : Index.Operation) (organizationId finalPath : string)
    (headers : object string) :
  Index.headersOf operation organizationId finalPath = Returned headers ->
  exists success,
    Index.responses operation ≫= obj_get "200" = Some success
    /\ headers
       = [("Content-Type", "application/json");
          ("Accept", if Index.jsonContent success then "application/json" else "text/plain")]
         ++ (if Facts.declaresOrgId operation || includes "/hawksoft/" finalPath
             then [("X-Org-Id", organizationId)] else []).
Proof.
  unfold Index.headersOf, Facts.declaresOrgId.
  destruct (Index.responses operation) as [declared|]; [|discriminate].
  simpl. destruct (obj_get "200" declared) as [success|]; [|discriminate].
  intros [= <-]. exists success. split; [reflexivity|].
  rewrite header_loop.
  destruct (existsb _ (Index.parametersOf operation)),
           (includes "/hawksoft/" finalPath); reflexivity.
Qed.

Lemma X5_headers_witness :
  Index.headersOf Sample.getItem Index.organizationId "/integrations/hawksoft/items/1"
  = Returned [("Content-Type", "application/json"); ("Accept", "application/json");
              ("X-Org-Id", Index.organizationId)].
Proof.
  destruct (Index.headersOf Sample.getItem Index.organizationId
              "/integrations/hawksoft/items/1") as [headers|e] eqn:Hh; [|discriminate Hh].
  destruct (X5_headers _ _ _ _ Hh) as (success & Hsuccess & ->).
  injection Hsuccess as <-. reflexivity.
Defined.

(** ** Invocations *)

(** X6: an invocation sends at most one request, and sends it only once
    the substituted arguments have passed validation and the headers have
    been built: the request is then the one built from the validated
    arguments, with the upper-cased method and the base URL followed by the
    final path, and it has a body exactly when the operation declares
    one. *)
Theorem X6_at_most_one_request `{Host} (path method : string)
    (operation : Index.Operation) (baseUrl organizationId : string)
    (paramSchema : object schema) (params : object value) (w : World) :
  exists result w',
    Index.handler path method operation baseUrl organizationId paramSchema params w
      = (Returned result, w')
    /\ (sent w' = sent w
        \/ exists processedParams w1 validatedParams headers req,
             Index.substitutePlaceholders params w = (Returned processedParams, w1)
             /\ parse paramSchema processedParams = Returned validatedParams
             /\ Index.headersOf operation organizationId
                  (Index.finalPathOf path validatedParams) = Returned headers
             /\ sent w' = sent w ++ [req]
             /\ url req = baseUrl +:+ Index.finalPathOf path validatedParams
             /\ JS.method req = toUpperCase method
             /\ JS.headers req = headers
             /\ (body req = None <-> Index.requestBody operation = None)).
Proof.
  destruct (substitutePlaceholders_returns params w) as (P & w1 & Hsub & Hsent1).
  rewrite (handler_run _ _ _ _ _ _ _ _ _ _ Hsub), callEndpoint_run.
  destruct (parse paramSchema P) as [validated|e] eqn:Hparse;
    [|eexists; eexists; split; [reflexivity | now left]].
  destruct (Index.headersOf _ _ _) as [headers|e] eqn:Hheaders;
    [|eexists; eexists; split; [reflexivity | now left]].
  cbv zeta.
  set (req := Index.requestOf path method operation baseUrl headers validated).
  assert (Hreq : exists result w',
             match respond (length (sent w1)) req with
             | Rejected msg => (Thrown {| message := msg |}, afterRequest w1 req)
             | Response status body =>
                 if ok status
                 then (Returned {| Index.text := Index.responseText body |},
                       afterRequest w1 req)
                 else (Thrown {| message := Index.statusMessage status body |},
                       afterRequest w1 req)
             end
             = (result, w') /\ sent w' = sent w ++ [req]).
  { destruct (respond _ req) as [msg|status body]; [|destruct (ok status)];
      eexists; eexists; (split; [reflexivity|]); simpl; now rewrite Hsent1. }
  destruct Hreq as (r & w' & Hrun & Hsent). rewrite Hrun.
  assert (Hright : exists processedParams w1 validatedParams headers req,
             Index.substitutePlaceholders params w = (Returned processedParams, w1)
             /\ parse paramSchema processedParams = Returned validatedParams
             /\ Index.headersOf operation organizationId
                  (Index.finalPathOf path validatedParams) = Returned headers
             /\ sent w' = sent w ++ [req]
             /\ url req = baseUrl +:+ Index.finalPathOf path validatedParams
             /\ JS.method req = toUpperCase method
             /\ JS.headers req = headers
             /\ (body req = None <-> Index.requestBody operation = None)).
  { exists P, w1, validated, headers, req. repeat split; try assumption; try reflexivity.
    - unfold req, Index.requestOf. simpl.
      destruct (Index.requestBody operation); [discriminate | reflexivity].
    - intros Hnone. unfold req, Index.requestOf. simpl. now rewrite Hnone. }
  destruct r as [result|error]; eexists; eexists; (split; [reflexivity|]); now right.
Qed.

(** X7: when the substituted arguments pass validation, the ["200"]
    response is declared and the answer to the request has a 2xx status,
    the invocation returns the normalised text of the answer's body and has
    sent exactly that one request. *)
Theorem X7_successful_invocation `{Host} (path method : string)
    (operation : Index.Operation) (baseUrl organizationId : string)
    (paramSchema : object schema) (params processedParams validatedParams : object value)
    (headers : object string) (w w1 : World) (status : N) (body : string) :
  Index.substitutePlaceholders params w = (Returned processedParams, w1) ->
  parse paramSchema processedParams = Returned validatedParams ->
  Index.headersOf operation organizationId (Index.finalPathOf path validatedParams)
    = Returned headers ->
  let req := Index.requestOf path method operation baseUrl headers validatedParams in
  respond (length (sent w)) req = Response status body ->
  ok status = true ->
  Index.handler path method operation baseUrl organizationId paramSchema params w
  = (Returned {| Index.text := Index.responseText body |},
     {| drawn := drawn w1; clockReads := clockReads w1; sent := sent w ++ [req] |}).
Proof.
  intros Hsub Hparse Hheaders req Hrespond Hok.
  destruct (substitutePlaceholders_returns params w) as (P & w1' & Hsub' & Hsent1).
  rewrite Hsub in Hsub'. injection Hsub' as <- <-.
  rewrite (handler_run _ _ _ _ _ _ _ _ _ _ Hsub), callEndpoint_run.
  rewrite Hparse, Hheaders. cbv zeta. fold req.
  rewrite Hsent1, Hrespond, Hok. unfold afterRequest. now rewrite Hsent1.
Qed.

Lemma X7_successful_invocation_witness :
  Index.handler (H := Sample.host) "/items/{id}" "get" Sample.getItem
    Index.baseUrl Index.organizationId [("id", ZString [])] [("id", VStr "42")] Sample.world0
  = (Returned {| Index.text := Index.responseText (H := Sample.host) "pong" |},
     {| drawn := 0; clockReads := 0;
        sent := [ {| url := "http://localhost:9999/items/42"; JS.method := "GET";
                     JS.headers := [("Content-Type", "application/json");
                                    ("Accept", "application/json")];
                     body := None |} ] |}).
Proof.
  apply (X7_successful_invocation (H := Sample.host) "/items/{id}" "get" Sample.getItem
           Index.baseUrl Index.organizationId [("id", ZString [])] [("id", VStr "42")]
           [("id", VStr "42")] [("id", VStr "42")]
           [("Content-Type", "application/json"); ("Accept", "application/json")]
           Sample.world0 Sample.world0 200 "pong");
    reflexivity.
Defined.

Section Rejection.
Context `{Host}.

(** One validator that rejects is enough for the parser to throw. *)
Lemma parse_rejects (shape : object schema) (data : object value) (k : string) (t : schema) :
  In (k, t) shape ->
  accepts t (default VUndefined (obj_get k data)) = false ->
  exists issues, issues <> [] /\ parse shape data = Thrown {| message := zod_message issues |}.
Proof.
  intros Hin Hreject.
  assert (Hissues : fst (parseShape shape data) <> []).
  { induction shape as [|[k0 t0] shape IH]; [destruct Hin|].
    simpl. destruct (parseShape shape data) as [issues out] eqn:Hrest.
    destruct Hin as [[= -> ->]|Hin].
    - rewrite Hreject. discriminate.
    - specialize (IH Hin). simpl in IH.
      destruct (accepts t0 _); simpl; [exact IH | discriminate]. }
  unfold parse. destruct (parseShape shape data) as [[|i issues] out]; [now simpl in Hissues|].
  exists (i :: issues). split; [discriminate | reflexivity].
Qed.

End Rejection.

(** X8: an invocation in which an argument is missing although its
    validator rejects [undefined] (a required parameter or property) ends in
    the error text with the message of the validation error, and sends
    nothing. *)
Theorem X8_missing_required_argument `{Host} (path method : string)
    (operation : Index.Operation) (baseUrl organizationId : string)
    (paramSchema : object schema) (params : object value) (w : World)
    (k : string) (t : schema) :
  NoDup (keys params) ->
  In (k, t) paramSchema ->
  accepts t VUndefined = false ->
  obj_get k params = None ->
  exists issues w',
    issues <> []
    /\ Index.handler path method operation baseUrl organizationId paramSchema params w
       = (Returned {| Index.text := Index.errorText path method operation
                                      (zod_message issues) |}, w')
    /\ sent w' = sent w.
Proof.
  intros Hnd Hin Hreject Hmissing.
  destruct (substituteLoop_spec params Hnd params w (fun k Hk => Hk)) as
    (P & w1 & Hrun & Hkeys & Hsent & _).
  assert (HmissingP : obj_get k P = None).
  { apply obj_get_None_keys. rewrite Hkeys. now apply obj_get_None_keys. }
  destruct (parse_rejects paramSchema P k t Hin) as (issues & Hne & Hparse).
  { now rewrite HmissingP. }
  exists issues, w1. split; [exact Hne|]. split; [|exact Hsent].
  rewrite (handler_run _ _ _ _ _ _ _ _ _ _ Hrun), callEndpoint_run, Hparse. reflexivity.
Qed.

Lemma X8_missing_required_argument_witness :
  exists issues w',
    Index.handler (H := Sample.host) "/items/{id}" "get" Sample.getItem
      Index.baseUrl Index.organizationId
      [("id", Index.getZodSchemaForParameter
                {| Index.name := "id"; Index.location := Index.InPath;
                   Index.required := true; Index.schemaType := "string";
                   Index.schemaFormat := None |})]
      [("verbose", VStr "yes")] Sample.world0
    = (Returned {| Index.text := "Error in getItem: " +:+ zod_message (Host := Sample.host) issues |},
       w')
    /\ sent w' = [].
Proof.
  assert (Hnd : NoDup (keys [("verbose", VStr "yes")])).
  { apply (bool_decide_unpack _). vm_compute. exact I. }
  destruct (X8_missing_required_argument (H := Sample.host) "/items/{id}" "get"
              Sample.getItem Index.baseUrl Index.organizationId
              [("id", ZString [])] [("verbose", VStr "yes")] Sample.world0 "id" (ZString [])
              Hnd ltac:(now left) eq_refl eq_refl) as (issues & w' & _ & Hrun & Hsent).
  exists issues, w'. split; [exact Hrun | exact Hsent].
Defined.

(** X9: arguments none of which is a placeholder sentinel pass through the
    placeholder step untouched and in order, and the step draws no
    identifier and reads no clock. *)
Theorem X9_no_placeholder_no_effect `{Host} (params : object value) (w : World) :
  Forall (fun entry => Spec.isPlaceholder (snd entry) = false) params ->
  Index.substitutePlaceholders params w = (Returned params, w).
Proof.
  unfold Index.substitutePlaceholders. generalize params at 3 4 as processedParams.
  induction 1 as [|[k v] entries Hv Hrest IH]; [reflexivity|].
  rewrite mfold_cons, substituteEntry_plain by exact Hv. exact IH.
Qed.

Lemma X9_no_placeholder_no_effect_witness :
  Index.substitutePlaceholders (H := Sample.host)
    [("id", VStr "42"); ("note", VStr "{{$guid}} "); ("n", VNum (Sample.int "3"))] Sample.world0
  = (Returned [("id", VStr "42"); ("note", VStr "{{$guid}} "); ("n", VNum (Sample.int "3"))], Sample.world0).
Proof.
  apply (X9_no_placeholder_no_effect (H := Sample.host)).
  repeat constructor.
Defined.

(** ** Input schemas *)

Lemma pathParamSchema_NoDup (operation : Index.Operation) :
  NoDup (keys (Index.pathParamSchema operation)).
Proof.
  unfold Index.pathParamSchema.
  assert (Hgen : forall ps (acc : object schema),
             NoDup (keys acc) ->
             NoDup (keys (fold_left
                            (fun paramSchema param =>
                               if Index.isLocation (Index.location param) Index.InPath
                               then obj_set (Index.name param)
                                      (Index.getZodSchemaForParameter param) paramSchema
                               else paramSchema) ps acc))).
  { induction ps as [|p ps IH]; intros acc Hacc; [exact Hacc|].
    cbn [fold_left]. apply IH.
    destruct (Index.isLocation _ _); [now apply obj_set_NoDup | exact Hacc]. }
  apply Hgen. constructor.
Qed.

Lemma paramSchemaOf_NoDup (operation : Index.Operation)
    (schemas : gmap string Index.OpenAPISchemaObject) (paramSchema : object schema) :
  Index.paramSchemaOf operation schemas = Returned paramSchema -> NoDup (keys paramSchema).
Proof.
  unfold Index.paramSchemaOf.
  destruct (Index.requestBody operation ≫= _) as [ref|];
    [|intros [= <-]; apply pathParamSchema_NoDup].
  unfold getMember.
  destruct (schemas !! Index.schemaNameOf ref) as [referenced|];
    [|destruct (existsb _ prototypeNames);
      [intros [= <-]; apply pathParamSchema_NoDup | discriminate]].
  destruct (Index.objProperties referenced) as [properties|];
    [|intros [= <-]; apply pathParamSchema_NoDup].
  generalize (Index.pathParamSchema operation) (pathParamSchema_NoDup operation).
  induction properties as [|[field prop] properties IH]; intros acc Hacc.
  - now intros [= <-].
  - cbn [ofold].
    destruct (Index.resolveSchemaRef (Index.propRef prop) prop schemas) as [zodSchema|e];
      [|discriminate].
    simpl. apply IH. now apply obj_set_NoDup.
Qed.

Section Validated.
Context `{Host}.

(** What the parser returns: the keys of the shape that the data has, in
    the order of the shape, with the values of the data. *)
Lemma parse_result (shape : object schema) (data validated : object value) :
  parse shape data = Returned validated ->
  validated
  = flat_map (fun entry => match obj_get (fst entry) data with
                           | Some v => [(fst entry, v)]
                           | None => []
                           end) shape.
Proof.
  unfold parse.
  assert (Hgen : forall out, parseShape shape data = ([], out) ->
             out = flat_map (fun entry => match obj_get (fst entry) data with
                                          | Some v => [(fst entry, v)]
                                          | None => []
                                          end) shape).
  { induction shape as [|[k t] shape IH]; simpl; [now intros out [= <-]|].
    destruct (parseShape shape data) as [issues out'] eqn:Hrest.
    destruct (accepts t _); [|discriminate].
    intros out [= -> <-]. rewrite <- (IH out' eq_refl).
    now destruct (obj_get k data). }
  destruct (parseShape shape data) as [[|i issues] out]; [|discriminate].
  intros [= <-]. now apply Hgen.
Qed.

Lemma flat_map_keys_NoDup (shape : object schema) (data : object value) :
  NoDup (keys shape) ->
  NoDup (keys (flat_map (fun entry => match obj_get (fst entry) data with
                                      | Some v => [(fst entry, v)]
                                      | None => []
                                      end) shape)).
Proof.
  induction shape as [|[k t] shape IH]; simpl; [constructor|].
  intros Hnd. apply NoDup_cons in Hnd as [Hfresh Hnd].
  destruct (obj_get k data) as [v|]; simpl; [|now apply IH].
  apply NoDup_cons. split; [|now apply IH].
  intros Hin. apply Hfresh. apply list_elem_of_In. apply list_elem_of_In in Hin.
  unfold keys in Hin. apply in_map_iff in Hin as ([k' v'] & Hk & Hin). simpl in Hk. subst k'.
  apply in_flat_map in Hin as ([k' t'] & Hshape & Hin). simpl in Hin.
  destruct (obj_get k' data); [|destruct Hin].
  destruct Hin as [[= -> _]|[]]. apply in_map_iff. now exists (k, t').
Qed.

End Validated.

(** X10: the input schema of a tool has one validator for each name, and
    the validated arguments of an invocation are a proper object: their
    keys are pairwise different, each is a key of the schema and carries
    the value of the processed argument of that name. *)
Theorem X10_validated_arguments `{Host} (operation : Index.Operation)
    (schemas : gmap string Index.OpenAPISchemaObject) (paramSchema : object schema)
    (processedParams validatedParams : object value) :
  Index.paramSchemaOf operation schemas = Returned paramSchema ->
  parse paramSchema processedParams = Returned validatedParams ->
  NoDup (keys paramSchema)
  /\ NoDup (keys validatedParams)
  /\ forall k v, obj_get k validatedParams = Some v ->
                 In k (keys paramSchema) /\ obj_get k processedParams = Some v.
Proof.
  intros Hschema Hparse. pose proof (paramSchemaOf_NoDup _ _ _ Hschema) as Hnd.
  pose proof (parse_result _ _ _ Hparse) as Hresult.
  split; [exact Hnd|]. split; [rewrite Hresult; now apply flat_map_keys_NoDup|].
  intros k v Hget. split; [eapply parse_keys; [exact Hparse | eapply obj_get_Some_keys; eauto]|].
  rewrite Hresult in Hget. clear -Hget.
  induction paramSchema as [|[k0 t] shape IH]; simpl in Hget; [discriminate|].
  destruct (obj_get k0 processedParams) as [v0|] eqn:Hk0; simpl in Hget; [|now apply IH].
  destruct (String.eqb_spec k k0) as [->|]; [congruence | now apply IH].
Qed.

Lemma X10_validated_arguments_witness :
  let paramSchema :=
    [("shop", ZString []);
     ("id", ZUnion (ZString [CkUuid]) (ZLiteral "{{$guid}}"));
     ("placed", ZOptional (ZUnion (ZString [CkDatetimeOffset])
                             (ZLiteral "{{$datetime iso8601}}")));
     ("note", ZOptional (ZString []))] in
  let validatedParams := [("shop", VStr "s"); ("id", VStr "{{$guid}}"); ("note", VStr "n")] in
  Index.paramSchemaOf Sample.putOrder Sample.components = Returned paramSchema
  /\ parse (H := Sample.host) paramSchema
       [("note", VStr "n"); ("id", VStr "{{$guid}}"); ("extra", VNum (Sample.int "1")); ("shop", VStr "s")]
     = Returned validatedParams
  /\ NoDup (keys validatedParams).
Proof.
  intros paramSchema validatedParams.
  assert (Hschema : Index.paramSchemaOf Sample.putOrder Sample.components
                    = Returned paramSchema) by (vm_compute; reflexivity).
  assert (Hparse : parse (H := Sample.host) paramSchema
                     [("note", VStr "n"); ("id", VStr "{{$guid}}"); ("extra", VNum (Sample.int "1"));
                      ("shop", VStr "s")]
                   = Returned validatedParams) by (vm_compute; reflexivity).
  split; [exact Hschema|]. split; [exact Hparse|].
  exact (proj1 (proj2 (X10_validated_arguments (H := Sample.host) _ _ _ _ _ Hschema Hparse))).
Defined.

(** ** Validators of the other properties *)

(** X11: for a property that is no enumeration and has no reference, a
    validator of type [integer] or [number] accepts numbers only, the
    validator of type [boolean] accepts exactly the booleans, and a
    property whose type is none of [integer], [string], [number] and
    [boolean], or that has no type, is validated as a string: it accepts
    exactly the strings, whatever its format. *)
Theorem X11_other_types `{Host} (prop : Index.OpenAPIPropertySchema)
    (schemas : gmap string Index.OpenAPISchemaObject) :
  Index.propEnum prop = None ->
  truthy (Index.propRef prop) = None ->
  exists t,
    Index.resolveSchemaRef (Index.propRef prop) prop schemas = Returned t
    /\ (Index.propType prop = Some "integer" \/ Index.propType prop = Some "number" ->
        forall v, accepts t v = true -> exists z, v = VNum z)
    /\ (Index.propType prop = Some "boolean" ->
        forall v, accepts t v = true <-> exists b, v = VBool b)
    /\ ((forall ty, Index.propType prop = Some ty -> ~ In ty Facts.knownTypes) ->
        forall v, accepts t v = true <-> exists s, v = VStr s).
Proof.
  intros Henum Href. exists (Index.schemaOfType prop). split.
  { unfold Index.resolveSchemaRef. rewrite Href. simpl. now rewrite Henum. }
  unfold Index.schemaOfType. split; [|split].
  - intros [Hty|Hty]; rewrite Hty; simpl; intros [] Hv; try discriminate; eauto.
  - intros Hty. rewrite Hty. simpl. intros []; simpl; split; try discriminate; eauto;
      intros [b [=]].
  - intros Hother.
    assert (Hno : forall ty, In ty Facts.knownTypes ->
                             Index.isType (Index.propType prop) ty = false).
    { intros ty Hin. unfold Index.isType.
      destruct (Index.propType prop) as [ty'|] eqn:Hty; [|reflexivity].
      apply String.eqb_neq. intros ->. now apply (Hother ty). }
    rewrite !Hno by (simpl; tauto). intros v. apply accepts_plain_string.
Qed.

Lemma X11_other_types_witness :
  exists t,
    Index.resolveSchemaRef None
      {| Index.propType := Some "array"; Index.propFormat := None;
         Index.propRef := None; Index.propEnum := None |} Sample.components = Returned t
    /\ accepts (H := Sample.host) t (VStr "anything") = true
    /\ accepts (H := Sample.host) t (VArr [VStr "a"]) = false.
Proof.
  destruct (X11_other_types (H := Sample.host)
              {| Index.propType := Some "array"; Index.propFormat := None;
                 Index.propRef := None; Index.propEnum := None |} Sample.components
              eq_refl eq_refl) as (t & Ht & _ & _ & Hother).
  assert (Hplain : forall v, accepts (H := Sample.host) t v = true <-> exists s, v = VStr s).
  { apply Hother. intros ty [= <-]. simpl. intuition discriminate. }
  exists t. split; [exact Ht|]. split.
  - apply Hplain. now exists "anything".
  - apply Bool.not_true_is_false. intros Hacc. apply Hplain in Hacc as [s [=]].
Defined.

Section Enumerations.
Context `{Host}.

Lemma accepts_enum (values : list string) (v : value) :
  accepts (ZEnum values) v = true <-> exists s, v = VStr s /\ In s values.
Proof.
  destruct v; simpl; split; try discriminate; try (intros (? & [=] & _); fail).
  - intros Hex. apply existsb_exists in Hex as (x & Hin & Heq).
    apply String.eqb_eq in Heq. subst x. eauto.
  - intros (s' & [= <-] & Hin). apply existsb_exists. exists s.
    split; [exact Hin | apply String.eqb_refl].
Qed.

End Enumerations.

(** X12: an enumeration comes first.  When the reference of a property
    names a schema with an [enum], the validator accepts exactly the
    strings of that list, whatever the property itself says; otherwise,
    when the property has an [enum] of its own, exactly the strings of this
    one, whatever its type and format. *)
Theorem X12_enum_first `{Host} (prop : Index.OpenAPIPropertySchema)
    (schemas : gmap string Index.OpenAPISchemaObject) :
  (forall ref referenced values,
      truthy (Index.propRef prop) = Some ref ->
      schemas !! Index.schemaNameOf ref = Some referenced ->
      Index.objEnum referenced = Some values ->
      Index.resolveSchemaRef (Index.propRef prop) prop schemas = Returned (ZEnum values)
      /\ forall v, accepts (ZEnum values) v = true <-> exists s, v = VStr s /\ In s values)
  /\ (forall values,
        (truthy (Index.propRef prop) = None
         \/ exists ref referenced,
              truthy (Index.propRef prop) = Some ref
              /\ schemas !! Index.schemaNameOf ref = Some referenced
              /\ Index.objEnum referenced = None) ->
        Index.propEnum prop = Some values ->
        Index.resolveSchemaRef (Index.propRef prop) prop schemas = Returned (ZEnum values)
        /\ forall v, accepts (ZEnum values) v = true <-> exists s, v = VStr s /\ In s values).
Proof.
  split.
  - intros ref referenced values Href Hschema Henum. split; [|apply accepts_enum].
    unfold Index.resolveSchemaRef.
    rewrite Href, (getMember_own _ _ _ Hschema). simpl. now rewrite Henum.
  - intros values Href Henum. split; [|apply accepts_enum].
    unfold Index.resolveSchemaRef.
    destruct Href as [Href|(ref & referenced & Href & Hschema & Hnone)].
    + rewrite Href. simpl. now rewrite Henum.
    + rewrite Href, (getMember_own _ _ _ Hschema). simpl. now rewrite Hnone, Henum.
Qed.

Example enum_beats_format :
  Index.resolveSchemaRef None
    {| Index.propType := Some "string"; Index.propFormat := Some "uuid";
       Index.propRef := None; Index.propEnum := Some ["USD"; "EUR"] |} ∅
  = Returned (ZEnum ["USD"; "EUR"]).
Proof. reflexivity. Qed.

(** ** References *)

Lemma splitFrom_plain (sep : ascii) (cur name : string) :
  Spec.avoids sep name = true -> splitFrom sep cur name = [cur +:+ name].
Proof.
  revert cur; induction name as [|c name IH]; intros cur; simpl.
  - now rewrite append_empty_r.
  - intros Hn. apply andb_prop in Hn as [Hc Hn]. apply Bool.negb_true_iff in Hc.
    rewrite Hc, IH by assumption. now rewrite append_assoc.
Qed.

Lemma splitFrom_last (sep : ascii) (dir name : string) :
  Spec.avoids sep name = true ->
  forall cur, exists first rest,
    splitFrom sep cur (dir +:+ String sep name) = first :: rest
    /\ last rest = Some name.
Proof.
  intros Hname. induction dir as [|c dir IH]; intros cur.
  - simpl. rewrite Ascii.eqb_refl. exists cur, [name].
    now rewrite splitFrom_plain.
  - change (String c dir +:+ String sep name) with (String c (dir +:+ String sep name)).
    simpl. destruct (Ascii.eqb c sep).
    + destruct (IH EmptyString) as (first & rest & -> & Hlast).
      exists cur, (first :: rest). split; [reflexivity|].
      destruct rest; [discriminate | exact Hlast].
    + apply IH.
Qed.

(** X13: the schema that a reference names is its last segment: for a
    reference [dir/name] whose [name] has no [/] it is [name]; a reference
    without any [/] names the schema called [undefined]. *)
Theorem X13_schema_name (dir name ref : string) :
  (Spec.avoids "/" name = true -> Index.schemaNameOf (dir +:+ "/" +:+ name) = name)
  /\ (Spec.avoids "/" ref = true -> Index.schemaNameOf ref = "undefined").
Proof.
  unfold Index.schemaNameOf, split. split.
  - intros Hname.
    destruct (splitFrom_last "/" dir name Hname EmptyString) as (first & rest & Hsplit & Hlast).
    change ("/" +:+ name) with (String "/" name). rewrite Hsplit. simpl. now rewrite Hlast.
  - intros Href. now rewrite splitFrom_plain.
Qed.

Example schema_name_sample :
  Index.schemaNameOf "#/components/schemas/Order" = "Order"
  /\ Index.schemaNameOf "Order" = "undefined".
Proof. split; reflexivity. Qed.

Lemma ofold_throws {A B} (f : B -> A -> outcome B) (l : list A) (x : A) :
  In x l -> (forall acc, exists e, f acc x = Thrown e) ->
  forall acc, exists e, ofold f l acc = Thrown e.
Proof.
  intros Hin Hx. induction l as [|a l IH]; [destruct Hin|]. intros acc. cbn [ofold].
  destruct Hin as [->|Hin].
  - destruct (Hx acc) as [e ->]. now exists e.
  - destruct (f acc a) as [acc'|e]; simpl; [now apply IH | now exists e].
Qed.

(** X14: a reference to a name that is neither a schema of the components
    nor a name that every object inherits makes the generator throw:
    [resolveSchemaRef] on reading [enum], [createToolFromEndpoint] on
    reading [properties].  A reference to an inherited name, such as
    [constructor] or [toString], does not: the property is validated as if
    it had no reference, and the body contributes no validator.  [init]
    throws whenever the input schema of one of the endpoints of the
    document cannot be built. *)
Theorem X14_dangling_reference (doc : Index.Document) :
  (forall ref prop,
      truthy (Index.propRef prop) = Some ref ->
      Index.schemas doc !! Index.schemaNameOf ref = None ->
      (~ In (Index.schemaNameOf ref) prototypeNames ->
       Index.resolveSchemaRef (Index.propRef prop) prop (Index.schemas doc)
       = Thrown {| message := "Cannot read properties of undefined (reading 'enum')" |})
      /\ (In (Index.schemaNameOf ref) prototypeNames ->
          Index.resolveSchemaRef (Index.propRef prop) prop (Index.schemas doc)
          = Index.resolveSchemaRef None prop (Index.schemas doc)))
  /\ (forall operation body ref,
        Index.requestBody operation = Some body ->
        truthy (Index.jsonSchemaRef body) = Some ref ->
        Index.schemas doc !! Index.schemaNameOf ref = None ->
        (~ In (Index.schemaNameOf ref) prototypeNames ->
         Index.paramSchemaOf operation (Index.schemas doc)
         = Thrown {| message := "Cannot read properties of undefined (reading 'properties')" |})
        /\ (In (Index.schemaNameOf ref) prototypeNames ->
            Index.paramSchemaOf operation (Index.schemas doc)
            = Returned (Index.pathParamSchema operation)))
  /\ (forall path method operation e,
        In (path, method, operation) (Spec.endpointsOf doc) ->
        Index.paramSchemaOf operation (Index.schemas doc) = Thrown e ->
        exists e', Index.init doc = Thrown e').
Proof.
  split; [|split].
  - intros ref prop Href Hnone. unfold Index.resolveSchemaRef. rewrite Href. split.
    + intros Hout.
      now rewrite (proj2 (getMember_missing _ _) (conj Hnone Hout)).
    + intros Hin.
      now rewrite (proj2 (getMember_inherited _ _) (conj Hnone Hin)).
  - intros operation body ref Hbody Href Hnone. unfold Index.paramSchemaOf.
    rewrite Hbody. simpl. rewrite Href. split.
    + intros Hout.
      now rewrite (proj2 (getMember_missing _ _) (conj Hnone Hout)).
    + intros Hin.
      now rewrite (proj2 (getMember_inherited _ _) (conj Hnone Hin)).
  - intros path method operation e Hin Hthrow. unfold Index.init.
    rewrite registerEndpoints_flat.
    destruct (ofold_throws
                (fun registry '(path, method, operation) =>
                   Index.createToolFromEndpoint (Index.schemas doc) path method operation
                     Index.baseUrl Index.organizationId registry)
                (Spec.endpointsOf doc) (path, method, operation) Hin) with (acc := (∅ : gmap string Index.ToolDefinition))
      as [e' He'].
    + intros acc. exists e. unfold Index.createToolFromEndpoint. now rewrite Hthrow.
    + rewrite He'. now exists e'.
Qed.

Example init_aborts_on_dangling_reference :
  Index.init
    {| Index.paths :=
         [("/items/{id}", [("get", Sample.getItem)]);
          ("/orders", [("put", {| Index.operationId := Some "putOrder";
                                  Index.parameters := None;
                                  Index.requestBody :=
                                    Some {| Index.jsonSchemaRef := Some "#/components/schemas/Missing" |};
                                  Index.responses := None |})])];
       Index.schemas := Sample.components |}
  = Thrown {| message := "Cannot read properties of undefined (reading 'properties')" |}.
Proof. vm_compute. reflexivity. Qed.

Example inherited_name_is_found :
  Index.paramSchemaOf
    {| Index.operationId := Some "putOrder"; Index.parameters := None;
       Index.requestBody := Some {| Index.jsonSchemaRef := Some "#/components/schemas/toString" |};
       Index.responses := None |} Sample.components
  = Returned [].
Proof. vm_compute. reflexivity. Qed.

(** ** Names *)

Lemma replaceClass_char_length (cls : ascii -> bool) (u : ascii) (s : string) :
  String.length (replaceClass cls (String u EmptyString) s) = String.length s.
Proof.
  induction s as [|c s IH]; [reflexivity|]. rewrite replaceClass_char. simpl. now rewrite IH.
Qed.

Lemma substring0_nonempty (n : nat) (s : string) :
  0 < n -> s <> EmptyString -> substring0 n s <> EmptyString.
Proof.
  intros Hn Hs. destruct n; [lia|]. destruct s; [congruence | discriminate].
Qed.

Lemma append_nonempty_r (a b : string) : b <> EmptyString -> a +:+ b <> EmptyString.
Proof. destruct a; simpl; [tauto | discriminate]. Qed.

(** X15: the tool name of the swagger-client proxy always matches
    [^[a-zA-Z0-9_-]{1,64}$]: it has between 1 and 64 characters, each a
    letter, a digit, [_] or [-]. *)
Theorem X15_proxy_name_pattern (tagName opId : string) (operationId : option string) :
  let name := SwaggerProxy.toolName tagName opId operationId in
  1 <= String.length name <= 64
  /\ forall c, In c (list_ascii_of_string name) -> SwaggerProxy.invalidNameChar c = false.
Proof.
  intros name. destruct (sanitize_pattern (orElse operationId (tagName +:+ "_" +:+ opId)))
    as [Hlen Hchars].
  split; [split; [|exact Hlen] | exact Hchars].
  assert (Hne : name <> EmptyString).
  { unfold name, SwaggerProxy.toolName, SwaggerProxy.sanitize.
    apply substring0_nonempty; [lia|].
    intros Hempty. apply (f_equal String.length) in Hempty.
    rewrite replaceClass_char_length in Hempty.
    assert (Hraw : orElse operationId (tagName +:+ "_" +:+ opId) <> EmptyString).
    { destruct operationId as [[|c id]|]; simpl; try discriminate;
        now apply append_nonempty_r. }
    destruct (orElse operationId (tagName +:+ "_" +:+ opId)); [congruence | discriminate]. }
  destruct name; [congruence | simpl; lia].
Qed.

Lemma replaceClass_avoids (cls : ascii -> bool) (u d : ascii) (s : string) :
  cls d = true -> Ascii.eqb u d = false ->
  Spec.avoids d (replaceClass cls (String u EmptyString) s) = true.
Proof.
  intros Hd Hu. induction s as [|c s IH]; [reflexivity|].
  rewrite replaceClass_char. simpl. rewrite IH, Bool.andb_true_r.
  destruct (cls c) eqn:Hc; [now rewrite Hu|].
  apply Bool.negb_true_iff, Ascii.eqb_neq. intros ->. congruence.
Qed.

Lemma replaceClass_get (cls : ascii -> bool) (u : ascii) (s : string) (i : nat) :
  String.get i (replaceClass cls (String u EmptyString) s)
  = option_map (fun c => if cls c then u else c) (String.get i s).
Proof.
  revert i; induction s as [|c s IH]; intros i; [reflexivity|].
  rewrite replaceClass_char. destruct i; simpl; [reflexivity | apply IH].
Qed.

(** X16: for an operation without a (non-empty) operation identifier the
    tool name of [src/index.ts] is the method followed by the path,
    character by character, in which every [/], [{] and [}] has become [_]
    and every other character is kept. *)
Theorem X16_synthesized_name (path method : string) (operation : Index.Operation) :
  truthy (Index.operationId operation) = None ->
  exists rest,
    Index.toolName path method operation = method +:+ rest
    /\ String.length rest = String.length path
    /\ forall i c, String.get i path = Some c ->
                   String.get i rest = Some (if oneOf "/{}" c then "_"%char else c).
Proof.
  intros Hid. exists (replaceClass (oneOf "/{}/") "_" path). split; [|split].
  - unfold Index.toolName. destruct (Index.operationId operation) as [[|c id]|];
      [reflexivity | discriminate | reflexivity].
  - apply replaceClass_char_length.
  - intros i c Hc. rewrite replaceClass_get, Hc. simpl.
    now destruct (Ascii.eqb c "/"), (Ascii.eqb c "{"), (Ascii.eqb c "}").
Qed.

Lemma X16_synthesized_name_witness :
  exists rest,
    Index.toolName "/items/{id}" "get"
      {| Index.operationId := Some EmptyString; Index.parameters := None;
         Index.requestBody := None; Index.responses := None |}
    = "get" +:+ rest
    /\ String.length rest = 11
    /\ String.get 0 rest = Some "_"%char /\ String.get 1 rest = Some "i"%char.
Proof.
  destruct (X16_synthesized_name "/items/{id}" "get"
              {| Index.operationId := Some EmptyString; Index.parameters := None;
                 Index.requestBody := None; Index.responses := None |} eq_refl)
    as (rest & Hname & Hlen & Hchars).
  exists rest. split; [exact Hname|]. split; [exact Hlen|]. split.
  - exact (Hchars 0 "/"%char eq_refl).
  - exact (Hchars 1 "i"%char eq_refl).
Defined.

Example synthesized_name_sample :
  Index.toolName "/items/{id}" "get"
    {| Index.operationId := None; Index.parameters := None;
       Index.requestBody := None; Index.responses := None |}
  = "get_items__id_".
Proof. reflexivity. Qed.

Example synthesized_names_collide :
  Index.toolName "/a/b" "get"
    {| Index.operationId := None; Index.parameters := None;
       Index.requestBody := None; Index.responses := None |}
  = Index.toolName "/a_b" "get"
      {| Index.operationId := None; Index.parameters := None;
         Index.requestBody := None; Index.responses := None |}.
Proof. reflexivity. Qed.

Section Runs.
Variable cls : ascii -> bool.
Variable u : ascii.
Hypothesis Hu : cls u = false.

Lemma replaceRuns_clean (s : string) (inRun : bool) (c : ascii) :
  In c (list_ascii_of_string (MultiTag.replaceRuns cls (String u EmptyString) inRun s)) ->
  cls c = false.
Proof.
  revert inRun; induction s as [|d s IH]; intros inRun; simpl; [intros []|].
  destruct (cls d) eqn:Hd.
  - destruct inRun; [apply IH|]. simpl. intros [<-|Hin]; [exact Hu | now apply (IH true)].
  - simpl. intros [<-|Hin]; [exact Hd | now apply (IH false)].
Qed.

Lemma replaceRuns_fixed (s : string) (inRun : bool) :
  (forall c, In c (list_ascii_of_string s) -> cls c = false) ->
  MultiTag.replaceRuns cls (String u EmptyString) inRun s = s.
Proof.
  revert inRun; induction s as [|d s IH]; intros inRun Hs; [reflexivity|].
  simpl. rewrite (Hs d) by now left. f_equal. apply IH. intros c Hc. apply Hs. now right.
Qed.

(** A character outside the class is kept, also behind other text. *)
Lemma replaceRuns_app_char (a : string) (inRun : bool) (c : ascii) (b : string) :
  cls c = false ->
  MultiTag.replaceRuns cls (String u EmptyString) inRun (a +:+ String c b)
  = MultiTag.replaceRuns cls (String u EmptyString) inRun a
    +:+ String c (MultiTag.replaceRuns cls (String u EmptyString) false b).
Proof.
  intros Hc. revert inRun; induction a as [|d a IH]; intros inRun.
  - simpl. now rewrite Hc.
  - change (String d a +:+ String c b) with (String d (a +:+ String c b)).
    simpl. destruct (cls d).
    + destruct inRun; rewrite IH; reflexivity.
    + now rewrite IH.
Qed.

(** Within a run, further characters of the class give nothing. *)
Lemma replaceRuns_skip (ws s : string) :
  (forall c, In c (list_ascii_of_string ws) -> cls c = true) ->
  MultiTag.replaceRuns cls (String u EmptyString) true (ws +:+ s)
  = MultiTag.replaceRuns cls (String u EmptyString) true s.
Proof.
  induction ws as [|w ws IH]; intros Hws; [reflexivity|].
  change (String w ws +:+ s) with (String w (ws +:+ s)). simpl.
  rewrite (Hws w) by now left. apply IH. intros c Hc. apply Hws. now right.
Qed.

Lemma replaceRuns_start (s : string) (inRun : bool) :
  (forall c s', s = String c s' -> cls c = false) ->
  MultiTag.replaceRuns cls (String u EmptyString) inRun s
  = MultiTag.replaceRuns cls (String u EmptyString) false s.
Proof.
  destruct s as [|c s]; [reflexivity|]. intros Hs. simpl. now rewrite (Hs c s eq_refl).
Qed.

(** A maximal run of the class at the start gives one [u]. *)
Lemma replaceRuns_run (ws s : string) :
  ws <> EmptyString ->
  (forall c, In c (list_ascii_of_string ws) -> cls c = true) ->
  (forall c s', s = String c s' -> cls c = false) ->
  MultiTag.replaceRuns cls (String u EmptyString) false (ws +:+ s)
  = String u (MultiTag.replaceRuns cls (String u EmptyString) false s).
Proof.
  intros Hne Hws Hs. destruct ws as [|w ws]; [congruence|].
  change (String w ws +:+ s) with (String w (ws +:+ s)). simpl.
  rewrite (Hws w) by now left. simpl. f_equal.
  rewrite replaceRuns_skip by (intros c Hc; apply Hws; now right).
  now apply replaceRuns_start.
Qed.

End Runs.

(** X17: a tool name of the multi-tag proxy is the tag and the operation
    identifier, joined by [_], in each of which every maximal run of white
    space has become one [_] and every other character is kept.  The name
    contains no white space, so that deriving it again changes nothing. *)
Theorem X17_multi_tag_names (tag operationId : string) :
  let runs := MultiTag.replaceRuns MultiTag.isSpace "_" false in
  MultiTag.toolName tag operationId = runs tag +:+ "_" +:+ runs operationId
  /\ runs EmptyString = EmptyString
  /\ (forall c s, MultiTag.isSpace c = false -> runs (String c s) = String c (runs s))
  /\ (forall ws s,
        ws <> EmptyString ->
        (forall c, In c (list_ascii_of_string ws) -> MultiTag.isSpace c = true) ->
        (forall c s', s = String c s' -> MultiTag.isSpace c = false) ->
        runs (ws +:+ s) = "_" +:+ runs s)
  /\ (forall c, In c (list_ascii_of_string (MultiTag.toolName tag operationId)) ->
                MultiTag.isSpace c = false)
  /\ runs (MultiTag.toolName tag operationId) = MultiTag.toolName tag operationId.
Proof.
  intros runs. subst runs.
  assert (Hclean : forall c, In c (list_ascii_of_string (MultiTag.toolName tag operationId)) ->
                             MultiTag.isSpace c = false).
  { intros c. now apply (replaceRuns_clean MultiTag.isSpace "_"). }
  split; [|split; [reflexivity|split; [|split; [|split]]]].
  - unfold MultiTag.toolName. change ("_" +:+ operationId) with (String "_" operationId).
    now rewrite (replaceRuns_app_char MultiTag.isSpace "_").
  - intros c s Hc. simpl. now rewrite Hc.
  - intros ws s Hne Hws Hs. now apply (replaceRuns_run MultiTag.isSpace "_").
  - exact Hclean.
  - now apply (replaceRuns_fixed MultiTag.isSpace "_").
Qed.

Example multi_tag_sample :
  MultiTag.toolName "Time  Check" "get current utc" = "Time_Check_get_current_utc".
Proof. reflexivity. Qed.

(** ** The endpoints of a document *)

(** X18: [init] creates a tool for exactly the entries of the path items
    whose key is one of [get], [post], [put], [delete] and [patch], in the
    order of the document; the method of every request of such a tool is
    one of GET, POST, PUT, DELETE and PATCH. *)
Theorem X18_endpoints (doc : Index.Document) (registry : gmap string Index.ToolDefinition) :
  Index.registerEndpoints doc registry
  = ofold (fun registry '(path, method, operation) =>
             Index.createToolFromEndpoint (Index.schemas doc) path method operation
               Index.baseUrl Index.organizationId registry)
          (Spec.endpointsOf doc) registry
  /\ (forall path method operation,
        In (path, method, operation) (Spec.endpointsOf doc)
        <-> exists pathItem,
              In (path, pathItem) (Index.paths doc)
              /\ In (method, operation) pathItem
              /\ Index.isHttpMethod method = true)
  /\ (forall path method operation,
        In (path, method, operation) (Spec.endpointsOf doc) ->
        In (toUpperCase method) Facts.verbs).
Proof.
  assert (Hmem : forall path method operation,
             In (path, method, operation) (Spec.endpointsOf doc)
             <-> exists pathItem,
                   In (path, pathItem) (Index.paths doc)
                   /\ In (method, operation) pathItem
                   /\ Index.isHttpMethod method = true).
  { intros path method operation. unfold Spec.endpointsOf. rewrite in_flat_map. split.
    - intros ([p item] & Hitem & Hin). apply in_flat_map in Hin as ([m o] & Hmo & Hin).
      destruct (Index.isHttpMethod m) eqn:Hm; [|destruct Hin].
      destruct Hin as [[= -> -> ->]|[]]. now exists item.
    - intros (item & Hitem & Hmo & Hm). exists (path, item). split; [exact Hitem|].
      apply in_flat_map. exists (method, operation). split; [exact Hmo|].
      rewrite Hm. now left. }
  split; [apply registerEndpoints_flat|]. split; [exact Hmem|].
  intros path method operation Hin. apply Hmem in Hin as (_ & _ & _ & Hm).
  unfold Index.isHttpMethod in Hm. apply existsb_exists in Hm as (m & Hin & Heq).
  apply String.eqb_eq in Heq. subst m. unfold Facts.verbs.
  simpl in Hin. destruct Hin as [<-|[<-|[<-|[<-|[<-|[]]]]]]; simpl; tauto.
Qed.

Example endpoints_sample :
  Spec.endpointsOf
    {| Index.paths := [("/items/{id}", [("parameters", Sample.getItem);
                                        ("get", Sample.getItem);
                                        ("GET", Sample.getItem);
                                        ("delete", Sample.deleteItem)])];
       Index.schemas := ∅ |}
  = [("/items/{id}", "get", Sample.getItem); ("/items/{id}", "delete", Sample.deleteItem)].
Proof. reflexivity. Qed.

(** ** Validators of path parameters *)

Section Numbers.
Context `{Host}.

Lemma accepts_number (int : bool) (v : value) :
  accepts (ZNumber int) v = true
  <-> exists n, v = VNum n /\ numberIsNaN n = false
                /\ (int = true -> numberIsInteger n = true).
Proof.
  destruct v; simpl; split; try discriminate; try (intros (? & [=] & _); fail).
  - intros Hacc. apply andb_prop in Hacc as [Hnan Hint].
    apply Bool.negb_true_iff in Hnan. exists n. split; [reflexivity|]. split; [exact Hnan|].
    intros ->. exact Hint.
  - intros (n' & [= <-] & Hnan & Hint). rewrite Hnan. simpl.
    destruct int; [now apply Hint | reflexivity].
Qed.

Lemma accepts_optional (t : schema) (v : value) :
  accepts (ZOptional t) v = true <-> v = VUndefined \/ accepts t v = true.
Proof.
  destruct v; simpl; split; try tauto; intros [[=]|Hacc]; exact Hacc.
Qed.

End Numbers.

(** X19: the validator of a path parameter accepts, when the declared type
    is [integer], exactly the numbers that are integers; when it is
    [number], exactly the numbers other than [NaN]; for any other declared
    type, [boolean] included, exactly the strings; and when the parameter
    is not required, [undefined] as well.  The format of the parameter
    plays no part. *)
Theorem X19_path_parameter_validator `{Host} (param : Index.PathParameter) (v : value) :
  accepts (Index.getZodSchemaForParameter param) v = true
  <-> (Index.required param = false /\ v = VUndefined)
      \/ (if String.eqb (Index.schemaType param) "integer"
          then exists n, v = VNum n /\ numberIsNaN n = false /\ numberIsInteger n = true
          else if String.eqb (Index.schemaType param) "number"
          then exists n, v = VNum n /\ numberIsNaN n = false
          else exists s, v = VStr s).
Proof.
  unfold Index.getZodSchemaForParameter.
  set (t := if String.eqb (Index.schemaType param) "integer" then ZNumber true
            else if String.eqb (Index.schemaType param) "number" then ZNumber false
            else ZString []).
  assert (Ht : accepts t v = true
               <-> (if String.eqb (Index.schemaType param) "integer"
                    then exists n, v = VNum n /\ numberIsNaN n = false
                                   /\ numberIsInteger n = true
                    else if String.eqb (Index.schemaType param) "number"
                    then exists n, v = VNum n /\ numberIsNaN n = false
                    else exists s, v = VStr s)).
  { subst t. destruct (String.eqb (Index.schemaType param) "integer");
      [|destruct (String.eqb (Index.schemaType param) "number")].
    - rewrite accepts_number. split.
      + intros (n & -> & Hnan & Hint). exists n. auto.
      + intros (n & -> & Hnan & Hint). exists n. auto.
    - rewrite accepts_number. split.
      + intros (n & -> & Hnan & _). exists n. auto.
      + intros (n & -> & Hnan). exists n. repeat split; auto. discriminate.
    - apply accepts_plain_string. }
  assert (Hundef : accepts t VUndefined = false).
  { subst t. destruct (String.eqb (Index.schemaType param) "integer");
      [|destruct (String.eqb (Index.schemaType param) "number")]; reflexivity. }
  destruct (Index.required param).
  - rewrite Ht. split; [now right | intros [[[=] _]|Hv]; exact Hv].
  - rewrite accepts_optional, Ht. split.
    + intros [->|Hv]; [now left | now right].
    + intros [[_ ->]|Hv]; [now left | now right].
Qed.

Example integer_path_parameter :
  let param := {| Index.name := "page"; Index.location := Index.InPath;
                  Index.required := true; Index.schemaType := "integer";
                  Index.schemaFormat := None |} in
  accepts (H := Sample.host) (Index.getZodSchemaForParameter param)
    (VNum (Sample.int "3")) = true
  /\ accepts (H := Sample.host) (Index.getZodSchemaForParameter param)
       (VNum Sample.oneAndAHalf) = false.
Proof. split; reflexivity. Qed.

Example boolean_path_parameter_is_a_string :
  let param := {| Index.name := "flag"; Index.location := Index.InPath;
                  Index.required := true; Index.schemaType := "boolean";
                  Index.schemaFormat := None |} in
  accepts (H := Sample.host) (Index.getZodSchemaForParameter param) (VBool true) = false
  /\ accepts (H := Sample.host) (Index.getZodSchemaForParameter param) (VStr "true") = true.
Proof. split; reflexivity. Qed.

(** ** A parameter named once in the path *)

(** X20: for a well-formed path template in which [{x}] occurs exactly once
    and validated arguments, with names free of [}], that supply a value
    for [x], the final path has no occurrence of [{x}]; it is the prefix
    correction, the part of the template before [{x}], the percent-encoded
    string form of the value, and the part after [{x}], where in both parts
    every segment is as in the template or is a hole filled with the
    encoded argument of its name. *)
Theorem X20_single_occurrence_substituted (A B : list Spec.segment) (x : string)
    (validatedParams : object value) (v : value) :
  let path := Spec.render (A ++ Spec.Hole x :: B) in
  Spec.wellFormed (A ++ Spec.Hole x :: B) = true ->
  existsb (Spec.isHole x) A = false ->
  existsb (Spec.isHole x) B = false ->
  NoDup (keys validatedParams) ->
  forallb (Spec.avoids "}") (keys validatedParams) = true ->
  obj_get x validatedParams = Some v ->
  includes (Index.segmentOf x) (Index.finalPathOf path validatedParams) = false
  /\ exists A' B',
       Index.finalPathOf path validatedParams
       = Spec.integrationPrefix path +:+ Spec.render A'
         +:+ encodeURIComponent (toString v) +:+ Spec.render B'
       /\ Forall2 (Spec.filledFrom validatedParams) A A'
       /\ Forall2 (Spec.filledFrom validatedParams) B B'.
Proof.
  intros path Hwf HnoA HnoB Hnd Hkeys Hx.
  set (pre := Spec.Text (Spec.integrationPrefix path)).
  assert (Hwf0 : Spec.wellFormed ((pre :: A) ++ Spec.Hole x :: B) = true).
  { cbn [app Spec.wellFormed forallb Spec.segmentOk pre].
    rewrite integrationPrefix_ok. exact Hwf. }
  assert (Hxc : Spec.avoids "}" x = true).
  { unfold Spec.wellFormed in Hwf. rewrite forallb_app in Hwf.
    apply andb_prop in Hwf as [_ Hwf]. simpl in Hwf.
    apply andb_prop in Hwf as [Hseg _]. now apply andb_prop in Hseg as [_ ?]. }
  assert (Hguard : includes (Index.segmentOf x) path = true).
  { unfold path. rewrite includes_render by assumption.
    rewrite existsb_app. simpl. rewrite String.eqb_refl. now rewrite Bool.orb_true_r. }
  assert (Hrun : Index.finalPathOf path validatedParams
                 = Spec.render (fold_left (Spec.fillStep path) validatedParams
                                  ((pre :: A) ++ Spec.Hole x :: B))).
  { unfold Index.finalPathOf. rewrite integrationPath_prefix.
    rewrite <- replacePathParameters_render by assumption. reflexivity. }
  destruct (fillLoop_shape path validatedParams x v Hx Hguard (pre :: A) B)
    with (rest := validatedParams) (A' := pre :: A) (B' := B) (m := Spec.Hole x)
    as (A'' & B'' & Hfold & HA & HB).
  { exact HnoA. }
  { exact HnoB. }
  { now apply entries_are_lookups. }
  { apply filled_refl. }
  { apply filled_refl. }
  { left. split; [reflexivity|]. now apply (obj_get_Some_keys x v). }
  rewrite Hrun, Hfold.
  assert (HwfA : Spec.wellFormed A'' = true /\ Spec.wellFormed B'' = true).
  { unfold Spec.wellFormed in Hwf0. rewrite forallb_app in Hwf0.
    apply andb_prop in Hwf0 as [HwA HwB]. simpl in HwB. apply andb_prop in HwB as [_ HwB].
    split; eapply filled_wellFormed; eassumption. }
  destruct HwfA as [HwfA HwfB].
  split.
  - rewrite includes_render; [|
      unfold Spec.wellFormed; rewrite forallb_app; fold (Spec.wellFormed A''); rewrite HwfA;
      simpl; fold (Spec.wellFormed B''); rewrite HwfB;
      now destruct (plain_avoids _ (encodeURIComponent_plain (toString v))) as [-> _]
    | assumption].
    rewrite existsb_app. simpl.
    rewrite (filled_no_hole _ x _ _ HA) by exact HnoA.
    now rewrite (filled_no_hole _ x _ _ HB).
  - inversion HA as [|seg seg' tA tA' Hseg HtA]; subst.
    exists tA', B''. split; [|now split].
    destruct Hseg as [->|(k' & v' & [=] & _)].
    rewrite render_app. cbn [Spec.render pre]. now rewrite !append_assoc.
Qed.

Lemma X20_single_occurrence_substituted_witness :
  Index.finalPathOf "/shops/{shop}/orders/{id}" [("id", VStr "a b"); ("shop", VNum (Sample.int "7"))]
  = "/shops/7/orders/a%20b"
  /\ includes "{id}" (Index.finalPathOf "/shops/{shop}/orders/{id}"
                        [("id", VStr "a b"); ("shop", VNum (Sample.int "7"))]) = false.
Proof.
  assert (Hnd : NoDup (keys [("id", VStr "a b"); ("shop", VNum (Sample.int "7"))])).
  { apply (bool_decide_unpack _). vm_compute. exact I. }
  destruct (X20_single_occurrence_substituted
              [Spec.Text "/shops/"; Spec.Hole "shop"; Spec.Text "/orders/"] [] "id"
              [("id", VStr "a b"); ("shop", VNum (Sample.int "7"))] (VStr "a b")
              eq_refl eq_refl eq_refl Hnd eq_refl eq_refl) as [Hgone _].
  split; [reflexivity | exact Hgone].
Defined.
